(** * Vehicle entry/exit registration: detection services

    A shallow embedding of the geometric and assembly core of
    [detect/plate_detection_service.py] and [cin/cin_extraction_service.py].

    Numbers.  Python floats and NumPy float32 values are idealised as exact
    rationals ([Q]); integers are [Z].  Comparisons, truncation ([int]),
    rounding ([round]) and floor division ([//]) follow Python's rules on
    those exact values.  Equality of rationals is [Qeq] ([==]).  Where the
    exact value of a quotient or product is an integer, binary floating point
    can fall one unit in the last place below it, and [int] then truncates
    one lower than here: statements on the letterbox sizes are made away from
    that boundary.

    Failure.  A Python call either returns or raises; this is the [result]
    type below, with [try_except] for [try: ... except Exception: ...].

    Collaborators.  The detector models, OpenCV and the OCR reader are not
    part of the repository: they appear as a record of operations and as
    [Variable]s of a [Section], and every statement holds for all of their
    behaviours, raising included. *)

From Stdlib Require Import ZArith QArith Qround Qabs Lia Lqa List Ascii String.
From Stdlib Require Import Sorted.
From stdpp Require Import base option list strings gmap pretty.

Local Open Scope Z_scope.

(** ** Python values and exceptions *)

(** The first class, among those the [except] clauses of the services name,
    that an exception is an instance of: [ValueError] or a subclass of it,
    else [RuntimeError] or a subclass of it, else neither. *)
Inductive exn_base : Type :=
  | IsValueError
  | IsRuntimeError
  | IsOther.

(** An exception that [except Exception] catches: [exn_name e] is
    [type(e).__name__] and [exn_str e] is [str(e)]. *)
Record exn : Type := Exn {
  exn_base_of : exn_base;
  exn_name : string;
  exn_str : string
}.

Definition ZeroDivisionError (msg : string) : exn :=
  Exn IsOther "ZeroDivisionError" msg.
Definition IndexError (msg : string) : exn := Exn IsOther "IndexError" msg.
Definition ValueError (msg : string) : exn := Exn IsValueError "ValueError" msg.
Definition RuntimeError (msg : string) : exn :=
  Exn IsRuntimeError "RuntimeError" msg.

(** [cv2.error].  The text OpenCV gives it depends on the build; a short
    description stands for it, and the services only report its class
    name. *)
Definition cv2_error (msg : string) : exn := Exn IsOther "error" msg.

(** The [IndexError] of a NumPy array indexed at [i] along an axis of length
    [size]. *)
Definition index_out_of_bounds (i axis size : nat) : exn :=
  IndexError ("index " +:+ pretty i +:+ " is out of bounds for axis "
              +:+ pretty axis +:+ " with size " +:+ pretty size).

Inductive result (A : Type) : Type :=
  | Ok (a : A)
  | Raise (e : exn).
Arguments Ok {A} a.
Arguments Raise {A} e.

Definition rbind {A B : Type} (r : result A) (k : A -> result B) : result B :=
  match r with
  | Ok a => k a
  | Raise e => Raise e
  end.

Notation "x <- r ;;; k" := (rbind r (fun x => k))
  (at level 100, r at next level, right associativity, only parsing).

(** [try: body except Exception as e: handler e] *)
Definition try_except {A : Type} (body : result A) (handler : exn -> result A)
  : result A :=
  match body with
  | Ok a => Ok a
  | Raise e => handler e
  end.

(** The loop [for x in xs: st = step st x], where a raise leaves the loop. *)
Fixpoint for_each {St X : Type} (step : St -> X -> result St) (xs : list X)
    (st : St) : result St :=
  match xs with
  | [] => Ok st
  | x :: xs' => st' <- step st x ;;; for_each step xs' st'
  end.

(** ** Arithmetic *)

Definition Qltb (a b : Q) : bool := Qnum a * QDen b <? Qnum b * QDen a.
Definition Qleb (a b : Q) : bool := Qnum a * QDen b <=? Qnum b * QDen a.
Definition Qeqb (a b : Q) : bool := Qnum a * QDen b =? Qnum b * QDen a.

(** [a / b].  The only divisions that can meet a zero divisor are those of
    a target size by a side of [image.shape], both Python integers. *)
Definition py_truediv (a b : Q) : result Q :=
  if Qeqb b 0 then Raise (ZeroDivisionError "division by zero")
  else Ok (a / b)%Q.

(** [int(x)]: truncation toward zero. *)
Definition py_int (q : Q) : Z := Z.quot (Qnum q) (QDen q).

(** [round(x)]: nearest integer, halves to the even neighbour. *)
Definition py_round (q : Q) : Z :=
  let f := Qfloor q in
  match (q - inject_Z f ?= 1 # 2)%Q with
  | Lt => f
  | Gt => f + 1
  | Eq => if Z.even f then f else f + 1
  end.

(** [max(a, b)] and [min(a, b)] return their first argument on a tie. *)
Definition py_max (a b : Q) : Q := if Qltb a b then b else a.
Definition py_min (a b : Q) : Q := if Qltb b a then b else a.

(** [len(a[i:j])] for a sequence of length [n]. *)
Definition slice_index (n k : Z) : Z :=
  if k <? 0 then Z.max 0 (k + n) else Z.min k n.
Definition slice_len (n i j : Z) : Z :=
  Z.max 0 (slice_index n j - slice_index n i).

(** ** Strings

    Text is modelled as strings of code points below 256. *)

(** [c.isspace()] on that range: the blank, the controls 9 to 13 and 28 to
    31, NEL (133) and the no-break space (160). *)
Definition py_isspace (c : ascii) : bool :=
  let n := nat_of_ascii c in
  ((n =? 32) || ((9 <=? n) && (n <=? 13)) || ((28 <=? n) && (n <=? 31))
   || (n =? 133) || (n =? 160))%nat.

Fixpoint lstrip (s : string) : string :=
  match s with
  | EmptyString => EmptyString
  | String c s' => if py_isspace c then lstrip s' else s
  end.

(** [s.strip()] *)
Definition strip (s : string) : string :=
  String.rev (lstrip (String.rev (lstrip s))).

(** [s.replace(" ", "")] *)
Fixpoint remove_spaces (s : string) : string :=
  match s with
  | EmptyString => EmptyString
  | String c s' =>
      if Ascii.eqb c " " then remove_spaces s' else String c (remove_spaces s')
  end.

(** [sep.join(parts)] *)
Fixpoint join (sep : string) (parts : list string) : string :=
  match parts with
  | [] => ""
  | [p] => p
  | p :: rest => p +:+ sep +:+ join sep rest
  end.

(** [needle in hay] *)
Fixpoint contains (needle hay : string) : bool :=
  String.prefix needle hay ||
  match hay with
  | EmptyString => false
  | String _ hay' => contains needle hay'
  end.

(** Truth value of a string. *)
Definition nonempty (s : string) : bool :=
  match s with
  | EmptyString => false
  | String _ _ => true
  end.

(** [repr] of a list of strings; the quoting is that of strings holding no
    quote, backslash or control character, as all class names here. *)
Definition repr_list (l : list string) : string :=
  "[" +:+ join ", " (map (fun x => "'" +:+ x +:+ "'") l) +:+ "]".

(** ** Boxes and scaling contexts *)

Definition box (A : Type) : Type := (A * A * A * A)%type.

Definition box_map {A B : Type} (f : A -> B) (b : box A) : box B :=
  let '(x_min, y_min, x_max, y_max) := b in (f x_min, f y_min, f x_max, f y_max).

(** The [scaling_meta] dict.  The stage-2 dict spells its keys
    [original_h], [original_w], [top_pad] and [left_pad]; the contents are the
    same five numbers. *)
Record scaling_meta : Type := ScalingMeta {
  original_height : Z;
  original_width : Z;
  scale : Q;
  pad_top : Z;
  pad_left : Z
}.

(** [x1 < x2 and y1 < y2] *)
Definition box_valid (b : box Z) : bool :=
  let '(x1, y1, x2, y2) := b in (x1 <? x2) && (y1 <? y2).

(** ** Collaborators *)

(** A row of a detector's output: a box in padded space and a confidence. *)
Definition raw_detection : Type := (box Q * Q)%type.

(** Arrays and OpenCV, over an abstract type of images.  [shape img] is
    [img.shape[:2]], [slice img (x1, y1, x2, y2)] is [img[y1:y2, x1:x2]].
    [find_contours] stands for the chain [cvtColor], [GaussianBlur],
    [adaptiveThreshold], [findContours]; [rect_angle c] for
    [cv2.minAreaRect(c)[2]]; [warp img angle] for [getRotationMatrix2D]
    followed by [warpAffine]. *)
Record imaging (Image Contour : Type) : Type := Imaging {
  shape : Image -> Z * Z;
  slice : Image -> box Z -> Image;
  find_contours : Image -> result (list Contour);
  contourArea : Contour -> result Q;
  rect_angle : Contour -> result Q;
  warp : Image -> Q -> result Image
}.
Arguments shape {Image Contour} _ _.
Arguments slice {Image Contour} _ _ _.
Arguments find_contours {Image Contour} _ _.
Arguments contourArea {Image Contour} _ _.
Arguments rect_angle {Image Contour} _ _.
Arguments warp {Image Contour} _ _ _.

(** [img.size] of a three-channel image. *)
Definition img_size {Image Contour : Type} (im : imaging Image Contour)
    (img : Image) : Z :=
  let '(h, w) := shape im img in h * w * 3.

(** [max(c0 :: cs, key=key)]: the first element whose key is largest. *)
Fixpoint max_by_from {A : Type} (key : A -> result Q) (best : A) (best_key : Q)
    (rest : list A) : result A :=
  match rest with
  | [] => Ok best
  | a :: rest' =>
      k <- key a ;;;
      if Qltb best_key k then max_by_from key a k rest'
      else max_by_from key best best_key rest'
  end.

Definition max_by {A : Type} (key : A -> result Q) (first : A) (rest : list A)
  : result A :=
  k <- key first ;;; max_by_from key first k rest.

(** [ANGLE_THRESHOLD = 2.0], local to both copies of the rotation step. *)
Definition ANGLE_THRESHOLD : Q := 2.

(** The skew angle brought into [-45, 45]. *)
Definition normalize_angle (angle : Q) : Q :=
  if Qltb angle (-45) then (90 + angle)%Q
  else if Qltb 45 angle then (angle - 90)%Q
  else angle.

(** ** Module-level helpers of plate_detection_service.py *)

Module Helpers.

(** [preprocess_image_car], as far as the scaling context goes: the pixel
    work (resize, pad, normalise) only fixes where the content lands.
    [cv2.resize] rejects an empty target size. *)
Definition preprocess_image_car
    (original_height original_width target_height target_width : Z)
  : result scaling_meta :=
  try_except
    (scale_h <- py_truediv (inject_Z target_height) (inject_Z original_height) ;;;
     scale_w <- py_truediv (inject_Z target_width) (inject_Z original_width) ;;;
     let scale := py_min scale_h scale_w in
     let new_height := py_round (inject_Z original_height * scale) in
     let new_width := py_round (inject_Z original_width * scale) in
     if (new_height <=? 0) || (new_width <=? 0)
     then Raise (cv2_error "resize: empty size")
     else
       let pad_top := (target_height - new_height) / 2 in
       let pad_left := (target_width - new_width) / 2 in
       Ok (ScalingMeta original_height original_width scale pad_top pad_left))
    (fun e => Raise e).

(** [scale_coords_car]: clips on both sides, then truncates. *)
Definition scale_coords_car (coords : box Q) (m : scaling_meta)
  : result (box Z) :=
  try_except
    (let '(x_min, y_min, x_max, y_max) := coords in
     let pad_left := inject_Z (pad_left m) in
     let pad_top := inject_Z (pad_top m) in
     let scale := scale m in
     let orig_h := inject_Z (original_height m) in
     let orig_w := inject_Z (original_width m) in
     let x_min_unpad := (x_min - pad_left)%Q in
     let y_min_unpad := (y_min - pad_top)%Q in
     let x_max_unpad := (x_max - pad_left)%Q in
     let y_max_unpad := (y_max - pad_top)%Q in
     if Qeqb scale 0 then Ok (0, 0, 0, 0)
     else
       orig_x_min <- py_truediv x_min_unpad scale ;;;
       orig_y_min <- py_truediv y_min_unpad scale ;;;
       orig_x_max <- py_truediv x_max_unpad scale ;;;
       orig_y_max <- py_truediv y_max_unpad scale ;;;
       let orig_x_min := py_max 0 (py_min orig_x_min orig_w) in
       let orig_y_min := py_max 0 (py_min orig_y_min orig_h) in
       let orig_x_max := py_max 0 (py_min orig_x_max orig_w) in
       let orig_y_max := py_max 0 (py_min orig_y_max orig_h) in
       Ok (py_int orig_x_min, py_int orig_y_min,
           py_int orig_x_max, py_int orig_y_max))
    (fun e => Raise e).

Section Rotation.
Context {Image Contour : Type} (cv : imaging Image Contour).

(** The body of the [try] block of [detect_and_correct_rotation]. *)
Definition rotation_body (plate_img : option Image) : result (option Image) :=
  match plate_img with
  | None => Ok plate_img
  | Some img =>
      if img_size cv img =? 0 then Ok plate_img
      else
        contours <- find_contours cv img ;;;
        match contours with
        | [] => Ok plate_img
        | c0 :: cs =>
            c <- max_by (contourArea cv) c0 cs ;;;
            angle <- rect_angle cv c ;;;
            let angle := normalize_angle angle in
            if Qltb (Qabs angle) ANGLE_THRESHOLD then Ok plate_img
            else rotated <- warp cv img angle ;;; Ok (Some rotated)
        end
  end.

(** [detect_and_correct_rotation]: any exception is logged and the input
    handed back. *)
Definition detect_and_correct_rotation (plate_img : option Image)
  : result (option Image) :=
  try_except (rotation_body plate_img) (fun _ => Ok plate_img).

End Rotation.

End Helpers.

(** ** Methods of PlateDetectionServicer *)

Module PlateDetectionServicer.

Definition CAR_INPUT_HEIGHT : Z := 640.
Definition CAR_INPUT_WIDTH : Z := 640.
Definition CAR_CONFIDENCE_THRESHOLD : Q := 53 # 100.
Definition PLATE_CONFIDENCE_THRESHOLD : Q := 54 # 100.

(** The method [preprocess_image_car]: same scaling context as the helper. *)
Definition preprocess_image_car
    (original_height original_width target_height target_width : Z)
  : result scaling_meta :=
  try_except
    (scale_h <- py_truediv (inject_Z target_height) (inject_Z original_height) ;;;
     scale_w <- py_truediv (inject_Z target_width) (inject_Z original_width) ;;;
     let scale := py_min scale_h scale_w in
     let new_height := py_round (inject_Z original_height * scale) in
     let new_width := py_round (inject_Z original_width * scale) in
     if (new_height <=? 0) || (new_width <=? 0)
     then Raise (cv2_error "resize: empty size")
     else
       let pad_top := (target_height - new_height) / 2 in
       let pad_left := (target_width - new_width) / 2 in
       Ok (ScalingMeta original_height original_width scale pad_top pad_left))
    (fun e => Raise e).

(** The method [scale_coords_car]: truncates, then clips the minima from
    below and the maxima from above. *)
Definition scale_coords_car (box_raw : box Q) (m : scaling_meta)
  : result (box Z) :=
  try_except
    (let '(b0, b1, b2, b3) := box_raw in
     let orig_h := original_height m in
     let orig_w := original_width m in
     let scale := scale m in
     let pad_left := inject_Z (pad_left m) in
     let pad_top := inject_Z (pad_top m) in
     let box_pad_x_min := (b0 - pad_left)%Q in
     let box_pad_y_min := (b1 - pad_top)%Q in
     let box_pad_x_max := (b2 - pad_left)%Q in
     let box_pad_y_max := (b3 - pad_top)%Q in
     if Qeqb scale 0 then Ok (0, 0, 0, 0)
     else
       x_min <- py_truediv box_pad_x_min scale ;;;
       y_min <- py_truediv box_pad_y_min scale ;;;
       x_max <- py_truediv box_pad_x_max scale ;;;
       y_max <- py_truediv box_pad_y_max scale ;;;
       let x_min := Z.max 0 (py_int x_min) in
       let y_min := Z.max 0 (py_int y_min) in
       let x_max := Z.min orig_w (py_int x_max) in
       let y_max := Z.min orig_h (py_int y_max) in
       Ok (x_min, y_min, x_max, y_max))
    (fun e => Raise e).

(** [preprocess_image_plate], as far as the scaling context goes. *)
Definition preprocess_image_plate (original_h original_w target_h target_w : Z)
  : result scaling_meta :=
  try_except
    (scale_h <- py_truediv (inject_Z target_h) (inject_Z original_h) ;;;
     scale_w <- py_truediv (inject_Z target_w) (inject_Z original_w) ;;;
     let scale := py_min scale_h scale_w in
     let new_h := py_int (inject_Z original_h * scale) in
     let new_w := py_int (inject_Z original_w * scale) in
     if (new_h <=? 0) || (new_w <=? 0)
     then Raise (cv2_error "resize: empty size")
     else
       let pad_h := target_h - new_h in
       let pad_w := target_w - new_w in
       let top_pad := pad_h / 2 in
       let left_pad := pad_w / 2 in
       if (top_pad <? 0) || (pad_h - top_pad <? 0)
          || (left_pad <? 0) || (pad_w - left_pad <? 0)
       then Raise (cv2_error "copyMakeBorder: negative border")
       else Ok (ScalingMeta original_h original_w scale top_pad left_pad))
    (fun e => Raise e).

(** [scale_coords_plate]: into the cropped plate's own frame. *)
Definition scale_coords_plate (coords_padded : box Q) (m : scaling_meta)
  : result (box Z) :=
  try_except
    (let '(x_min, y_min, x_max, y_max) := coords_padded in
     let orig_h := original_height m in
     let orig_w := original_width m in
     let scale := scale m in
     let left_pad := inject_Z (pad_left m) in
     let top_pad := inject_Z (pad_top m) in
     let x_min_unpad := (x_min - left_pad)%Q in
     let y_min_unpad := (y_min - top_pad)%Q in
     let x_max_unpad := (x_max - left_pad)%Q in
     let y_max_unpad := (y_max - top_pad)%Q in
     if Qeqb scale 0 then Ok (0, 0, 0, 0)
     else
       orig_x_min <- py_truediv x_min_unpad scale ;;;
       orig_y_min <- py_truediv y_min_unpad scale ;;;
       orig_x_max <- py_truediv x_max_unpad scale ;;;
       orig_y_max <- py_truediv y_max_unpad scale ;;;
       let orig_x_min := Z.max 0 (py_int orig_x_min) in
       let orig_y_min := Z.max 0 (py_int orig_y_min) in
       let orig_x_max := Z.min orig_w (py_int orig_x_max) in
       let orig_y_max := Z.min orig_h (py_int orig_y_max) in
       Ok (orig_x_min, orig_y_min, orig_x_max, orig_y_max))
    (fun e => Raise e).

(** An entry of [relevant_detections]. *)
Record detection : Type := Detection {
  d_x1 : Z;
  d_y1 : Z;
  d_x2 : Z;
  d_y2 : Z;
  d_class_name : string;
  d_confidence : Q;
  d_ocr_text : option string
}.

(** [class_map.get(label_index, f"Label_{label_index}")] *)
Definition resolve_class_name (class_map : gmap Z string) (label_index : Z)
  : string :=
  default ("Label_" +:+ pretty label_index) (class_map !! label_index).

(** [ocr and '[OCR' not in ocr and '[NO' not in ocr] *)
Definition text_ok (o : option string) : bool :=
  match o with
  | Some t => nonempty t && negb (contains "[OCR" t) && negb (contains "[NO" t)
  | None => false
  end.

(** [f"{ocr}"] *)
Definition str_of (o : option string) : string := default "None" o.

(** [ocr or '[N/A]'] inside an f-string. *)
Definition or_na (o : option string) : string :=
  match o with
  | Some t => if nonempty t then t else "[N/A]"
  | None => "[N/A]"
  end.

(** [sorted_detections[i]] *)
Definition item (sorted_detections : list detection) (i : nat)
  : result detection :=
  match sorted_detections !! i with
  | Some d => Ok d
  | None => Raise (IndexError "list index out of range")
  end.

Definition failed_parts (ocr1 ocr2 : option string) : list string :=
  (if text_ok ocr1 then [] else ["first number"]) ++
  (if text_ok ocr2 then [] else ["second number"]).

(** Stage 4: the assembly of the plate string from the sorted detections.
    The result is the triple returned by [_perform_detection]; [finish] is
    the common end of every branch. *)
Definition assemble (sorted_detections : list detection) (overall_confidence : Q)
  : result (string * Q * option string) :=
  let detection_sequence := map d_class_name sorted_detections in
  let finish (final_plate_string : string) (error_occurred : bool)
             (error_message_assembly : string) :=
    let '(error_occurred, error_message_assembly) :=
      if negb (nonempty final_plate_string) && negb error_occurred
      then (true, "Failed to assemble plate string")
      else (error_occurred, error_message_assembly) in
    Ok (final_plate_string, overall_confidence,
        if error_occurred then Some error_message_assembly else None) in
  if bool_decide (detection_sequence = ["num"; "tun"; "num"]) then
    if (length sorted_detections =? 3)%nat then
      d0 <- item sorted_detections 0 ;;;
      d2 <- item sorted_detections 2 ;;;
      let ocr1 := d_ocr_text d0 in
      let ocr2 := d_ocr_text d2 in
      if text_ok ocr1 && text_ok ocr2
      then finish (str_of ocr1 +:+ " TN " +:+ str_of ocr2) false ""
      else finish ("OCR Incomplete: " +:+ or_na ocr1 +:+ " TN " +:+ or_na ocr2) true
             ("OCR failed on " +:+ join ", " (failed_parts ocr1 ocr2))
    else finish "" true "Detection count mismatch for num-tun-num pattern"
  else if bool_decide (detection_sequence = ["num"; "tun"]) then
    if (length sorted_detections =? 2)%nat then
      d0 <- item sorted_detections 0 ;;;
      let ocr_num := d_ocr_text d0 in
      if text_ok ocr_num
      then finish ("RS " +:+ str_of ocr_num) false ""
      else finish ("RS OCR Error: " +:+ or_na ocr_num) true
             "OCR failed on number part for RS-style plate"
    else finish "" true "Detection count mismatch for num-tun pattern"
  else if bool_decide (detection_sequence = ["tun"; "num"]) then
    if (length sorted_detections =? 2)%nat then
      d1 <- item sorted_detections 1 ;;;
      let ocr_num := d_ocr_text d1 in
      if text_ok ocr_num
      then finish ("RS " +:+ str_of ocr_num) false ""
      else finish ("RS OCR Error: " +:+ or_na ocr_num) true
             "OCR failed on number part for RS-style plate"
    else finish "" true "Detection count mismatch for tun-num pattern"
  else
    finish "Pattern Error" true
      ("Unrecognized plate pattern: " +:+ repr_list detection_sequence).

(** [sorted(relevant_detections, key=lambda d: d['x1'])]: stable. *)
Fixpoint insert_by_x1 (d : detection) (l : list detection) : list detection :=
  match l with
  | [] => [d]
  | e :: l' => if d_x1 d <=? d_x1 e then d :: l else e :: insert_by_x1 d l'
  end.

Definition sorted_by_x1 (l : list detection) : list detection :=
  foldr insert_by_x1 [] l.

Definition set_ocr_text (d : detection) (t : string) : detection :=
  Detection (d_x1 d) (d_y1 d) (d_x2 d) (d_y2 d) (d_class_name d) (d_confidence d)
    (Some t).

Section Pipeline.
Context {Image Contour : Type} (im : imaging Image Contour).

(** The OCR reader with [detail=0]: the texts found in an image. *)
Variable readtext : Image -> result (list string).

(** The two compiled models: the rows of the car model, or the text of an
    unexpected output shape; the rows and labels of the plate model. *)
Variable car_model : Image -> result (list raw_detection + string).
Variable plate_model : Image -> result (list raw_detection * list Q).

Variable class_map : gmap Z string.
Variables plate_target_height plate_target_width : Z.

(** The method [detect_and_correct_rotation]. *)
Definition rotation_body (plate_img : option Image) : result (option Image) :=
  match plate_img with
  | None => Ok plate_img
  | Some img =>
      if img_size im img =? 0 then Ok plate_img
      else
        contours <- find_contours im img ;;;
        match contours with
        | [] => Ok plate_img
        | c0 :: cs =>
            c <- max_by (contourArea im) c0 cs ;;;
            angle <- rect_angle im c ;;;
            let angle := normalize_angle angle in
            if Qltb (Qabs angle) ANGLE_THRESHOLD then Ok plate_img
            else rotated <- warp im img angle ;;; Ok (Some rotated)
        end
  end.

Definition detect_and_correct_rotation (plate_img : option Image)
  : result (option Image) :=
  try_except (rotation_body plate_img) (fun _ => Ok plate_img).

(** One turn of the stage-1 loop; the state is
    ([best_plate_crop], [max_confidence_stage1]). *)
Definition stage1_step (scaling_meta_car : scaling_meta) (image_bgr : Image)
    (st : option Image * Q) (detection_data : raw_detection)
  : result (option Image * Q) :=
  let '(best_plate_crop, max_confidence_stage1) := st in
  let '(coords, confidence) := detection_data in
  if Qltb CAR_CONFIDENCE_THRESHOLD confidence then
    orig_coords <- scale_coords_car (box_map (fun v => inject_Z (py_int v)) coords)
                     scaling_meta_car ;;;
    if box_valid orig_coords then
      let plate_crop := slice im image_bgr orig_coords in
      if 0 <? img_size im plate_crop then
        if Qltb max_confidence_stage1 confidence
        then Ok (Some plate_crop, confidence)
        else Ok st
      else Ok st
    else Ok st
  else Ok st.

Definition stage1 (scaling_meta_car : scaling_meta) (image_bgr : Image)
    (detections : list raw_detection) : result (option Image * Q) :=
  for_each (stage1_step scaling_meta_car image_bgr) detections (None, 0%Q).

(** One turn of the stage-2 loop; the state is ([relevant_detections],
    [avg_stage2_confidence], [num_relevant_dets]). *)
Definition stage2_step (output_labels_plate : list Q)
    (scaling_meta_plate : scaling_meta)
    (st : list detection * Q * Z) (row : nat * raw_detection)
  : result (list detection * Q * Z) :=
  let '(relevant_detections, avg_stage2_confidence, num_relevant_dets) := st in
  let '(i, (coords_padded, confidence)) := row in
  label <- match output_labels_plate !! i with
           | Some l => Ok l
           | None => Raise (index_out_of_bounds i 0 (length output_labels_plate))
           end ;;;
  let label_index := py_int label in
  if Qleb PLATE_CONFIDENCE_THRESHOLD confidence then
    let class_name := resolve_class_name class_map label_index in
    if bool_decide (class_name ∈ ["num"; "tun"]) then
      coords <- scale_coords_plate coords_padded scaling_meta_plate ;;;
      let '(x1, y1, x2, y2) := coords in
      if (x1 <? x2) && (y1 <? y2) then
        Ok (relevant_detections ++
              [Detection x1 y1 x2 y2 class_name confidence None],
            (avg_stage2_confidence + confidence)%Q,
            num_relevant_dets + 1)
      else Ok st
    else Ok st
  else Ok st.

Definition stage2 (output_dets_plate : list raw_detection)
    (output_labels_plate : list Q) (scaling_meta_plate : scaling_meta)
  : result (list detection * Q * Z) :=
  for_each (stage2_step output_labels_plate scaling_meta_plate)
    (zip (seq 0 (length output_dets_plate)) output_dets_plate) ([], 0%Q, 0).

(** Stage 3 on one detection: OCR of a 'num' box, with a 2-pixel margin. *)
Definition ocr_detection (corrected_plate_crop : Image) (det : detection)
  : detection :=
  if bool_decide (d_class_name det = "num") then
    let margin := 2 in
    let '(crop_h, crop_w) := shape im corrected_plate_crop in
    let y1m := Z.max 0 (d_y1 det - margin) in
    let y2m := Z.min crop_h (d_y2 det + margin) in
    let x1m := Z.max 0 (d_x1 det - margin) in
    let x2m := Z.min crop_w (d_x2 det + margin) in
    if (y2m <=? y1m) || (x2m <=? x1m) then set_ocr_text det "[OCR_CROP_FAIL]"
    else
      let char_crop := slice im corrected_plate_crop (x1m, y1m, x2m, y2m) in
      match readtext char_crop with
      | Ok ocr_result_list =>
          let ocr_text := remove_spaces (strip (join "" ocr_result_list)) in
          set_ocr_text det (if nonempty ocr_text then ocr_text else "[NO_DIGITS]")
      | Raise _ => set_ocr_text det "[OCR_ERROR]"
      end
  else det.

(** [overall_confidence] from the stage-1 maximum and the stage-2 totals. *)
Definition aggregate_confidence (max_confidence_stage1 avg_stage2_confidence : Q)
    (num_relevant_dets : Z) : Q :=
  let avg_stage2_confidence :=
    if 0 <? num_relevant_dets
    then (avg_stage2_confidence / inject_Z num_relevant_dets)%Q
    else 0%Q in
  ((max_confidence_stage1 + avg_stage2_confidence) / 2)%Q.

(** From the end of the stage-2 loop to the result. *)
Definition after_stage2 (corrected_plate_crop : Image)
    (max_confidence_stage1 : Q) (st : list detection * Q * Z)
  : result (string * Q * option string) :=
  let '(relevant_detections, avg_stage2_confidence, num_relevant_dets) := st in
  match relevant_detections with
  | [] => Ok ("", max_confidence_stage1, Some "No characters detected in Stage 2")
  | _ :: _ =>
      let overall_confidence :=
        aggregate_confidence max_confidence_stage1 avg_stage2_confidence
          num_relevant_dets in
      let sorted_detections := sorted_by_x1 relevant_detections in
      let sorted_detections :=
        map (ocr_detection corrected_plate_crop) sorted_detections in
      assemble sorted_detections overall_confidence
  end.

(** The crop handed to stage 2: the corrected one, unless it is [None] or
    empty. *)
Definition usable_crop (best_plate_crop : Image) (corrected : option Image)
  : Image :=
  match corrected with
  | None => best_plate_crop
  | Some c => if img_size im c =? 0 then best_plate_crop else c
  end.

(** [_perform_detection], from the decoded frame ([None] when the bytes do
    not decode).  The servicer only exists once the plate model has loaded,
    so the test [if not self.compiled_plate_model] never fires. *)
Definition perform_detection (decoded : option Image)
  : result (string * Q * option string) :=
  try_except
    (match decoded with
     | None => Ok ("", 0%Q, Some "Failed to decode image bytes.")
     | Some image_bgr =>
         let '(img_h, img_w) := shape im image_bgr in
         scaling_meta_car <-
           preprocess_image_car img_h img_w CAR_INPUT_HEIGHT CAR_INPUT_WIDTH ;;;
         results_car <- car_model image_bgr ;;;
         match results_car with
         | inr bad_shape =>
             Ok ("", 0%Q,
                 Some ("Unexpected car model output shape: " +:+ bad_shape
                       +:+ ". Expected (1, N, 5)."))
         | inl detections =>
             st1 <- stage1 scaling_meta_car image_bgr detections ;;;
             let '(best, max_confidence_stage1) := st1 in
             match best with
             | None =>
                 Ok ("", 0%Q,
                     Some "No plate detected with sufficient confidence in Stage 1.")
             | Some best_plate_crop =>
                 corrected <- detect_and_correct_rotation (Some best_plate_crop) ;;;
                 let corrected_plate_crop :=
                   usable_crop best_plate_crop corrected in
                 let '(crop_h, crop_w) := shape im corrected_plate_crop in
                 scaling_meta_plate <-
                   preprocess_image_plate crop_h crop_w
                     plate_target_height plate_target_width ;;;
                 results_plate <- plate_model corrected_plate_crop ;;;
                 let '(output_dets_plate, output_labels_plate) := results_plate in
                 st2 <- stage2 output_dets_plate output_labels_plate
                          scaling_meta_plate ;;;
                 after_stage2 corrected_plate_crop max_confidence_stage1 st2
             end
         end
     end)
    (fun e =>
       Ok ("", 0%Q,
           Some ("Internal server error during detection: " +:+ exn_name e))).

(** The response of [DetectPlate]. *)
Record PlateResponse : Type := {
  success : bool;
  plate_number : string;
  confidence : Q;
  error_message : string
}.

Definition plate_response (r : string * Q * option string) : PlateResponse :=
  let '(plate_number, confidence, error_message) := r in
  {| success :=
       match error_message with
       | None => nonempty plate_number && negb (contains "Error" plate_number)
       | Some _ => false
       end;
     plate_number := plate_number;
     confidence := confidence;
     error_message := default "" error_message |}.

Definition DetectPlate (decoded : option Image) : result PlateResponse :=
  r <- perform_detection decoded ;;; Ok (plate_response r).

End Pipeline.

End PlateDetectionServicer.

(** ** CinExtractionServicer *)

Module CinExtractionServicer.

Definition CONFIDENCE_THRESHOLD : Q := 54 # 100.
Definition INPUT_HEIGHT : Z := 640.
Definition INPUT_WIDTH : Z := 640.

(** The inline mapping of a passing detection back to the original image:
    clip the minima from below and the maxima from above, then truncate. *)
Definition box_orig (det : box Q) (orig_h orig_w : Z) (scale : Q)
    (pad_top pad_left : Z) : result (box Z) :=
  let '(x_min_pad, y_min_pad, x_max_pad, y_max_pad) := det in
  qx_min <- py_truediv (x_min_pad - inject_Z pad_left) scale ;;;
  let x_min_orig := py_max 0 qx_min in
  qy_min <- py_truediv (y_min_pad - inject_Z pad_top) scale ;;;
  let y_min_orig := py_max 0 qy_min in
  qx_max <- py_truediv (x_max_pad - inject_Z pad_left) scale ;;;
  let x_max_orig := py_min (inject_Z orig_w) qx_max in
  qy_max <- py_truediv (y_max_pad - inject_Z pad_top) scale ;;;
  let y_max_orig := py_min (inject_Z orig_h) qy_max in
  Ok (py_int x_min_orig, py_int y_min_orig, py_int x_max_orig, py_int y_max_orig).

(** [class_id_to_name.get(label_id, f"unknown_id_{label_id}")] *)
Definition resolve_class_name (class_id_to_name : gmap Z string) (label_id : Z)
  : string :=
  default ("unknown_id_" +:+ pretty label_id) (class_id_to_name !! label_id).

(** An entry of [detections]. *)
Record detection : Type := Detection {
  d_class_name : string;
  d_label_id : Z;
  d_confidence : Q;
  d_box_orig : box Z;
  d_box_padded : box Z
}.

Record CinResponse : Type := {
  success : bool;
  id_number : string;
  name : string;
  lastname : string;
  confidence_id : Q;
  confidence_name : Q;
  confidence_lastname : Q;
  error_message : string
}.

(** [CinResponse(success=False)] with [error_message] set. *)
Definition failure (msg : string) : CinResponse :=
  {| success := false; id_number := ""; name := ""; lastname := "";
     confidence_id := 0; confidence_name := 0; confidence_lastname := 0;
     error_message := msg |}.

(** The text of the [ValueError] of [_preprocess_image]; [float_repr] is the
    text an f-string gives a float. *)
Definition invalid_resized_dimensions (float_repr : Q -> string)
    (new_w new_h original_w original_h : Z) (scale : Q) : string :=
  "Invalid resized dimensions (" +:+ pretty new_w +:+ "x" +:+ pretty new_h
  +:+ ") from original (" +:+ pretty original_w +:+ "x" +:+ pretty original_h
  +:+ ") with scale " +:+ float_repr scale.

(** The context returned by [_preprocess_image]:
    ([original_h], [original_w], [scale], [top], [left]). *)
Definition _preprocess_image (float_repr : Q -> string)
    (original_h original_w target_height target_width : Z)
  : result (Z * Z * Q * Z * Z) :=
  scale_h <- py_truediv (inject_Z target_height) (inject_Z original_h) ;;;
  scale_w <- py_truediv (inject_Z target_width) (inject_Z original_w) ;;;
  let scale := py_min scale_h scale_w in
  let new_h := py_int (inject_Z original_h * scale) in
  let new_w := py_int (inject_Z original_w * scale) in
  if (new_h <=? 0) || (new_w <=? 0)
  then Raise (ValueError (invalid_resized_dimensions float_repr new_w new_h
                            original_w original_h scale))
  else
    let pad_h := target_height - new_h in
    let pad_w := target_width - new_w in
    let top := pad_h / 2 in
    let left := pad_w / 2 in
    if (top <? 0) || (pad_h - top <? 0) || (left <? 0) || (pad_w - left <? 0)
    then Raise (cv2_error "copyMakeBorder: negative border")
    else Ok (original_h, original_w, scale, top, left).

Section Extraction.
Context {Image Contour : Type} (im : imaging Image Contour).

(** The OCR reader with [detail=1]: texts with their confidences. *)
Variable readtext : Image -> result (list (string * Q)).

Variable class_id_to_name : gmap Z string.

(** One turn of the loop that collects the detections above threshold. *)
Definition collect_step (labels : list Q) (orig_h orig_w : Z) (scale : Q)
    (pad_top pad_left : Z) (detections : list detection)
    (row : nat * raw_detection) : result (list detection) :=
  let '(i, (coords, confidence)) := row in
  if Qleb CONFIDENCE_THRESHOLD confidence then
    label <- match labels !! i with
             | Some l => Ok l
             | None => Raise (index_out_of_bounds i 1 (length labels))
             end ;;;
    let label_id := py_int label in
    let class_name := resolve_class_name class_id_to_name label_id in
    b <- box_orig coords orig_h orig_w scale pad_top pad_left ;;;
    Ok (detections ++
          [Detection class_name label_id confidence b (box_map py_int coords)])
  else Ok detections.

Definition collect (output_dets : list (list raw_detection))
    (output_labels : list (list Q)) (orig_h orig_w : Z) (scale : Q)
    (pad_top pad_left : Z) : result (list detection) :=
  match output_dets, output_labels with
  | [rows], [labels] =>
      for_each (collect_step labels orig_h orig_w scale pad_top pad_left)
        (zip (seq 0 (length rows)) rows) []
  | _, _ => Ok []
  end.

(** The texts of one OCR call joined with a space after each, their
    confidences summed and counted. *)
Definition combine (ocr_result_list : list (string * Q)) : string * Q * Z :=
  foldl (fun acc r =>
           let '(current_field_text, current_field_confidence_sum,
                 num_ocr_parts) := acc in
           let '(text_ocr, conf_ocr) := r in
           (current_field_text +:+ text_ocr +:+ " ",
            (current_field_confidence_sum + conf_ocr)%Q,
            num_ocr_parts + 1))
        ("", 0%Q, 0) ocr_result_list.

(** One turn of the OCR loop; the state is ([extracted_texts],
    [ocr_confidences]). *)
Definition ocr_step (image_cv : Image)
    (st : gmap string string * gmap string Q) (det : detection)
  : result (gmap string string * gmap string Q) :=
  let '(extracted_texts, ocr_confidences) := st in
  let field_name := d_class_name det in
  let '(x1, y1, x2, y2) := d_box_orig det in
  if (x2 <=? x1) || (y2 <=? y1) then Ok st
  else
    let cropped_image := slice im image_cv (x1, y1, x2, y2) in
    if img_size im cropped_image =? 0 then Ok st
    else
      ocr_result_list <- readtext cropped_image ;;;
      match ocr_result_list with
      | [] => Ok st
      | _ :: _ =>
          let '(current_field_text, current_field_confidence_sum,
                num_ocr_parts) := combine ocr_result_list in
          Ok (<[field_name := strip current_field_text]> extracted_texts,
              <[field_name :=
                  if 0 <? num_ocr_parts
                  then (current_field_confidence_sum / inject_Z num_ocr_parts)%Q
                  else 0%Q]> ocr_confidences)
      end.

(** The end of [ExtractCinData]: the response built from the two dicts. *)
Definition build_response (detections : list detection)
    (st : gmap string string * gmap string Q) : CinResponse :=
  let '(extracted_texts, ocr_confidences) := st in
  let id_number := default "" (extracted_texts !! "id") in
  let name := default "" (extracted_texts !! "name") in
  let lastname := default "" (extracted_texts !! "lastname") in
  let found := nonempty id_number || nonempty name || nonempty lastname in
  {| success := found;
     id_number := id_number;
     name := name;
     lastname := lastname;
     confidence_id := default 0%Q (ocr_confidences !! "id");
     confidence_name := default 0%Q (ocr_confidences !! "name");
     confidence_lastname := default 0%Q (ocr_confidences !! "lastname");
     error_message :=
       if found then ""
       else match detections with
            | [] => "No relevant fields detected in the image."
            | _ :: _ =>
                "No information could be extracted, or all fields were empty after OCR."
            end |}.

(** From the detector's output to the response: post-processing and OCR. *)
Definition extract_fields (image_cv : Image)
    (output_dets : list (list raw_detection)) (output_labels : list (list Q))
    (orig_h orig_w : Z) (scale : Q) (pad_top pad_left : Z)
  : result CinResponse :=
  detections <- collect output_dets output_labels orig_h orig_w scale
                  pad_top pad_left ;;;
  st <- for_each (ocr_step image_cv) detections (∅, ∅) ;;;
  Ok (build_response detections st).

End Extraction.

(** The message of the [except] clause that catches [e]: the clauses are
    tried in order, and each catches the subclasses of its class too. *)
Definition error_text (e : exn) : string :=
  match exn_base_of e with
  | IsValueError => "Image processing error: " +:+ exn_str e
  | IsRuntimeError => "Runtime error during inference: " +:+ exn_str e
  | IsOther => "An unexpected error occurred: " +:+ exn_name e +:+ ": "
               +:+ exn_str e
  end.

(** The three [except] clauses of [ExtractCinData]. *)
Definition on_error (e : exn) : result CinResponse :=
  Ok (failure (error_text e)).

(** [ExtractCinData], from the decoded image ([None] when the bytes do not
    decode).  [ocr_reader] is [None] when [_initialize_easyocr] failed;
    [compiled_model] is the compiled model, per batch entry the rows and the
    labels. *)
Definition ExtractCinData {Image Contour : Type} (im : imaging Image Contour)
    (float_repr : Q -> string)
    (ocr_reader : option (Image -> result (list (string * Q))))
    (compiled_model :
       option (Image -> result (list (list raw_detection) * list (list Q))))
    (class_id_to_name : gmap Z string) (decoded : option Image)
  : result CinResponse :=
  match ocr_reader with
  | None => Ok (failure "OCR reader is not initialized.")
  | Some readtext =>
      match compiled_model with
      | None => Ok (failure "OpenVINO model is not initialized.")
      | Some model =>
          try_except
            (match decoded with
             | None => Ok (failure "Failed to decode image data.")
             | Some image_cv =>
                 let '(h, w) := shape im image_cv in
                 ctx <- _preprocess_image float_repr h w INPUT_HEIGHT
                          INPUT_WIDTH ;;;
                 let '(orig_h, orig_w, scale, pad_top, pad_left) := ctx in
                 results <- model image_cv ;;;
                 let '(output_dets, output_labels) := results in
                 extract_fields im readtext class_id_to_name image_cv
                   output_dets output_labels orig_h orig_w scale pad_top
                   pad_left
             end)
            on_error
      end
  end.

End CinExtractionServicer.

(** ** Frames and the letterbox geometry *)

(** Every coordinate of [b] lies in the frame [0, w] x [0, h]. *)
Definition within_frame (h w : Z) (b : box Z) : Prop :=
  let '(x_min, y_min, x_max, y_max) := b in
  (0 <= x_min <= w) /\ (0 <= y_min <= h) /\ (0 <= x_max <= w) /\ (0 <= y_max <= h).


(** Where the letterbox of [preprocess_image_car] puts a point of the
    original image: the image is resized by [scale] and copied into the padded
    canvas at offset ([pad_left], [pad_top]). *)
Definition to_model_space (m : scaling_meta) (b : box Z) : box Q :=
  let '(x_min, y_min, x_max, y_max) := b in
  (inject_Z x_min * scale m + inject_Z (pad_left m),
   inject_Z y_min * scale m + inject_Z (pad_top m),
   inject_Z x_max * scale m + inject_Z (pad_left m),
   inject_Z y_max * scale m + inject_Z (pad_top m))%Q.

(** Size of the resized content inside the padded canvas. *)
Definition new_width (m : scaling_meta) : Z :=
  py_round (inject_Z (original_width m) * scale m).
Definition new_height (m : scaling_meta) : Z :=
  py_round (inject_Z (original_height m) * scale m).

Definition in_span (lo len : Z) (x : Q) : Prop :=
  (inject_Z lo <= x)%Q /\ (x <= inject_Z (lo + len))%Q.

(** The corners of [b] lie in the part of the canvas that holds content. *)
Definition in_padded_content (m : scaling_meta) (b : box Q) : Prop :=
  let '(x_min, y_min, x_max, y_max) := b in
  in_span (pad_left m) (new_width m) x_min /\
  in_span (pad_top m) (new_height m) y_min /\
  in_span (pad_left m) (new_width m) x_max /\
  in_span (pad_top m) (new_height m) y_max.

(** [x'] is [x] moved down by less than [eps]. *)
Definition close_below (eps x' x : Q) : Prop :=
  (x' <= x)%Q /\ (x - x' < eps)%Q.

Definition box_close_below (eps : Q) (b' b : box Q) : Prop :=
  let '(x_min', y_min', x_max', y_max') := b' in
  let '(x_min, y_min, x_max, y_max) := b in
  close_below eps x_min' x_min /\ close_below eps y_min' y_min /\
  close_below eps x_max' x_max /\ close_below eps y_max' y_max.

(** Reference mapping, then the letterbox mapping of the same context. *)
Definition round_trip_within (eps : Q) (m : scaling_meta) (b : box Q) : Prop :=
  exists r : box Z,
    Helpers.scale_coords_car b m = Ok r /\
    box_close_below eps (to_model_space m r) b.

(** ** Statements about the pipelines *)

(** The layouts the assembly knows. *)
Definition known_patterns : list (list string) :=
  [["num"; "tun"; "num"]; ["num"; "tun"]; ["tun"; "num"]].

(** A detector row that stays under the threshold of the document pipeline. *)
Definition below_cin_threshold (row : raw_detection) : Prop :=
  (snd row < CinExtractionServicer.CONFIDENCE_THRESHOLD)%Q.



(** One of the three fields of a response holds text. *)
Definition some_field_extracted (r : CinExtractionServicer.CinResponse) : Prop :=
  CinExtractionServicer.id_number r <> "" \/
  CinExtractionServicer.name r <> "" \/
  CinExtractionServicer.lastname r <> "".

(** An instance of the collaborators for examples: an image is its shape,
    slicing follows the rules of array slices, no contour is ever found. *)
Definition shape_only : imaging (Z * Z) unit :=
  {| shape := fun img => img;
     slice := fun img b =>
       let '(h, w) := img in
       let '(x1, y1, x2, y2) := b in
       (slice_len h y1 y2, slice_len w x1 x2);
     find_contours := fun _ => Ok [];
     contourArea := fun _ => Ok 0%Q;
     rect_angle := fun _ => Ok 0%Q;
     warp := fun img _ => Ok img |}.

(** The cases in which the rotation step is to hand its input back: no
    image, an empty image, no contour, an angle inside the dead zone, or an
    exception anywhere in the body. *)
Inductive keeps_input {Image Contour : Type} (im : imaging Image Contour)
  : option Image -> Prop :=
  | keep_none : keeps_input im None
  | keep_empty (img : Image) :
      img_size im img = 0 -> keeps_input im (Some img)
  | keep_no_contours (img : Image) :
      find_contours im img = Ok [] -> keeps_input im (Some img)
  | keep_small_angle (img : Image) (c0 c : Contour) (cs : list Contour)
      (angle : Q) :
      find_contours im img = Ok (c0 :: cs) ->
      max_by (contourArea im) c0 cs = Ok c ->
      rect_angle im c = Ok angle ->
      (Qabs (normalize_angle angle) < 2)%Q ->
      keeps_input im (Some img)
  | keep_exception (plate_img : option Image) (e : exn) :
      Helpers.rotation_body im plate_img = Raise e ->
      keeps_input im plate_img.

(** The sum of a list of confidences. *)
Definition Qsum (l : list Q) : Q := foldr Qplus 0%Q l.

(** The box of a car-model row in the frame, as stage 1 computes it. *)
Definition stage1_box (m : scaling_meta) (d : raw_detection) : result (box Z) :=
  PlateDetectionServicer.scale_coords_car
    (box_map (fun v => inject_Z (py_int v)) (fst d)) m.

(** The crop of a row that passes the three tests of stage 1: confidence
    above the threshold, a valid mapped box, a non-empty crop. *)
Definition stage1_candidate {Image Contour : Type} (im : imaging Image Contour)
    (m : scaling_meta) (image_bgr : Image) (d : raw_detection) : option Image :=
  if Qltb PlateDetectionServicer.CAR_CONFIDENCE_THRESHOLD (snd d) then
    match stage1_box m d with
    | Ok b =>
        if box_valid b && (0 <? img_size im (slice im image_bgr b))
        then Some (slice im image_bgr b)
        else None
    | Raise _ => None
    end
  else None.

(** [x1 < x2] and [y1 < y2] for an entry of [relevant_detections]. *)
Definition detection_valid (d : PlateDetectionServicer.detection) : Prop :=
  PlateDetectionServicer.d_x1 d < PlateDetectionServicer.d_x2 d /\
  PlateDetectionServicer.d_y1 d < PlateDetectionServicer.d_y2 d.

(** ** Statements about the stages of the plate pipeline *)

(** What one stage-2 row contributes to [relevant_detections], given its
    label: the detection it becomes when it passes the threshold, the
    allow-list and the validity test, and nothing otherwise. *)
Definition stage2_keep (class_map : gmap Z string) (m : scaling_meta)
    (labelled : Q * raw_detection) : option PlateDetectionServicer.detection :=
  let '(label, (coords, confidence)) := labelled in
  let class_name :=
    PlateDetectionServicer.resolve_class_name class_map (py_int label) in
  if Qleb PlateDetectionServicer.PLATE_CONFIDENCE_THRESHOLD confidence
     && bool_decide (class_name ∈ ["num"; "tun"])
  then
    match PlateDetectionServicer.scale_coords_plate coords m with
    | Ok (x1, y1, x2, y2) =>
        if (x1 <? x2) && (y1 <? y2)
        then Some (PlateDetectionServicer.Detection x1 y1 x2 y2 class_name
                     confidence None)
        else None
    | Raise _ => None
    end
  else None.

(** Ascending horizontal position. *)
Definition x1_le (d e : PlateDetectionServicer.detection) : Prop :=
  PlateDetectionServicer.d_x1 d <= PlateDetectionServicer.d_x1 e.

(** The part of the plate crop read for a detection: its box widened by
    two pixels and cut at the edges of the crop. *)
Definition ocr_margin_box (crop_h crop_w : Z)
    (det : PlateDetectionServicer.detection) : box Z :=
  (Z.max 0 (PlateDetectionServicer.d_x1 det - 2),
   Z.max 0 (PlateDetectionServicer.d_y1 det - 2),
   Z.min crop_w (PlateDetectionServicer.d_x2 det + 2),
   Z.min crop_h (PlateDetectionServicer.d_y2 det + 2)).

(** No whitespace other than the blank occurs in [s]. *)
Fixpoint blank_only (s : string) : bool :=
  match s with
  | EmptyString => true
  | String c s' => (negb (py_isspace c) || Ascii.eqb c " ") && blank_only s'
  end.

(** A recognised number: not empty, no blank, none of the failure marks. *)
Definition clean_number (t : string) : Prop :=
  nonempty t = true /\ contains " " t = false /\
  contains "[OCR" t = false /\ contains "[NO" t = false.

(** The two shapes of a plate string reported without error. *)
Definition plate_format (plate : string) : Prop :=
  (exists t1 t2, plate = t1 +:+ " TN " +:+ t2 /\ clean_number t1 /\ clean_number t2)
  \/ (exists t, plate = "RS " +:+ t /\ clean_number t).

(** An instance of the collaborators for examples of rotation: an image
    is its shape and the rotation applied so far; one contour is always
    found, at 80 degrees. *)
Definition tilted : imaging (Z * Z * Q) unit :=
  {| shape := fun img => fst img;
     slice := fun img b =>
       let '(h, w, r) := img in
       let '(x1, y1, x2, y2) := b in
       (slice_len h y1 y2, slice_len w x1 x2, r);
     find_contours := fun _ => Ok [tt];
     contourArea := fun _ => Ok 1%Q;
     rect_angle := fun _ => Ok 80%Q;
     warp := fun img angle => let '(h, w, r) := img in Ok (h, w, (r + angle)%Q) |}.

(** ** Statements about the document fields *)

(** The field of a response filled from the detections of a class name, with
    its confidence. *)
Definition cin_field (r : CinExtractionServicer.CinResponse) (field : string)
  : option (string * Q) :=
  if String.eqb field "id"
  then Some (CinExtractionServicer.id_number r, CinExtractionServicer.confidence_id r)
  else if String.eqb field "name"
  then Some (CinExtractionServicer.name r, CinExtractionServicer.confidence_name r)
  else if String.eqb field "lastname"
  then Some (CinExtractionServicer.lastname r,
             CinExtractionServicer.confidence_lastname r)
  else None.

(** What a non-empty reading of a crop leaves in a field: the texts, each
    followed by a blank, concatenated and stripped; and the mean of their
    confidences. *)
Definition reading_of (parts : list (string * Q)) (text : string) (conf : Q)
  : Prop :=
  parts <> [] /\
  text = strip (foldr (fun p rest => fst p +:+ " " +:+ rest) "" parts) /\
  (conf == Qsum (map snd parts) / inject_Z (Z.of_nat (length parts)))%Q.

(** * Properties *)

(** ** Arithmetic facts *)

Lemma Qltb_lt (a b : Q) : Qltb a b = true <-> (a < b)%Q.
Proof. unfold Qltb, Qlt. apply Z.ltb_lt. Qed.

Lemma Qltb_ge (a b : Q) : Qltb a b = false <-> (b <= a)%Q.
Proof. unfold Qltb, Qle. apply Z.ltb_ge. Qed.

Lemma Qeqb_eq (a b : Q) : Qeqb a b = true <-> (a == b)%Q.
Proof. unfold Qeqb, Qeq. apply Z.eqb_eq. Qed.

Lemma Qeqb_neq (a b : Q) : Qeqb a b = false <-> ~ (a == b)%Q.
Proof. unfold Qeqb, Qeq. apply Z.eqb_neq. Qed.

Lemma py_truediv_ok (a b : Q) : ~ (b == 0)%Q -> py_truediv a b = Ok (a / b)%Q.
Proof.
  intros Hb. unfold py_truediv.
  apply Qeqb_neq in Hb. now rewrite Hb.
Qed.

Lemma py_max_lower (a b : Q) : (a <= py_max a b)%Q.
Proof.
  unfold py_max. destruct (Qltb a b) eqn:E.
  - apply Qltb_lt in E. now apply Qlt_le_weak.
  - apply Qle_refl.
Qed.


Lemma py_min_upper_r (a b : Q) : (py_min a b <= b)%Q.
Proof.
  unfold py_min. destruct (Qltb b a) eqn:E.
  - apply Qle_refl.
  - now apply Qltb_ge in E.
Qed.

Lemma py_max_cases (a b : Q) :
  ((a < b)%Q /\ py_max a b = b) \/ ((b <= a)%Q /\ py_max a b = a).
Proof.
  unfold py_max. destruct (Qltb a b) eqn:E.
  - left. split; [now apply Qltb_lt | reflexivity].
  - right. split; [now apply Qltb_ge | reflexivity].
Qed.

Lemma py_min_cases (a b : Q) :
  ((b < a)%Q /\ py_min a b = b) \/ ((a <= b)%Q /\ py_min a b = a).
Proof.
  unfold py_min. destruct (Qltb b a) eqn:E.
  - left. split; [now apply Qltb_lt | reflexivity].
  - right. split; [now apply Qltb_ge | reflexivity].
Qed.

(** Truncation is monotone and fixes the integers. *)
Lemma py_int_inject (z : Z) : py_int (inject_Z z) = z.
Proof. unfold py_int. simpl. apply Z.quot_1_r. Qed.

Lemma py_int_mono (a b : Q) : (a <= b)%Q -> py_int a <= py_int b.
Proof.
  destruct a as [n1 d1], b as [n2 d2]. unfold Qle, py_int. simpl. intros H.
  rewrite <- (Z.quot_mul_cancel_r n1 (Z.pos d1) (Z.pos d2)) by lia.
  rewrite <- (Z.quot_mul_cancel_r n2 (Z.pos d2) (Z.pos d1)) by lia.
  rewrite (Z.mul_comm (Z.pos d2) (Z.pos d1)).
  apply Z.quot_le_mono; lia.
Qed.

Lemma py_int_floor (q : Q) : (0 <= q)%Q -> py_int q = Qfloor q.
Proof.
  destruct q as [n d]. unfold Qle, py_int. simpl. intros H.
  apply Z.quot_div_nonneg; lia.
Qed.

Lemma py_int_nonneg (q : Q) : (0 <= q)%Q -> 0 <= py_int q.
Proof. intros H. rewrite <- (py_int_inject 0). now apply py_int_mono. Qed.

Lemma py_int_below (q : Q) : (0 <= q)%Q -> (inject_Z (py_int q) <= q)%Q.
Proof. intros H. rewrite py_int_floor by assumption. apply Qfloor_le. Qed.

Lemma py_int_above (q : Q) : (0 <= q)%Q -> (q < inject_Z (py_int q) + 1)%Q.
Proof.
  intros H. rewrite py_int_floor by assumption.
  apply Qlt_le_trans with (inject_Z (Qfloor q + 1)).
  - apply Qlt_floor.
  - rewrite inject_Z_plus. apply Qle_refl.
Qed.

Lemma py_round_upper (q : Q) : (inject_Z (py_round q) <= q + (1 # 2))%Q.
Proof.
  unfold py_round.
  pose proof (Qfloor_le q) as Hlo.
  destruct (q - inject_Z (Qfloor q) ?= 1 # 2)%Q eqn:E.
  - apply Qeq_alt in E.
    destruct (Z.even (Qfloor q)); [lra |].
    rewrite inject_Z_plus. change (inject_Z 1) with 1%Q. lra.
  - lra.
  - apply Qgt_alt in E. rewrite inject_Z_plus. change (inject_Z 1) with 1%Q. lra.
Qed.

(** ** The zero-scale guard *)

Lemma py_truediv_zero (a b : Q) :
  (b == 0)%Q -> py_truediv a b = Raise (ZeroDivisionError "division by zero").
Proof. intros Hb. unfold py_truediv. apply Qeqb_eq in Hb. now rewrite Hb. Qed.

(** C2: with a scaling context whose scale is zero, the module-level
    [scale_coords_car] and the methods [scale_coords_car] and
    [scale_coords_plate] all return the degenerate box (0, 0, 0, 0); they
    return normally, so the division that would fail is never reached. *)
Theorem scale_zero_gives_degenerate_box (b : box Q) (m : scaling_meta) :
  (scale m == 0)%Q ->
  Helpers.scale_coords_car b m = Ok (0, 0, 0, 0) /\
  PlateDetectionServicer.scale_coords_car b m = Ok (0, 0, 0, 0) /\
  PlateDetectionServicer.scale_coords_plate b m = Ok (0, 0, 0, 0).
Proof.
  intros Hz. apply Qeqb_eq in Hz.
  destruct b as [[[x_min y_min] x_max] y_max].
  unfold Helpers.scale_coords_car, PlateDetectionServicer.scale_coords_car,
    PlateDetectionServicer.scale_coords_plate.
  rewrite Hz. repeat split; reflexivity.
Qed.

Lemma scale_zero_gives_degenerate_box_witness :
  let m := ScalingMeta 480 640 0 80 0 in
  let b : box Q := (12, 34, 56, 78)%Q in
  (scale m == 0)%Q /\
  Helpers.scale_coords_car b m = Ok (0, 0, 0, 0) /\
  PlateDetectionServicer.scale_coords_car b m = Ok (0, 0, 0, 0) /\
  PlateDetectionServicer.scale_coords_plate b m = Ok (0, 0, 0, 0).
Proof.
  intros m b. split; [reflexivity |].
  apply (scale_zero_gives_degenerate_box b m). reflexivity.
Defined.

(** ** Clipping of mapped boxes *)








(** ** Round trip through the reference frame *)

Lemma round_trip_coord (s : Q) (p w : Z) (x : Q) :
  (0 < s)%Q ->
  in_span p (py_round (inject_Z w * s)) x ->
  close_below (py_max 1 s)
    (inject_Z (py_int (py_max 0 (py_min ((x - inject_Z p) / s) (inject_Z w)))) * s
     + inject_Z p)
    x.
Proof.
  intros Hs [Hlo Hhi].
  set (u := ((x - inject_Z p) / s)%Q).
  assert (Hus : (u * s == x - inject_Z p)%Q).
  { unfold u. field. lra. }
  assert (Hu0 : (0 <= u)%Q).
  { unfold u. apply Qle_shift_div_l; [assumption | lra]. }
  clearbody u.
  pose proof (py_round_upper (inject_Z w * s)) as Hr.
  rewrite inject_Z_plus in Hhi.
  assert (Heps : (1 <= py_max 1 s)%Q /\ (s <= py_max 1 s)%Q).
  { destruct (py_max_cases 1 s) as [[H1 ->] | [H1 ->]]; lra. }
  destruct Heps as [He1 Hes].
  unfold close_below.
  destruct (py_min_cases u (inject_Z w)) as [[Hlt ->] | [Hle ->]].
  - (* the quotient exceeds the frame: clipped to [w] *)
    assert (Hws : (inject_Z w * s <= u * s)%Q).
    { apply Qmult_le_compat_r; lra. }
    destruct (py_max_cases 0 (inject_Z w)) as [[H0 ->] | [H0 ->]].
    + rewrite py_int_inject.
      generalize dependent (inject_Z w * s)%Q. intros ws Hhi Hr Hws.
      generalize dependent (u * s)%Q. intros us Hus Hws.
      split; lra.
    + change (inject_Z (py_int 0)) with 0%Q.
      assert (Hw0 : (inject_Z w * s <= 0 * s)%Q).
      { apply Qmult_le_compat_r; lra. }
      generalize dependent (inject_Z w * s)%Q. intros ws Hhi Hr Hws Hw0.
      split; lra.
  - (* the quotient lies in the frame: truncated *)
    set (c := py_max 0 u).
    assert (Hcu : (c == u)%Q).
    { unfold c. destruct (py_max_cases 0 u) as [[H0 ->] | [H0 ->]]; lra. }
    assert (Hc0 : (0 <= c)%Q) by apply py_max_lower.
    pose proof (py_int_below c Hc0) as Hb.
    pose proof (py_int_above c Hc0) as Ha.
    clearbody c.
    assert (Hbs : (inject_Z (py_int c) * s <= u * s)%Q).
    { apply Qmult_le_compat_r; lra. }
    assert (Has : (u * s <= (inject_Z (py_int c) + 1) * s)%Q).
    { apply Qmult_le_compat_r; lra. }
    assert (Hne : ~ (u * s == (inject_Z (py_int c) + 1) * s)%Q).
    { intros Heq. apply Qmult_inj_r in Heq; lra. }
    assert (Hexp : ((inject_Z (py_int c) + 1) * s == inject_Z (py_int c) * s + s)%Q)
      by ring.
    generalize dependent (inject_Z (py_int c) * s)%Q. intros cs Hbs Hexp.
    generalize dependent ((inject_Z (py_int c) + 1) * s)%Q. intros cs1 Has Hne Hexp.
    generalize dependent (u * s)%Q. intros us Hus Hbs Has Hne.
    split; lra.
Qed.

Lemma helper_scale_coords_car_ok (b : box Q) (m : scaling_meta) :
  (0 < scale m)%Q ->
  let '(x_min, y_min, x_max, y_max) := b in
  let ref (x : Q) (pad dim : Z) :=
    py_int (py_max 0 (py_min ((x - inject_Z pad) / scale m) (inject_Z dim))) in
  Helpers.scale_coords_car b m =
    Ok (ref x_min (pad_left m) (original_width m),
        ref y_min (pad_top m) (original_height m),
        ref x_max (pad_left m) (original_width m),
        ref y_max (pad_top m) (original_height m)).
Proof.
  intros Hs. destruct b as [[[x_min y_min] x_max] y_max].
  unfold Helpers.scale_coords_car.
  assert (Hne : ~ (scale m == 0)%Q) by lra.
  pose proof Hne as Hb. apply Qeqb_neq in Hb. rewrite Hb.
  rewrite !py_truediv_ok by assumption. reflexivity.
Qed.

(** C1 (amended): for a positive scale and a box whose corners lie in the
    padded-content region, the module-level [scale_coords_car] followed by the
    letterbox mapping of the same context moves no coordinate up, and moves
    each one down by less than [max(1, scale)]: by less than one unit whenever
    [scale <= 1]. *)
Theorem round_trip_error_bounded (m : scaling_meta) (b : box Q) :
  (0 < scale m)%Q ->
  in_padded_content m b ->
  round_trip_within (py_max 1 (scale m)) m b /\
  ((scale m <= 1)%Q -> round_trip_within 1 m b).
Proof.
  intros Hs Hin.
  assert (Hgen : round_trip_within (py_max 1 (scale m)) m b).
  { pose proof (helper_scale_coords_car_ok b m Hs) as Hok.
    destruct b as [[[x_min y_min] x_max] y_max].
    destruct Hin as (Hx1 & Hy1 & Hx2 & Hy2).
    eexists. split; [exact Hok |].
    unfold to_model_space, box_close_below.
    repeat split; apply round_trip_coord; assumption. }
  split; [exact Hgen |].
  intros Hle.
  assert (Hmax : py_max 1 (scale m) = 1%Q).
  { unfold py_max. destruct (Qltb 1 (scale m)) eqn:E; [| reflexivity].
    apply Qltb_lt in E. lra. }
  now rewrite Hmax in Hgen.
Qed.

Lemma round_trip_error_bounded_witness :
  let m := ScalingMeta 1280 1280 (640 # 1280) 0 0 in
  let b : box Q := (101, 11, 301, 21)%Q in
  Helpers.preprocess_image_car 1280 1280 640 640 = Ok m /\
  in_padded_content m b /\
  round_trip_within 1 m b.
Proof.
  intros m b.
  assert (Hs : (0 < scale m)%Q) by reflexivity.
  assert (Hin : in_padded_content m b).
  { unfold in_padded_content, in_span. vm_compute. intuition discriminate. }
  split; [reflexivity |]. split; [exact Hin |].
  apply (proj2 (round_trip_error_bounded m b Hs Hin)).
  vm_compute. discriminate.
Defined.

(** A 64 x 64 frame is letterboxed with scale 10: a box at model coordinates
    (9, 9, 19, 19) maps to the reference box (0, 0, 1, 1), whose letterbox image
    is (0, 0, 10, 10), nine units away. *)
Lemma round_trip_off_by_nine :
  let m := ScalingMeta 64 64 (640 # 64) 0 0 in
  let b : box Q := (9, 9, 19, 19)%Q in
  Helpers.preprocess_image_car 64 64 640 640 = Ok m /\
  (0 < scale m)%Q /\
  in_padded_content m b /\
  Helpers.scale_coords_car b m = Ok (0, 0, 1, 1) /\
  ~ round_trip_within 1 m b.
Proof.
  intros m b. split; [reflexivity |]. split; [reflexivity |]. split.
  { unfold in_padded_content, in_span. vm_compute. intuition discriminate. }
  split; [reflexivity |].
  intros (r & Hr & Hclose).
  assert (Hr' : Helpers.scale_coords_car b m = Ok (0, 0, 1, 1)) by reflexivity.
  rewrite Hr' in Hr. injection Hr as <-.
  destruct Hclose as ((_ & Hlt) & _).
  vm_compute in Hlt. discriminate.
Qed.

(** In the other order the trip is exact: a reference box inside the frame,
    sent to the canvas and mapped back, is returned unchanged. *)
Lemma py_int_comp (a b : Q) : (a == b)%Q -> py_int a = py_int b.
Proof.
  intros H. apply Z.le_antisymm; apply py_int_mono; rewrite H; apply Qle_refl.
Qed.

Lemma reference_coord_exact (s : Q) (p w r : Z) :
  (0 < s)%Q -> 0 <= r <= w ->
  py_int (py_max 0 (py_min ((inject_Z r * s + inject_Z p - inject_Z p) / s) (inject_Z w)))
  = r.
Proof.
  intros Hs [Hr0 Hrw].
  rewrite <- (py_int_inject r) at 2. apply py_int_comp.
  assert (Hu : ((inject_Z r * s + inject_Z p - inject_Z p) / s == inject_Z r)%Q).
  { field. lra. }
  assert (H0 : (inject_Z 0 <= inject_Z r)%Q) by (rewrite <- Zle_Qle; exact Hr0).
  change (inject_Z 0) with 0%Q in H0.
  assert (Hw : (inject_Z r <= inject_Z w)%Q) by (rewrite <- Zle_Qle; exact Hrw).
  generalize dependent ((inject_Z r * s + inject_Z p - inject_Z p) / s)%Q.
  intros u Hu.
  destruct (py_min_cases u (inject_Z w)) as [[H1 ->] | [H1 ->]];
    [destruct (py_max_cases 0 (inject_Z w)) as [[H2 ->] | [H2 ->]]
    | destruct (py_max_cases 0 u) as [[H2 ->] | [H2 ->]]]; lra.
Qed.

(** On exact numbers the module-level [scale_coords_car] inverts the
    letterbox placement: a box of the frame, placed on the canvas by a
    context of positive scale and mapped back, is returned unchanged.  (In
    binary floating point the quotient can fall just below the integer, and
    the truncation then returns one less.) *)
Lemma model_round_trip_exact (m : scaling_meta) (r : box Z) :
  (0 < scale m)%Q ->
  within_frame (original_height m) (original_width m) r ->
  Helpers.scale_coords_car (to_model_space m r) m = Ok r.
Proof.
  intros Hs Hin.
  pose proof (helper_scale_coords_car_ok (to_model_space m r) m Hs) as Hok.
  destruct r as [[[x_min y_min] x_max] y_max].
  destruct Hin as (Hx1 & Hy1 & Hx2 & Hy2).
  unfold to_model_space in *. rewrite Hok.
  rewrite !reference_coord_exact by assumption. reflexivity.
Qed.

(** ** Class names of unknown ids *)

(** C9 (amended): a class id absent from the label map resolves, without
    failing, to a placeholder that embeds the id in decimal:
    "unknown_id_<id>" in the document pipeline and "Label_<id>" in the plate
    pipeline. *)
Theorem absent_class_id_gets_placeholder (class_map : gmap Z string) (id : Z) :
  class_map !! id = None ->
  CinExtractionServicer.resolve_class_name class_map id
    = "unknown_id_" +:+ pretty id /\
  PlateDetectionServicer.resolve_class_name class_map id
    = "Label_" +:+ pretty id.
Proof.
  intros Habsent.
  unfold CinExtractionServicer.resolve_class_name,
    PlateDetectionServicer.resolve_class_name.
  rewrite Habsent. simpl. split; reflexivity.
Qed.

Lemma absent_class_id_gets_placeholder_witness :
  let class_map : gmap Z string := <[0 := "num"]> (<[1 := "tun"]> ∅) in
  class_map !! 7 = None /\
  CinExtractionServicer.resolve_class_name class_map 7 = "unknown_id_7" /\
  PlateDetectionServicer.resolve_class_name class_map 7 = "Label_7".
Proof.
  intros class_map.
  assert (Habsent : class_map !! 7 = None) by reflexivity.
  split; [exact Habsent |].
  exact (absent_class_id_gets_placeholder class_map 7 Habsent).
Defined.

(** Neither pipeline produces the label "unknown_7" for the absent id 7. *)
Lemma placeholder_is_not_unknown_id :
  let class_map : gmap Z string := <[0 := "num"]> (<[1 := "tun"]> ∅) in
  class_map !! 7 = None /\
  CinExtractionServicer.resolve_class_name class_map 7 = "unknown_id_7" /\
  PlateDetectionServicer.resolve_class_name class_map 7 = "Label_7" /\
  CinExtractionServicer.resolve_class_name class_map 7 <> "unknown_7" /\
  PlateDetectionServicer.resolve_class_name class_map 7 <> "unknown_7".
Proof.
  intros class_map. repeat split; discriminate.
Qed.

(** A present id resolves to its name in both pipelines. *)
Lemma present_class_id_gets_name (class_map : gmap Z string) (id : Z) (n : string) :
  class_map !! id = Some n ->
  CinExtractionServicer.resolve_class_name class_map id = n /\
  PlateDetectionServicer.resolve_class_name class_map id = n.
Proof.
  intros Hpresent.
  unfold CinExtractionServicer.resolve_class_name,
    PlateDetectionServicer.resolve_class_name.
  rewrite Hpresent. split; reflexivity.
Qed.

(** ** Assembly *)

Import PlateDetectionServicer.

Lemma assemble_unrecognized (sorted_detections : list detection) (c : Q) :
  map d_class_name sorted_detections ∉ known_patterns ->
  assemble sorted_detections c =
    Ok ("Pattern Error", c,
        Some ("Unrecognized plate pattern: "
              +:+ repr_list (map d_class_name sorted_detections))).
Proof.
  intros Hnot. unfold assemble.
  repeat case_bool_decide; try reflexivity;
    exfalso; apply Hnot;
    match goal with H : map _ _ = _ |- _ => rewrite H end;
    unfold known_patterns; repeat constructor.
Qed.

(** Inside [_perform_detection] an empty [relevant_detections] ends the call
    before the assembly. *)
Lemma after_stage2_empty {Image Contour : Type} (im : imaging Image Contour)
    (readtext : Image -> result (list string)) (corrected_plate_crop : Image)
    (max_confidence_stage1 avg : Q) (n : Z) :
  after_stage2 im readtext corrected_plate_crop max_confidence_stage1 ([], avg, n)
  = Ok ("", max_confidence_stage1, Some "No characters detected in Stage 2").
Proof. reflexivity. Qed.

Lemma ocr_detection_class {Image Contour : Type} (im : imaging Image Contour)
    (readtext : Image -> result (list string)) (corrected_plate_crop : Image)
    (det : detection) :
  d_class_name (ocr_detection im readtext corrected_plate_crop det)
  = d_class_name det.
Proof.
  unfold ocr_detection. case_bool_decide; [| reflexivity].
  destruct (shape im corrected_plate_crop) as [crop_h crop_w].
  destruct (_ || _); [reflexivity |].
  destruct (readtext _); reflexivity.
Qed.

Lemma ocr_keeps_sequence {Image Contour : Type} (im : imaging Image Contour)
    (readtext : Image -> result (list string)) (corrected_plate_crop : Image)
    (l : list detection) :
  map d_class_name (map (ocr_detection im readtext corrected_plate_crop) l)
  = map d_class_name l.
Proof.
  induction l as [| d l IH]; [reflexivity |].
  cbn [map]. now rewrite ocr_detection_class, IH.
Qed.

Section AssemblyGuard.
Context {Image Contour : Type} (im : imaging Image Contour).
Variable readtext : Image -> result (list string).
Variable car_model : Image -> result (list raw_detection + string).
Variable plate_model : Image -> result (list raw_detection * list Q).
Variable class_map : gmap Z string.
Variables plate_target_height plate_target_width : Z.

(** C6 (amended): in a call of [_perform_detection] that reaches the end of
    stage 2 with the retained detections [rel], an empty [rel] ends the call
    before the assembly: [DetectPlate] answers, without raising, an
    unsuccessful response with an empty plate string, the stage-1 confidence
    and "No characters detected in Stage 2".  The assembly is only handed
    non-empty lists; when the class names of [rel], in ascending [x1], match
    none of the three layouts, [DetectPlate] answers, without raising, an
    unsuccessful response with the plate string "Pattern Error" and the
    diagnostic "Unrecognized plate pattern: " followed by that sequence. *)
Theorem empty_detections_stop_before_assembly
    (image_bgr best : Image) (img_h img_w crop_h crop_w : Z)
    (m_car m_plate : scaling_meta) (detections : list raw_detection) (c1 : Q)
    (corrected : option Image) (output_dets_plate : list raw_detection)
    (labels : list Q) (rel : list detection) (avg : Q) (n : Z) :
  shape im image_bgr = (img_h, img_w) ->
  preprocess_image_car img_h img_w CAR_INPUT_HEIGHT CAR_INPUT_WIDTH = Ok m_car ->
  car_model image_bgr = Ok (inl detections) ->
  stage1 im m_car image_bgr detections = Ok (Some best, c1) ->
  detect_and_correct_rotation im (Some best) = Ok corrected ->
  shape im (usable_crop im best corrected) = (crop_h, crop_w) ->
  preprocess_image_plate crop_h crop_w plate_target_height plate_target_width
    = Ok m_plate ->
  plate_model (usable_crop im best corrected) = Ok (output_dets_plate, labels) ->
  stage2 class_map output_dets_plate labels m_plate = Ok (rel, avg, n) ->
  let sequence := map d_class_name (sorted_by_x1 rel) in
  (rel = [] ->
   DetectPlate im readtext car_model plate_model class_map
     plate_target_height plate_target_width (Some image_bgr)
   = Ok {| success := false; plate_number := ""; confidence := c1;
           error_message := "No characters detected in Stage 2" |}) /\
  (rel <> [] -> sequence ∉ known_patterns ->
   DetectPlate im readtext car_model plate_model class_map
     plate_target_height plate_target_width (Some image_bgr)
   = Ok {| success := false; plate_number := "Pattern Error";
           confidence := aggregate_confidence c1 avg n;
           error_message :=
             "Unrecognized plate pattern: " +:+ repr_list sequence |}).
Proof.
  intros Hshape Hcar_meta Hcar Hstage1 Hrot Hcrop Hplate_meta Hplate Hstage2
    sequence.
  unfold DetectPlate, perform_detection.
  rewrite Hshape, Hcar_meta. cbn [rbind].
  rewrite Hcar. cbn [rbind].
  rewrite Hstage1. cbn [rbind].
  rewrite Hrot. cbn [rbind].
  rewrite Hcrop, Hplate_meta. cbn [rbind].
  rewrite Hplate. cbn [rbind].
  rewrite Hstage2. cbn [rbind].
  split.
  - intros ->. reflexivity.
  - intros Hnonempty Hunknown.
    destruct rel as [| d rel]; [congruence |].
    unfold after_stage2.
    rewrite assemble_unrecognized
      by (rewrite ocr_keeps_sequence; exact Hunknown).
    rewrite ocr_keeps_sequence. reflexivity.
Qed.

End AssemblyGuard.

Lemma empty_detections_stop_before_assembly_witness :
  let class_map : gmap Z string := <[0 := "num"]> (<[1 := "tun"]> ∅) in
  let car_model : Z * Z -> result (list raw_detection + string) :=
    fun _ => Ok (inl [((100, 100, 300, 200)%Q, 9 # 10)]) in
  let silent : Z * Z -> result (list raw_detection * list Q) :=
    fun _ => Ok ([((10, 170, 200, 300)%Q, 3 # 10)], [0]%Q) in
  let lone : Z * Z -> result (list raw_detection * list Q) :=
    fun _ => Ok ([((10, 170, 200, 300)%Q, 9 # 10)], [0]%Q) in
  let readtext : Z * Z -> result (list string) := fun _ => Ok ["12"] in
  DetectPlate shape_only readtext car_model silent class_map 640 640
    (Some (1280, 1280))
  = Ok {| success := false; plate_number := ""; confidence := 9 # 10;
          error_message := "No characters detected in Stage 2" |} /\
  exists conf,
    DetectPlate shape_only readtext car_model lone class_map 640 640
      (Some (1280, 1280))
    = Ok {| success := false; plate_number := "Pattern Error";
            confidence := conf;
            error_message := "Unrecognized plate pattern: ['num']" |}.
Proof.
  intros class_map car_model silent lone readtext.
  pose proof (empty_detections_stop_before_assembly shape_only readtext
                car_model silent class_map 640 640
                (1280, 1280) (200, 400) 1280 1280 200 400
                (ScalingMeta 1280 1280 (640 # 1280) 0 0)
                (ScalingMeta 200 400 (640 # 400) 160 0)
                [((100, 100, 300, 200)%Q, 9 # 10)] (9 # 10) (Some (200, 400))
                [((10, 170, 200, 300)%Q, 3 # 10)] [0]%Q [] 0%Q 0
                eq_refl eq_refl eq_refl eq_refl eq_refl eq_refl eq_refl eq_refl
                eq_refl) as [Hempty _].
  pose proof (empty_detections_stop_before_assembly shape_only readtext
                car_model lone class_map 640 640
                (1280, 1280) (200, 400) 1280 1280 200 400
                (ScalingMeta 1280 1280 (640 # 1280) 0 0)
                (ScalingMeta 200 400 (640 # 400) 160 0)
                [((100, 100, 300, 200)%Q, 9 # 10)] (9 # 10) (Some (200, 400))
                [((10, 170, 200, 300)%Q, 9 # 10)] [0]%Q
                [Detection 6 6 125 87 "num" (9 # 10) None] (0 + (9 # 10))%Q 1
                eq_refl eq_refl eq_refl eq_refl eq_refl eq_refl eq_refl eq_refl
                eq_refl) as [_ Hlone].
  split; [exact (Hempty eq_refl) |].
  eexists. apply Hlone; [discriminate |].
  unfold known_patterns. cbn.
  intros Hin. repeat (apply elem_of_cons in Hin as [Hin | Hin]; [discriminate |]).
  inversion Hin.
Defined.

(** With no character retained the pipeline's answer is the stage-2 failure,
    not the unrecognised-pattern result. *)
Lemma empty_detections_skip_assembly :
  let class_map : gmap Z string := <[0 := "num"]> (<[1 := "tun"]> ∅) in
  let car_model : Z * Z -> result (list raw_detection + string) :=
    fun _ => Ok (inl [((100, 100, 300, 200)%Q, 9 # 10)]) in
  let plate_model : Z * Z -> result (list raw_detection * list Q) :=
    fun _ => Ok ([], []) in
  let readtext : Z * Z -> result (list string) := fun _ => Ok ["12"] in
  stage2 class_map [] [] (ScalingMeta 200 400 (640 # 400) 160 0) = Ok ([], 0%Q, 0) /\
  perform_detection shape_only readtext car_model plate_model class_map 640 640
    (Some (1280, 1280))
  = Ok ("", 9 # 10, Some "No characters detected in Stage 2") /\
  perform_detection shape_only readtext car_model plate_model class_map 640 640
    (Some (1280, 1280))
  <> Ok ("Pattern Error", 9 # 10, Some "Unrecognized plate pattern: []").
Proof.
  intros class_map car_model plate_model readtext.
  split; [reflexivity |].
  assert (Hrun : perform_detection shape_only readtext car_model plate_model
                   class_map 640 640 (Some (1280, 1280))
                 = Ok ("", 9 # 10, Some "No characters detected in Stage 2"))
    by reflexivity.
  split; [exact Hrun |]. rewrite Hrun. discriminate.
Qed.

(** ** Outcome of the document extraction *)

Lemma for_each_cons {St X : Type} (step : St -> X -> result St) (x : X)
    (xs : list X) (st : St) :
  for_each step (x :: xs) st = rbind (step st x) (for_each step xs).
Proof. reflexivity. Qed.

Lemma nonempty_true (s : string) : nonempty s = true <-> s <> "".
Proof. destruct s; simpl; split; intros H; congruence. Qed.

Lemma Qleb_le (a b : Q) : Qleb a b = true <-> (a <= b)%Q.
Proof. unfold Qleb, Qle. apply Z.leb_le. Qed.

Lemma Qleb_gt (a b : Q) : Qleb a b = false <-> (b < a)%Q.
Proof. unfold Qleb, Qlt. apply Z.leb_gt. Qed.

Lemma cin_collect_loop_none_pass (class_id_to_name : gmap Z string)
    (labels : list Q) (orig_h orig_w : Z) (s : Q) (pt pl : Z)
    (rows : list raw_detection) (start : nat)
    (acc : list CinExtractionServicer.detection) :
  Forall below_cin_threshold rows ->
  for_each (CinExtractionServicer.collect_step class_id_to_name labels
              orig_h orig_w s pt pl)
    (zip (seq start (length rows)) rows) acc = Ok acc.
Proof.
  intros Hall. revert start acc.
  induction Hall as [| [coords confidence] rows Hrow _ IH]; intros start acc.
  - reflexivity.
  - simpl. unfold below_cin_threshold in Hrow. simpl in Hrow.
    apply Qleb_gt in Hrow. rewrite Hrow. simpl. apply IH.
Qed.

Lemma cin_collect_none_pass (class_id_to_name : gmap Z string)
    (output_dets : list (list raw_detection)) (output_labels : list (list Q))
    (orig_h orig_w : Z) (s : Q) (pt pl : Z) :
  Forall below_cin_threshold (concat output_dets) ->
  CinExtractionServicer.collect class_id_to_name output_dets output_labels
    orig_h orig_w s pt pl = Ok [].
Proof.
  intros Hall. unfold CinExtractionServicer.collect.
  destruct output_dets as [| rows [| ? ?]]; try reflexivity.
  destruct output_labels as [| labels [| ? ?]]; try reflexivity.
  simpl in Hall. rewrite app_nil_r in Hall.
  now apply cin_collect_loop_none_pass.
Qed.

Lemma cin_build_response_outcome
    (detections : list CinExtractionServicer.detection)
    (st : gmap string string * gmap string Q) :
  let r := CinExtractionServicer.build_response detections st in
  (CinExtractionServicer.success r = true <->
     CinExtractionServicer.id_number r <> "" \/
     CinExtractionServicer.name r <> "" \/
     CinExtractionServicer.lastname r <> "") /\
  (CinExtractionServicer.success r = false ->
     CinExtractionServicer.error_message r <> "" /\
     (detections = [] ->
      CinExtractionServicer.error_message r
        = "No relevant fields detected in the image.")).
Proof.
  destruct st as [extracted_texts ocr_confidences].
  unfold CinExtractionServicer.build_response. simpl.
  set (id := default "" (extracted_texts !! "id")).
  set (nm := default "" (extracted_texts !! "name")).
  set (ln := default "" (extracted_texts !! "lastname")).
  split.
  - rewrite !orb_true_iff, !nonempty_true. tauto.
  - intros Hfalse. rewrite Hfalse.
    destruct detections; split; try discriminate; try reflexivity.
Qed.




Lemma error_text_nonempty (e : exn) :
  CinExtractionServicer.error_text e <> "".
Proof.
  unfold CinExtractionServicer.error_text.
  destruct (exn_base_of e); discriminate.
Qed.

Lemma cin_failure_outcome (msg : string) :
  msg <> "" ->
  let r := CinExtractionServicer.failure msg in
  (CinExtractionServicer.success r = true <-> some_field_extracted r) /\
  (CinExtractionServicer.success r = false ->
     CinExtractionServicer.error_message r <> "").
Proof.
  intros Hmsg. simpl. unfold some_field_extracted. simpl. split.
  - split; [discriminate | intros [H | [H | H]]; congruence].
  - intros _. exact Hmsg.
Qed.

Lemma extract_fields_is_build_response {Image Contour : Type}
    (im : imaging Image Contour)
    (readtext : Image -> result (list (string * Q)))
    (class_id_to_name : gmap Z string)
    (image_cv : Image) (output_dets : list (list raw_detection))
    (output_labels : list (list Q)) (orig_h orig_w : Z) (s : Q) (pt pl : Z)
    (r : CinExtractionServicer.CinResponse) :
  CinExtractionServicer.extract_fields im readtext class_id_to_name image_cv
    output_dets output_labels orig_h orig_w s pt pl = Ok r ->
  exists detections st,
    CinExtractionServicer.collect class_id_to_name output_dets output_labels
      orig_h orig_w s pt pl = Ok detections /\
    for_each (CinExtractionServicer.ocr_step im readtext image_cv) detections (∅, ∅)
      = Ok st /\
    r = CinExtractionServicer.build_response detections st.
Proof.
  unfold CinExtractionServicer.extract_fields. intros Hrun.
  destruct (CinExtractionServicer.collect class_id_to_name output_dets
              output_labels orig_h orig_w s pt pl) as [detections | e] eqn:Hcollect;
    [| discriminate].
  simpl in Hrun.
  destruct (for_each (CinExtractionServicer.ocr_step im readtext image_cv)
              detections (∅, ∅)) as [st | e] eqn:Hocr; [| discriminate].
  simpl in Hrun. injection Hrun as <-.
  exists detections, st. auto.
Qed.

Section CinOutcome.
Context {Image Contour : Type} (im : imaging Image Contour).
Variable float_repr : Q -> string.
Variable readtext : Image -> result (list (string * Q)).
Variable model : Image -> result (list (list raw_detection) * list (list Q)).
Variable class_id_to_name : gmap Z string.


(** X13: [ExtractCinData] answers every request, and the flag agrees with the
    fields also when the reader or the model is missing and when a
    collaborator raises. *)
Lemma ExtractCinData_answers
    (ocr_reader : option (Image -> result (list (string * Q))))
    (compiled_model :
       option (Image -> result (list (list raw_detection) * list (list Q))))
    (decoded : option Image) :
  exists r,
    CinExtractionServicer.ExtractCinData im float_repr ocr_reader compiled_model
      class_id_to_name decoded = Ok r /\
    (CinExtractionServicer.success r = true <-> some_field_extracted r) /\
    (CinExtractionServicer.success r = false ->
       CinExtractionServicer.error_message r <> "").
Proof.
  unfold CinExtractionServicer.ExtractCinData.
  destruct ocr_reader as [reader |];
    [| eexists; split; [reflexivity | apply cin_failure_outcome; discriminate]].
  destruct compiled_model as [compiled |];
    [| eexists; split; [reflexivity | apply cin_failure_outcome; discriminate]].
  match goal with
  | |- context [try_except ?body _] => destruct body as [r | e] eqn:Hbody
  end.
  - exists r. split; [reflexivity |].
    destruct decoded as [image_cv |].
    + destruct (shape im image_cv) as [h w].
      destruct (CinExtractionServicer._preprocess_image _ _ _ _ _)
        as [[[[[orig_h orig_w] s] pt] pl] | e]; [| discriminate].
      simpl in Hbody.
      destruct (compiled image_cv) as [[output_dets output_labels] | e];
        [| discriminate].
      simpl in Hbody.
      destruct (extract_fields_is_build_response _ _ _ _ _ _ _ _ _ _ _ _ Hbody)
        as (detections & st & _ & _ & ->).
      destruct (cin_build_response_outcome detections st) as [Hiff Hfail].
      split; [exact Hiff | intros Hfalse; apply Hfail, Hfalse].
    + injection Hbody as <-. apply cin_failure_outcome. discriminate.
  - simpl. eexists. split; [reflexivity |].
    apply cin_failure_outcome, error_text_nonempty.
Qed.

End CinOutcome.


(** ** Rotation correction *)

Section RotationFacts.
Context {Image Contour : Type} (im : imaging Image Contour).

Lemma method_rotation_body_same (plate_img : option Image) :
  PlateDetectionServicer.rotation_body im plate_img
  = Helpers.rotation_body im plate_img.
Proof. reflexivity. Qed.

Lemma rotation_never_raises (plate_img : option Image) :
  exists out, Helpers.detect_and_correct_rotation im plate_img = Ok out.
Proof.
  unfold Helpers.detect_and_correct_rotation.
  destruct (Helpers.rotation_body im plate_img) as [out | e].
  - exists out. reflexivity.
  - exists plate_img. reflexivity.
Qed.

Lemma rotation_body_keeps (plate_img : option Image) :
  keeps_input im plate_img ->
  Helpers.rotation_body im plate_img = Ok plate_img \/
  exists e, Helpers.rotation_body im plate_img = Raise e.
Proof.
  intros Hkeep.
  destruct Hkeep as [| img Hsize | img Hnone | img c0 c cs angle Hfound Hmax Hangle Hsmall
                     | plate_img e Hraise].
  - left. reflexivity.
  - left. unfold Helpers.rotation_body. rewrite Hsize. reflexivity.
  - left. unfold Helpers.rotation_body.
    destruct (img_size im img =? 0); [reflexivity |].
    rewrite Hnone. reflexivity.
  - left. unfold Helpers.rotation_body.
    destruct (img_size im img =? 0); [reflexivity |].
    rewrite Hfound. simpl. rewrite Hmax. simpl. rewrite Hangle. simpl.
    apply Qltb_lt in Hsmall. unfold ANGLE_THRESHOLD. rewrite Hsmall.
    reflexivity.
  - right. exists e. exact Hraise.
Qed.

(** C7: [detect_and_correct_rotation], as a module-level function and as
    a method, never raises; and it returns its input unchanged when the input
    is [None] or empty, when no contour is found, when the normalised angle
    is below 2 degrees in absolute value, and when anything inside raises. *)
Theorem rotation_keeps_input_and_never_raises (plate_img : option Image) :
  (exists out,
     Helpers.detect_and_correct_rotation im plate_img = Ok out /\
     PlateDetectionServicer.detect_and_correct_rotation im plate_img = Ok out) /\
  (keeps_input im plate_img ->
     Helpers.detect_and_correct_rotation im plate_img = Ok plate_img /\
     PlateDetectionServicer.detect_and_correct_rotation im plate_img
       = Ok plate_img).
Proof.
  unfold PlateDetectionServicer.detect_and_correct_rotation.
  rewrite method_rotation_body_same.
  fold (Helpers.detect_and_correct_rotation im plate_img).
  split.
  - destruct (rotation_never_raises plate_img) as [out Hout].
    exists out. split; exact Hout.
  - intros Hkeep.
    assert (Hsame : Helpers.detect_and_correct_rotation im plate_img = Ok plate_img).
    { unfold Helpers.detect_and_correct_rotation.
      destruct (rotation_body_keeps plate_img Hkeep) as [-> | [e ->]]; reflexivity. }
    split; exact Hsame.
Qed.

(** Outside the dead zone the image is rotated by the normalised angle. *)
Lemma rotation_applied_when_skewed (img rotated : Image) (c0 c : Contour)
    (cs : list Contour) (angle : Q) :
  img_size im img <> 0 ->
  find_contours im img = Ok (c0 :: cs) ->
  max_by (contourArea im) c0 cs = Ok c ->
  rect_angle im c = Ok angle ->
  (2 <= Qabs (normalize_angle angle))%Q ->
  warp im img (normalize_angle angle) = Ok rotated ->
  Helpers.detect_and_correct_rotation im (Some img) = Ok (Some rotated).
Proof.
  intros Hsize Hfound Hmax Hangle Hbig Hwarp.
  unfold Helpers.detect_and_correct_rotation, Helpers.rotation_body.
  apply Z.eqb_neq in Hsize. rewrite Hsize, Hfound. simpl.
  rewrite Hmax. simpl. rewrite Hangle. simpl.
  apply Qltb_ge in Hbig. unfold ANGLE_THRESHOLD. rewrite Hbig, Hwarp.
  reflexivity.
Qed.

End RotationFacts.

Lemma normalize_angle_range (angle : Q) :
  (-90 <= angle)%Q -> (angle <= 90)%Q ->
  (-45 <= normalize_angle angle)%Q /\ (normalize_angle angle <= 45)%Q.
Proof.
  intros Hlo Hhi. unfold normalize_angle.
  destruct (Qltb angle (-45)) eqn:E1.
  - apply Qltb_lt in E1. split; lra.
  - apply Qltb_ge in E1. destruct (Qltb 45 angle) eqn:E2.
    + apply Qltb_lt in E2. split; lra.
    + apply Qltb_ge in E2. split; lra.
Qed.

(** ** Stage 1: the best single plate *)

Lemma method_scale_coords_car_total (b : box Q) (m : scaling_meta) :
  exists r, scale_coords_car b m = Ok r.
Proof.
  destruct b as [[[b0 b1] b2] b3]. unfold scale_coords_car.
  destruct (Qeqb (scale m) 0) eqn:E.
  - eexists. reflexivity.
  - apply Qeqb_neq in E. rewrite !py_truediv_ok by assumption.
    eexists. reflexivity.
Qed.

Section Stage1Facts.
Context {Image Contour : Type} (im : imaging Image Contour).
Variable m : scaling_meta.
Variable image_bgr : Image.

(** One turn of the loop, read through [stage1_candidate]. *)
Lemma stage1_step_candidate (best : option Image) (c0 : Q) (d : raw_detection) :
  stage1_step im m image_bgr (best, c0) d =
    Ok (match stage1_candidate im m image_bgr d with
        | Some crop => if Qltb c0 (snd d) then (Some crop, snd d) else (best, c0)
        | None => (best, c0)
        end).
Proof.
  destruct d as [coords confidence].
  unfold stage1_step, stage1_candidate, stage1_box. simpl.
  destruct (Qltb CAR_CONFIDENCE_THRESHOLD confidence); [| reflexivity].
  destruct (method_scale_coords_car_total
              (box_map (fun v => inject_Z (py_int v)) coords) m) as [b ->].
  simpl. destruct (box_valid b); [| reflexivity]. simpl.
  destruct (0 <? img_size im (slice im image_bgr b)); [| reflexivity].
  destruct (Qltb c0 confidence); reflexivity.
Qed.

Lemma stage1_candidate_above (d : raw_detection) (crop : Image) :
  stage1_candidate im m image_bgr d = Some crop ->
  (CAR_CONFIDENCE_THRESHOLD < snd d)%Q.
Proof.
  unfold stage1_candidate.
  destruct (Qltb CAR_CONFIDENCE_THRESHOLD (snd d)) eqn:E; [| discriminate].
  intros _. now apply Qltb_lt.
Qed.

Lemma stage1_candidate_valid (d : raw_detection) (crop : Image) :
  stage1_candidate im m image_bgr d = Some crop ->
  exists b, stage1_box m d = Ok b /\ box_valid b = true /\
            crop = slice im image_bgr b.
Proof.
  unfold stage1_candidate.
  destruct (Qltb CAR_CONFIDENCE_THRESHOLD (snd d)); [| discriminate].
  destruct (stage1_box m d) as [b | e]; [| discriminate].
  destruct (box_valid b) eqn:Hv; [| discriminate]. simpl.
  destruct (0 <? img_size im (slice im image_bgr b)); [| discriminate].
  intros [= <-]. exists b. auto.
Qed.

(** The loop keeps the first candidate of largest confidence among those
    that beat the confidence it started from. *)
Lemma stage1_loop_first_max (detections : list raw_detection)
    (best0 best : option Image) (c0 c : Q) :
  for_each (stage1_step im m image_bgr) detections (best0, c0) = Ok (best, c) ->
  (best = best0 /\ c = c0 /\
   forall e crop, e ∈ detections ->
     stage1_candidate im m image_bgr e = Some crop -> (snd e <= c0)%Q)
  \/
  (exists l1 d l2 crop,
     detections = l1 ++ d :: l2 /\
     stage1_candidate im m image_bgr d = Some crop /\
     best = Some crop /\ c = snd d /\ (c0 < snd d)%Q /\
     (forall e crop', e ∈ l1 ->
        stage1_candidate im m image_bgr e = Some crop' -> (snd e < snd d)%Q) /\
     (forall e crop', e ∈ l2 ->
        stage1_candidate im m image_bgr e = Some crop' -> (snd e <= snd d)%Q)).
Proof.
  revert best0 c0.
  induction detections as [| d detections IH]; intros best0 c0 Hrun.
  - left. injection Hrun as <- <-. repeat split; try reflexivity.
    intros e crop He. inversion He.
  - rewrite for_each_cons, stage1_step_candidate in Hrun. cbn [rbind] in Hrun.
    destruct (stage1_candidate im m image_bgr d) as [crop |] eqn:Hcand.
    + destruct (Qltb c0 (snd d)) eqn:Hbeat.
      * apply Qltb_lt in Hbeat.
        destruct (IH _ _ Hrun) as [(-> & -> & Hrest) | Hlater].
        -- right. exists [], d, detections, crop. simpl.
           repeat split; auto.
           intros e crop' He. inversion He.
        -- destruct Hlater as (l1 & d' & l2 & crop' & -> & Hc' & -> & -> & Hgt & Hl1 & Hl2).
           right. exists (d :: l1), d', l2, crop'. simpl.
           repeat split; auto.
           ++ lra.
           ++ intros e crop'' He Hce. apply elem_of_cons in He as [-> | He].
              ** exact Hgt.
              ** eapply Hl1; eauto.
      * apply Qltb_ge in Hbeat.
        destruct (IH _ _ Hrun) as [(-> & -> & Hrest) | Hlater].
        -- left. repeat split; auto.
           intros e crop' He Hce. apply elem_of_cons in He as [-> | He].
           ++ exact Hbeat.
           ++ eapply Hrest; eauto.
        -- destruct Hlater as (l1 & d' & l2 & crop' & -> & Hc' & -> & -> & Hgt & Hl1 & Hl2).
           right. exists (d :: l1), d', l2, crop'. simpl.
           repeat split; auto.
           intros e crop'' He Hce. apply elem_of_cons in He as [-> | He].
           ++ lra.
           ++ eapply Hl1; eauto.
    + destruct (IH _ _ Hrun) as [(-> & -> & Hrest) | Hlater].
      * left. repeat split; auto.
        intros e crop' He Hce. apply elem_of_cons in He as [-> | He].
        -- congruence.
        -- eapply Hrest; eauto.
      * destruct Hlater as (l1 & d' & l2 & crop' & -> & Hc' & -> & -> & Hgt & Hl1 & Hl2).
        right. exists (d :: l1), d', l2, crop'. simpl.
        repeat split; auto.
        intros e crop'' He Hce. apply elem_of_cons in He as [-> | He].
        -- congruence.
        -- eapply Hl1; eauto.
Qed.

Lemma stage1_returns (detections : list raw_detection) :
  exists best c, stage1 im m image_bgr detections = Ok (best, c).
Proof.
  unfold stage1. generalize (@None Image, 0%Q).
  induction detections as [| d detections IH]; intros [best0 c0].
  - exists best0, c0. reflexivity.
  - rewrite for_each_cons, stage1_step_candidate. cbn [rbind]. apply IH.
Qed.

(** Best-single: stage 1 keeps the first candidate of largest confidence,
    or nothing when there is no candidate. *)
Lemma stage1_best_single (detections : list raw_detection)
    (best : option Image) (c : Q) :
  stage1 im m image_bgr detections = Ok (best, c) ->
  (best = None /\
   forall e, e ∈ detections -> stage1_candidate im m image_bgr e = None)
  \/
  (exists l1 d l2 crop,
     detections = l1 ++ d :: l2 /\
     stage1_candidate im m image_bgr d = Some crop /\
     best = Some crop /\ c = snd d /\
     (forall e crop', e ∈ l1 ->
        stage1_candidate im m image_bgr e = Some crop' -> (snd e < snd d)%Q) /\
     (forall e crop', e ∈ l2 ->
        stage1_candidate im m image_bgr e = Some crop' -> (snd e <= snd d)%Q)).
Proof.
  unfold stage1. intros Hrun.
  destruct (stage1_loop_first_max _ _ _ _ _ Hrun) as [(-> & -> & Hnone) | Hsome].
  - left. split; [reflexivity |].
    intros e He. destruct (stage1_candidate im m image_bgr e) as [crop |] eqn:Hc;
      [| reflexivity].
    exfalso. pose proof (Hnone e crop He Hc) as Hle.
    pose proof (stage1_candidate_above e crop Hc) as Hgt.
    unfold CAR_CONFIDENCE_THRESHOLD in Hgt. lra.
  - right. destruct Hsome as (l1 & d & l2 & crop & ? & ? & ? & ? & _ & ? & ?).
    exists l1, d, l2, crop. repeat split; assumption.
Qed.

End Stage1Facts.

(** ** Stage 2: all valid characters *)

Lemma Qplus_0_r_sym (q : Q) : (q == q + Qsum [])%Q.
Proof. unfold Qsum. cbn [foldr]. ring. Qed.

Section Stage2Facts.
Variable class_map : gmap Z string.
Variable labels : list Q.
Variable m : scaling_meta.

(** What the stage-2 loop adds to its state. *)
Lemma stage2_loop_invariant (rows : list (nat * raw_detection))
    (rel0 rel : list detection) (avg0 avg : Q) (n0 n : Z) :
  for_each (stage2_step class_map labels m) rows (rel0, avg0, n0)
    = Ok (rel, avg, n) ->
  exists added,
    rel = rel0 ++ added /\
    Forall detection_valid added /\
    (avg == avg0 + Qsum (map d_confidence added))%Q /\
    n = n0 + Z.of_nat (length added) /\
    Forall (fun d => (PLATE_CONFIDENCE_THRESHOLD <= d_confidence d)%Q /\
                     d_class_name d ∈ ["num"; "tun"]) added.
Proof.
  revert rel0 avg0 n0.
  induction rows as [| [i [coords confidence]] rows IH]; intros rel0 avg0 n0 Hrun.
  - injection Hrun as <- <- <-. exists []. rewrite app_nil_r.
    split; [reflexivity |]. split; [constructor |].
    split; [apply Qplus_0_r_sym |]. split; [simpl; lia | constructor].
  - rewrite for_each_cons in Hrun.
    assert (Hskip : for_each (stage2_step class_map labels m) rows (rel0, avg0, n0)
                    = Ok (rel, avg, n) ->
                    exists added,
                      rel = rel0 ++ added /\ Forall detection_valid added /\
                      (avg == avg0 + Qsum (map d_confidence added))%Q /\
                      n = n0 + Z.of_nat (length added) /\
                      Forall (fun d => (PLATE_CONFIDENCE_THRESHOLD <= d_confidence d)%Q /\
                                       d_class_name d ∈ ["num"; "tun"]) added)
      by apply IH.
    unfold stage2_step in Hrun at 1.
    destruct (labels !! i) as [label |]; [| discriminate].
    cbn [rbind] in Hrun.
    destruct (Qleb PLATE_CONFIDENCE_THRESHOLD confidence) eqn:Hconf;
      [| now apply Hskip].
    case_bool_decide as Hclass; [| now apply Hskip].
    destruct (scale_coords_plate coords m) as [[[[x1 y1] x2] y2] | e];
      [| discriminate].
    cbn [rbind] in Hrun.
    destruct ((x1 <? x2) && (y1 <? y2)) eqn:Hvalid; [| now apply Hskip].
    apply IH in Hrun as (added & -> & Hval & Havg & -> & Hkept).
    apply andb_true_iff in Hvalid as [Hx Hy].
    apply Z.ltb_lt in Hx. apply Z.ltb_lt in Hy. apply Qleb_le in Hconf.
    eexists (_ :: added). rewrite <- app_assoc.
    split; [reflexivity |]. split.
    { constructor; [split; assumption | assumption]. }
    split.
    { rewrite Havg. unfold Qsum. cbn [map foldr d_confidence]. ring. }
    split; [cbn [length]; lia |].
    constructor; [split; assumption | assumption].
Qed.

Lemma stage2_invariant (output_dets_plate : list raw_detection)
    (rel : list detection) (avg : Q) (n : Z) :
  stage2 class_map output_dets_plate labels m = Ok (rel, avg, n) ->
  Forall detection_valid rel /\
  (avg == Qsum (map d_confidence rel))%Q /\
  n = Z.of_nat (length rel) /\
  Forall (fun d => (PLATE_CONFIDENCE_THRESHOLD <= d_confidence d)%Q /\
                   d_class_name d ∈ ["num"; "tun"]) rel.
Proof.
  unfold stage2. intros Hrun.
  apply stage2_loop_invariant in Hrun as (added & -> & Hval & Havg & -> & Hkept).
  change ([] ++ added) with added.
  repeat split; auto. rewrite Havg. ring.
Qed.

End Stage2Facts.

(** ** No invalid box is retained *)

Section FilterFacts.
Context {Image Contour : Type} (im : imaging Image Contour).

(** A row whose mapped box is not valid leaves stage 1 as it found it. *)
Lemma stage1_skips_invalid_box (m : scaling_meta) (image_bgr : Image)
    (st : option Image * Q) (d : raw_detection) (b : box Z) :
  stage1_box m d = Ok b -> box_valid b = false ->
  stage1_step im m image_bgr st d = Ok st.
Proof.
  intros Hbox Hinvalid. destruct st as [best c0].
  rewrite stage1_step_candidate. unfold stage1_candidate.
  rewrite Hbox, Hinvalid. simpl.
  destruct (Qltb CAR_CONFIDENCE_THRESHOLD (snd d)); reflexivity.
Qed.

(** C4: the detection kept by stage 1 (best single) comes from a row whose
    mapped box has [x_min < x_max] and [y_min < y_max], and every detection
    kept by stage 2 (all valid) has [x1 < x2] and [y1 < y2]; a box failing
    the test is dropped whatever its confidence. *)
Theorem retained_boxes_are_valid
    (m_car m_plate : scaling_meta) (image_bgr crop : Image)
    (detections output_dets_plate : list raw_detection)
    (class_map : gmap Z string) (labels : list Q)
    (c : Q) (rel : list detection) (avg : Q) (n : Z) :
  stage1 im m_car image_bgr detections = Ok (Some crop, c) ->
  stage2 class_map output_dets_plate labels m_plate = Ok (rel, avg, n) ->
  (exists d b,
     d ∈ detections /\ snd d = c /\
     stage1_box m_car d = Ok b /\ box_valid b = true /\
     crop = slice im image_bgr b) /\
  Forall detection_valid rel /\
  (forall st d b,
     stage1_box m_car d = Ok b -> box_valid b = false ->
     stage1_step im m_car image_bgr st d = Ok st).
Proof.
  intros Hstage1 Hstage2. split; [| split].
  - destruct (stage1_best_single im m_car image_bgr detections _ _ Hstage1)
      as [[Hnone _] | Hsome]; [discriminate |].
    destruct Hsome as (l1 & d & l2 & crop' & -> & Hcand & Hbest & -> & _).
    injection Hbest as ->.
    destruct (stage1_candidate_valid im m_car image_bgr d crop' Hcand)
      as (b & Hb & Hvalid & ->).
    exists d, b. repeat split; auto.
    apply elem_of_app. right. apply elem_of_cons. left. reflexivity.
  - now destruct (stage2_invariant class_map labels m_plate _ _ _ _ Hstage2).
  - intros st d b. apply stage1_skips_invalid_box.
Qed.

End FilterFacts.

Lemma retained_boxes_are_valid_witness :
  let class_map : gmap Z string := <[0 := "num"]> (<[1 := "tun"]> ∅) in
  let m_car := ScalingMeta 1280 1280 (640 # 1280) 0 0 in
  let m_plate := ScalingMeta 200 400 (640 # 400) 160 0 in
  let detections : list raw_detection := [((100, 100, 300, 200)%Q, 9 # 10)] in
  let output_dets_plate : list raw_detection :=
    [((10, 170, 200, 300)%Q, 9 # 10); ((510, 170, 500, 300)%Q, 99 # 100)] in
  let rel := [Detection 6 6 125 87 "num" (9 # 10) None] in
  stage1 shape_only m_car (1280, 1280) detections = Ok (Some (200, 400), 9 # 10) /\
  stage2 class_map output_dets_plate [0; 0]%Q m_plate = Ok (rel, (9 # 10)%Q, 1) /\
  Forall detection_valid rel.
Proof.
  intros class_map m_car m_plate detections output_dets_plate rel.
  assert (H1 : stage1 shape_only m_car (1280, 1280) detections
               = Ok (Some (200, 400), 9 # 10)) by reflexivity.
  assert (H2 : stage2 class_map output_dets_plate [0; 0]%Q m_plate
               = Ok (rel, (9 # 10)%Q, 1)) by reflexivity.
  split; [exact H1 |]. split; [exact H2 |].
  exact (proj1 (proj2 (retained_boxes_are_valid shape_only m_car m_plate
                         (1280, 1280) (200, 400) detections output_dets_plate
                         class_map [0; 0]%Q (9 # 10) rel _ 1 H1 H2))).
Defined.

(** ** The threshold tests *)

Section ThresholdFacts.
Context {Image Contour : Type} (im : imaging Image Contour).

(** C3, at the boundary: a stage-1 row whose confidence equals
    [CAR_CONFIDENCE_THRESHOLD] is discarded, whatever its box: the loop
    state is left as it was. *)
Theorem stage1_discards_confidence_at_threshold
    (m : scaling_meta) (image_bgr : Image) (st : option Image * Q)
    (coords : box Q) (confidence : Q) :
  (confidence == CAR_CONFIDENCE_THRESHOLD)%Q ->
  stage1_step im m image_bgr st (coords, confidence) = Ok st.
Proof.
  intros Heq. destruct st as [best c0]. unfold stage1_step.
  assert (Hnot : Qltb CAR_CONFIDENCE_THRESHOLD confidence = false).
  { apply Qltb_ge. rewrite Heq. apply Qle_refl. }
  rewrite Hnot. reflexivity.
Qed.

(** Stage 2 keeps a row whose confidence equals its threshold. *)
Lemma stage2_keeps_confidence_at_threshold (class_map : gmap Z string)
    (labels : list Q) (m : scaling_meta) (st : list detection * Q * Z)
    (i : nat) (label : Q) (coords : box Q) (b : box Z) :
  labels !! i = Some label ->
  resolve_class_name class_map (py_int label) ∈ ["num"; "tun"] ->
  scale_coords_plate coords m = Ok b ->
  box_valid b = true ->
  exists d,
    stage2_step class_map labels m st (i, (coords, PLATE_CONFIDENCE_THRESHOLD))
      = Ok (st.1.1 ++ [d], (st.1.2 + PLATE_CONFIDENCE_THRESHOLD)%Q, st.2 + 1) /\
    d_confidence d = PLATE_CONFIDENCE_THRESHOLD.
Proof.
  intros Hlabel Hclass Hbox Hvalid.
  destruct st as [[rel avg] n]. destruct b as [[[x1 y1] x2] y2].
  unfold stage2_step. rewrite Hlabel. cbn [rbind].
  change (Qleb PLATE_CONFIDENCE_THRESHOLD PLATE_CONFIDENCE_THRESHOLD) with true.
  cbv iota. rewrite bool_decide_eq_true_2 by assumption.
  rewrite Hbox. cbn [rbind]. unfold box_valid in Hvalid. rewrite Hvalid.
  eexists. split; reflexivity.
Qed.

End ThresholdFacts.

Lemma stage1_discards_confidence_at_threshold_witness :
  let m := ScalingMeta 1280 1280 (640 # 1280) 0 0 in
  let coords : box Q := (100, 100, 300, 200)%Q in
  let car_model : Z * Z -> result (list raw_detection + string) :=
    fun _ => Ok (inl [(coords, 53 # 100)]) in
  (53 # 100 == CAR_CONFIDENCE_THRESHOLD)%Q /\
  stage1_step shape_only m (1280, 1280) (None, 0%Q) (coords, 53 # 100)
    = Ok (None, 0%Q) /\
  perform_detection shape_only (fun _ => Ok []) car_model (fun _ => Ok ([], []))
    ∅ 640 640 (Some (1280, 1280))
    = Ok ("", 0%Q,
          Some "No plate detected with sufficient confidence in Stage 1.") /\
  stage1_step shape_only m (1280, 1280) (None, 0%Q) (coords, 54 # 100)
    = Ok (Some (200, 400), 54 # 100).
Proof.
  intros m coords car_model.
  assert (Heq : (53 # 100 == CAR_CONFIDENCE_THRESHOLD)%Q) by reflexivity.
  split; [exact Heq |]. split.
  - exact (stage1_discards_confidence_at_threshold shape_only m (1280, 1280)
             (None, 0%Q) coords (53 # 100) Heq).
  - split; reflexivity.
Defined.

(** ** Aggregated confidence *)

Ltac shape_of_sequence :=
  match goal with
  | H : map d_class_name ?l = _ |- _ =>
      destruct l as [| ? [| ? [| ? [| ? ?]]]]; try discriminate H
  end.

Ltac split_conditionals :=
  repeat match goal with
         | |- context [if ?b then _ else _] => destruct b
         end.

Lemma assemble_returns (sorted_detections : list detection) (c : Q) :
  exists plate err, assemble sorted_detections c = Ok (plate, c, err).
Proof.
  unfold assemble.
  repeat case_bool_decide; try shape_of_sequence;
    cbn [length Nat.eqb item lookup list_lookup rbind];
    split_conditionals; eexists; eexists; reflexivity.
Qed.

Section ConfidenceFacts.
Context {Image Contour : Type} (im : imaging Image Contour).
Variable readtext : Image -> result (list string).

(** After stage 2 the confidence is fixed; OCR and assembly pass it on. *)
Lemma after_stage2_confidence
    (class_map : gmap Z string) (output_dets_plate : list raw_detection)
    (labels : list Q) (m_plate : scaling_meta) (corrected_plate_crop : Image)
    (c1 : Q) (rel : list detection) (avg : Q) (n : Z) :
  stage2 class_map output_dets_plate labels m_plate = Ok (rel, avg, n) ->
  rel <> [] ->
  exists plate conf err,
    after_stage2 im readtext corrected_plate_crop c1 (rel, avg, n)
      = Ok (plate, conf, err) /\
    conf = aggregate_confidence c1 avg n /\
    (conf == (c1 + Qsum (map d_confidence rel) / inject_Z (Z.of_nat (length rel)))
             / 2)%Q.
Proof.
  intros Hstage2 Hnonempty.
  destruct (stage2_invariant class_map labels m_plate _ _ _ _ Hstage2)
    as (_ & Havg & -> & _).
  destruct rel as [| d rel]; [congruence |].
  unfold after_stage2.
  destruct (assemble_returns
              (map (ocr_detection im readtext corrected_plate_crop)
                   (sorted_by_x1 (d :: rel)))
              (aggregate_confidence c1 avg (Z.of_nat (length (d :: rel)))))
    as (plate & err & Hasm).
  exists plate, (aggregate_confidence c1 avg (Z.of_nat (length (d :: rel)))), err.
  split; [exact Hasm |]. split; [reflexivity |].
  unfold aggregate_confidence.
  assert (Hpos : (0 <? Z.of_nat (length (d :: rel))) = true).
  { apply Z.ltb_lt. simpl length. lia. }
  rewrite Hpos, Havg. reflexivity.
Qed.


Variable car_model : Image -> result (list raw_detection + string).
Variable plate_model : Image -> result (list raw_detection * list Q).
Variable class_map : gmap Z string.
Variables plate_target_height plate_target_width : Z.

(** C5: in a call of [_perform_detection] where stage 1 keeps a plate with
    confidence [c1] and stage 2 retains the detections [rel] (at least one),
    the confidence returned is
    [(c1 + (sum of the confidences of rel) / (length of rel)) / 2], whatever
    the OCR reader answers. *)
Theorem overall_confidence_is_mean_of_stage_means
    (image_bgr best : Image) (img_h img_w crop_h crop_w : Z)
    (m_car m_plate : scaling_meta) (detections : list raw_detection) (c1 : Q)
    (corrected : option Image) (output_dets_plate : list raw_detection)
    (labels : list Q) (rel : list detection) (avg : Q) (n : Z) :
  shape im image_bgr = (img_h, img_w) ->
  preprocess_image_car img_h img_w CAR_INPUT_HEIGHT CAR_INPUT_WIDTH = Ok m_car ->
  car_model image_bgr = Ok (inl detections) ->
  stage1 im m_car image_bgr detections = Ok (Some best, c1) ->
  detect_and_correct_rotation im (Some best) = Ok corrected ->
  shape im (usable_crop im best corrected) = (crop_h, crop_w) ->
  preprocess_image_plate crop_h crop_w plate_target_height plate_target_width
    = Ok m_plate ->
  plate_model (usable_crop im best corrected) = Ok (output_dets_plate, labels) ->
  stage2 class_map output_dets_plate labels m_plate = Ok (rel, avg, n) ->
  rel <> [] ->
  exists plate conf err,
    perform_detection im readtext car_model plate_model class_map
      plate_target_height plate_target_width (Some image_bgr)
      = Ok (plate, conf, err) /\
    (conf == (c1 + Qsum (map d_confidence rel) / inject_Z (Z.of_nat (length rel)))
             / 2)%Q.
Proof.
  intros Hshape Hcar_meta Hcar Hstage1 Hrot Hcrop Hplate_meta Hplate Hstage2 Hrel.
  destruct (after_stage2_confidence class_map output_dets_plate labels m_plate
              (usable_crop im best corrected) c1 rel avg n Hstage2 Hrel)
    as (plate & conf & err & Hrun & _ & Hmean).
  exists plate, conf, err. split; [| exact Hmean].
  unfold perform_detection.
  rewrite Hshape, Hcar_meta. cbn [rbind].
  rewrite Hcar. cbn [rbind].
  rewrite Hstage1. cbn [rbind].
  rewrite Hrot. cbn [rbind].
  rewrite Hcrop, Hplate_meta. cbn [rbind].
  rewrite Hplate. cbn [rbind].
  rewrite Hstage2. cbn [rbind].
  rewrite Hrun. reflexivity.
Qed.

End ConfidenceFacts.

Lemma overall_confidence_is_mean_of_stage_means_witness :
  let class_map : gmap Z string := <[0 := "num"]> (<[1 := "tun"]> ∅) in
  let car_model : Z * Z -> result (list raw_detection + string) :=
    fun _ => Ok (inl [((100, 100, 300, 200)%Q, 9 # 10)]) in
  let plate_model : Z * Z -> result (list raw_detection * list Q) :=
    fun _ => Ok ([((10, 170, 200, 300)%Q, 9 # 10);
                  ((210, 170, 300, 300)%Q, 8 # 10);
                  ((310, 170, 500, 300)%Q, 7 # 10)],
                 [0; 1; 0]%Q) in
  let readtext : Z * Z -> result (list string) := fun _ => Ok ["12 3"; "4"] in
  exists plate conf err,
    perform_detection shape_only readtext car_model plate_model class_map
      640 640 (Some (1280, 1280)) = Ok (plate, conf, err) /\
    plate = "1234 TN 1234" /\
    (conf == 85 # 100)%Q.
Proof.
  intros class_map car_model plate_model readtext.
  destruct (overall_confidence_is_mean_of_stage_means shape_only readtext
              car_model plate_model class_map 640 640
              (1280, 1280) (200, 400) 1280 1280 200 400
              (ScalingMeta 1280 1280 (640 # 1280) 0 0)
              (ScalingMeta 200 400 (640 # 400) 160 0)
              [((100, 100, 300, 200)%Q, 9 # 10)] (9 # 10) (Some (200, 400))
              [((10, 170, 200, 300)%Q, 9 # 10);
               ((210, 170, 300, 300)%Q, 8 # 10);
               ((310, 170, 500, 300)%Q, 7 # 10)]
              [0; 1; 0]%Q
              [Detection 6 6 125 87 "num" (9 # 10) None;
               Detection 131 6 187 87 "tun" (8 # 10) None;
               Detection 193 6 312 87 "num" (7 # 10) None]
              (2400 # 1000)%Q 3
              eq_refl eq_refl eq_refl eq_refl eq_refl eq_refl eq_refl eq_refl
              eq_refl ltac:(discriminate))
    as (plate & conf & err & Hrun & Hmean).
  exists plate, conf, err.
  split; [exact Hrun |]. split.
  - vm_compute in Hrun. congruence.
  - rewrite Hmean. reflexivity.
Defined.

(** * Further properties *)

(** ** The module-level mapping clips on both sides *)

Lemma clamp_within (u : Q) (w : Z) :
  0 <= w -> 0 <= py_int (py_max 0 (py_min u (inject_Z w))) <= w.
Proof.
  intros Hw. split.
  - apply py_int_nonneg, py_max_lower.
  - rewrite <- (py_int_inject w) at 2. apply py_int_mono.
    destruct (py_max_cases 0 (py_min u (inject_Z w))) as [[_ ->] | [_ ->]].
    + apply py_min_upper_r.
    + change 0%Q with (inject_Z 0). rewrite <- Zle_Qle. exact Hw.
Qed.

(** X1: the module-level [scale_coords_car] returns, for every box and every
    scale (zero included), a box inside the frame of the original image. *)
Theorem helper_scale_coords_car_within_frame (b : box Q) (m : scaling_meta) :
  0 <= original_height m -> 0 <= original_width m ->
  exists r, Helpers.scale_coords_car b m = Ok r /\
            within_frame (original_height m) (original_width m) r.
Proof.
  intros Hh Hw. destruct b as [[[x_min y_min] x_max] y_max].
  unfold Helpers.scale_coords_car.
  destruct (Qeqb (scale m) 0) eqn:E.
  - exists (0, 0, 0, 0). split; [reflexivity |]. unfold within_frame. lia.
  - apply Qeqb_neq in E. rewrite !py_truediv_ok by assumption.
    eexists. split; [reflexivity |].
    unfold within_frame. repeat split; apply clamp_within; assumption.
Qed.

Lemma helper_scale_coords_car_within_frame_witness :
  let m := ScalingMeta 1280 1280 (640 # 1280) 0 0 in
  exists r, Helpers.scale_coords_car (700, -10, 720, 2000)%Q m = Ok r /\
            r = (1280, 0, 1280, 1280) /\ within_frame 1280 1280 r.
Proof.
  intros m.
  destruct (helper_scale_coords_car_within_frame (700, -10, 720, 2000)%Q m)
    as (r & Hr & Hin); [simpl; lia | simpl; lia |].
  exists r. split; [exact Hr |]. split; [| exact Hin].
  vm_compute in Hr. congruence.
Defined.

(** ** Geometry of the letterbox *)

Lemma scaled_side (b c : Z) :
  0 < c -> (inject_Z c * (inject_Z b / inject_Z c) == inject_Z b)%Q.
Proof.
  intros Hc. field. change 0%Q with (inject_Z 0).
  rewrite inject_Z_injective. lia.
Qed.

Lemma half_lt_scaled (a b c : Z) :
  0 < c ->
  ((1 # 2) < inject_Z a * (inject_Z b / inject_Z c))%Q <-> c < 2 * a * b.
Proof.
  intros Hc. destruct c as [| c | c]; try lia.
  unfold Qlt, Qmult, Qdiv, Qinv, inject_Z. simpl.
  rewrite ?Pos.mul_1_r, ?Z.mul_1_r, ?Z.mul_1_l. lia.
Qed.

Lemma one_le_scaled (a b c : Z) :
  0 < c ->
  (1 <= inject_Z a * (inject_Z b / inject_Z c))%Q <-> c <= a * b.
Proof.
  intros Hc. destruct c as [| c | c]; try lia.
  unfold Qle, Qmult, Qdiv, Qinv, inject_Z. simpl.
  rewrite ?Pos.mul_1_r, ?Z.mul_1_r, ?Z.mul_1_l. lia.
Qed.

Lemma ratio_lt (a b c d : Z) :
  0 < b -> 0 < d ->
  (inject_Z a / inject_Z b < inject_Z c / inject_Z d)%Q <-> a * d < c * b.
Proof.
  intros Hb Hd.
  destruct b as [| b | b]; try lia. destruct d as [| d | d]; try lia.
  unfold Qlt, Qmult, Qdiv, Qinv, inject_Z. simpl.
  rewrite ?Pos.mul_1_r, ?Z.mul_1_r, ?Z.mul_1_l. lia.
Qed.

Lemma ratio_pos (a b : Z) : 0 < a -> 0 < b -> (0 < inject_Z a / inject_Z b)%Q.
Proof.
  intros Ha Hb. destruct b as [| b | b]; try lia.
  unfold Qlt, Qdiv, Qmult, Qinv, inject_Z. simpl. lia.
Qed.

Lemma ratio_nonzero (b : Z) : 0 < b -> ~ (inject_Z b == 0)%Q.
Proof.
  intros Hb. change 0%Q with (inject_Z 0). rewrite inject_Z_injective. lia.
Qed.

Lemma scaled_mono (a : Z) (s t : Q) :
  0 < a -> (s <= t)%Q -> (inject_Z a * s <= inject_Z a * t)%Q.
Proof.
  intros Ha Hst. rewrite !(Qmult_comm (inject_Z a)).
  apply Qmult_le_compat_r; [exact Hst |].
  change 0%Q with (inject_Z 0). rewrite <- Zle_Qle. lia.
Qed.

Lemma Qfloor_below_int (q : Q) (n : Z) : (q <= inject_Z n)%Q -> Qfloor q <= n.
Proof.
  intros H. rewrite <- (Qfloor_Z n). now apply Qfloor_resp_le.
Qed.

(** Rounding never passes an integer bound, fixes the integers, and is
    positive exactly above one half. *)
Lemma py_round_le_int (q : Q) (n : Z) : (q <= inject_Z n)%Q -> py_round q <= n.
Proof.
  intros Hq. unfold py_round.
  pose proof (Qfloor_below_int q n Hq) as Hf.
  pose proof (Qfloor_le q) as Hlo.
  destruct (q - inject_Z (Qfloor q) ?= 1 # 2)%Q eqn:E.
  - apply Qeq_alt in E.
    destruct (Z.even (Qfloor q)); [exact Hf |].
    destruct (Z.eq_dec (Qfloor q) n) as [Heq | Hne]; [rewrite Heq in *; exfalso; lra | lia].
  - exact Hf.
  - apply Qgt_alt in E.
    destruct (Z.eq_dec (Qfloor q) n) as [Heq | Hne]; [rewrite Heq in *; exfalso; lra | lia].
Qed.

Lemma py_round_int (q : Q) (n : Z) : (q == inject_Z n)%Q -> py_round q = n.
Proof.
  intros Hq. unfold py_round.
  assert (Hf : Qfloor q = n) by (rewrite Hq; apply Qfloor_Z).
  rewrite Hf.
  destruct (q - inject_Z n ?= 1 # 2)%Q eqn:E.
  - apply Qeq_alt in E. exfalso. lra.
  - reflexivity.
  - apply Qgt_alt in E. exfalso. lra.
Qed.

Lemma py_round_pos (q : Q) : 0 < py_round q <-> ((1 # 2) < q)%Q.
Proof.
  unfold py_round.
  pose proof (Qfloor_le q) as Hlo. pose proof (Qlt_floor q) as Hhi.
  rewrite inject_Z_plus in Hhi. change (inject_Z 1) with 1%Q in Hhi.
  assert (Hcases : Qfloor q <= -1 \/ Qfloor q = 0 \/ 1 <= Qfloor q) by lia.
  assert (Hneg : Qfloor q <= -1 -> (inject_Z (Qfloor q) <= -1)%Q).
  { intros H. change (-1)%Q with (inject_Z (-1)). now rewrite <- Zle_Qle. }
  assert (Hpos : 1 <= Qfloor q -> (1 <= inject_Z (Qfloor q))%Q).
  { intros H. change 1%Q with (inject_Z 1). now rewrite <- Zle_Qle. }
  destruct (q - inject_Z (Qfloor q) ?= 1 # 2)%Q eqn:E.
  - apply Qeq_alt in E.
    destruct Hcases as [H | [H | H]].
    + specialize (Hneg H).
      destruct (Z.even (Qfloor q)); split; intros; try lia; lra.
    + rewrite H in *. simpl. change (inject_Z 0) with 0%Q in *.
      split; intros; try lia; lra.
    + specialize (Hpos H).
      destruct (Z.even (Qfloor q)); split; intros; try lia; lra.
  - apply Qlt_alt in E.
    destruct Hcases as [H | [H | H]].
    + specialize (Hneg H). split; intros; try lia; lra.
    + rewrite H in *. change (inject_Z 0) with 0%Q in *.
      split; intros; try lia; lra.
    + specialize (Hpos H). split; intros; try lia; lra.
  - apply Qgt_alt in E.
    destruct Hcases as [H | [H | H]].
    + specialize (Hneg H). split; intros; try lia; lra.
    + rewrite H in *. change (inject_Z 0) with 0%Q in *.
      split; intros; try lia; lra.
    + specialize (Hpos H). split; intros; try lia; lra.
Qed.

(** What the letterbox of [preprocess_image_car] computes from positive
    sizes: the rounded content size on each axis. *)
Lemma letterbox_round_sizes (H W th tw : Z) :
  0 < H -> 0 < W -> 0 < th -> 0 < tw ->
  let s := py_min (inject_Z th / inject_Z H) (inject_Z tw / inject_Z W) in
  let nh := py_round (inject_Z H * s) in
  let nw := py_round (inject_Z W * s) in
  (0 < s)%Q /\ nh <= th /\ nw <= tw /\ (nh = th \/ nw = tw) /\
  (0 < nh /\ 0 < nw <-> W < 2 * H * tw /\ H < 2 * W * th).
Proof.
  intros HH HW Hth Htw s nh nw.
  pose proof (ratio_pos th H Hth HH) as Hsh.
  pose proof (ratio_pos tw W Htw HW) as Hsw.
  pose proof (scaled_side th H HH) as HHsh.
  pose proof (scaled_side tw W HW) as HWsw.
  pose proof (ratio_lt tw W th H HW HH) as Hcmp.
  destruct (py_min_cases (inject_Z th / inject_Z H) (inject_Z tw / inject_Z W))
    as [[Hlt Hs] | [Hle Hs]]; fold s in Hs.
  - (* the width is the binding side *)
    assert (Hnw : nw = tw).
    { unfold nw. apply py_round_int. rewrite Hs. exact HWsw. }
    assert (Hnh : nh <= th).
    { unfold nh. apply py_round_le_int. rewrite Hs, <- HHsh.
      apply scaled_mono; [exact HH | lra]. }
    assert (Hpos : 0 < nh <-> W < 2 * H * tw).
    { unfold nh. rewrite py_round_pos, Hs. apply half_lt_scaled. exact HW. }
    apply Hcmp in Hlt.
    split; [rewrite Hs; exact Hsw |].
    split; [exact Hnh |]. split; [lia |]. split; [right; exact Hnw |].
    rewrite Hnw, Hpos. nia.
  - (* the height is the binding side *)
    assert (Hnh : nh = th).
    { unfold nh. apply py_round_int. rewrite Hs. exact HHsh. }
    assert (Hnw : nw <= tw).
    { unfold nw. apply py_round_le_int. rewrite Hs, <- HWsw.
      apply scaled_mono; [exact HW | exact Hle]. }
    assert (Hpos : 0 < nw <-> H < 2 * W * th).
    { unfold nw. rewrite py_round_pos, Hs. apply half_lt_scaled. exact HH. }
    assert (Hge : ~ tw * H < th * W).
    { intros Hc. apply Hcmp in Hc. lra. }
    split; [rewrite Hs; exact Hsh |].
    split; [lia |]. split; [exact Hnw |]. split; [left; exact Hnh |].
    rewrite Hnh, Hpos. nia.
Qed.

(** X3: for a frame and a canvas of positive size, [preprocess_image_car]
    succeeds exactly when neither side of the frame is [2 * target] times
    longer than the other; the context it returns records the frame, has a
    positive scale and non-negative pads, keeps the content on the canvas and
    leaves no pad on the binding axis. Otherwise the resize is refused. *)
Theorem preprocess_image_car_letterbox (H W th tw : Z) :
  0 < H -> 0 < W -> 0 < th -> 0 < tw ->
  (W < 2 * H * tw /\ H < 2 * W * th ->
   exists m,
     PlateDetectionServicer.preprocess_image_car H W th tw = Ok m /\
     Helpers.preprocess_image_car H W th tw = Ok m /\
     original_height m = H /\ original_width m = W /\ (0 < scale m)%Q /\
     0 <= pad_top m /\ 0 <= pad_left m /\
     pad_top m + new_height m <= th /\ pad_left m + new_width m <= tw /\
     (pad_top m = 0 \/ pad_left m = 0)) /\
  (~ (W < 2 * H * tw /\ H < 2 * W * th) ->
   exists e,
     PlateDetectionServicer.preprocess_image_car H W th tw = Raise e /\
     Helpers.preprocess_image_car H W th tw = Raise e).
Proof.
  intros HH HW Hth Htw.
  destruct (letterbox_round_sizes H W th tw HH HW Hth Htw)
    as (Hs & Hnh & Hnw & Hfill & Hpos).
  unfold PlateDetectionServicer.preprocess_image_car, Helpers.preprocess_image_car.
  rewrite !py_truediv_ok by (apply ratio_nonzero; assumption).
  cbn [rbind].
  set (s := py_min (inject_Z th / inject_Z H) (inject_Z tw / inject_Z W)) in *.
  set (nh := py_round (inject_Z H * s)) in *.
  set (nw := py_round (inject_Z W * s)) in *.
  split.
  - intros Hok. apply Hpos in Hok as [Hh Hw].
    assert (Htest : (nh <=? 0) || (nw <=? 0) = false).
    { apply orb_false_iff. split; apply Z.leb_gt; assumption. }
    rewrite Htest. eexists. split; [reflexivity |]. split; [reflexivity |].
    unfold new_height, new_width. cbn [original_height original_width scale
                                        pad_top pad_left].
    fold s. fold nh. fold nw.
    repeat split; try assumption; try reflexivity.
    + apply Z.div_pos; lia.
    + apply Z.div_pos; lia.
    + assert ((th - nh) / 2 <= th - nh) by (apply Z.div_le_upper_bound; lia). lia.
    + assert ((tw - nw) / 2 <= tw - nw) by (apply Z.div_le_upper_bound; lia). lia.
    + destruct Hfill as [-> | ->]; [left | right];
        rewrite Z.sub_diag; reflexivity.
  - intros Hbad.
    assert (Htest : (nh <=? 0) || (nw <=? 0) = true).
    { apply orb_true_iff.
      destruct (Z.leb_spec nh 0) as [| Hh]; [left; reflexivity |].
      destruct (Z.leb_spec nw 0) as [| Hw]; [right; reflexivity |].
      exfalso. apply Hbad, Hpos. split; assumption. }
    rewrite Htest. eexists. split; reflexivity.
Qed.

Lemma preprocess_image_car_letterbox_witness :
  (exists m,
     PlateDetectionServicer.preprocess_image_car 1080 1920 640 640 = Ok m /\
     pad_top m = 140 /\ pad_left m = 0 /\ new_height m = 360) /\
  (exists e, PlateDetectionServicer.preprocess_image_car 1 1280 640 640 = Raise e).
Proof.
  pose proof (preprocess_image_car_letterbox 1080 1920 640 640
                ltac:(lia) ltac:(lia) ltac:(lia) ltac:(lia)) as [Hok _].
  pose proof (preprocess_image_car_letterbox 1 1280 640 640
                ltac:(lia) ltac:(lia) ltac:(lia) ltac:(lia)) as [_ Hbad].
  split.
  - destruct Hok as (m & Hm & _); [lia |].
    exists m. split; [exact Hm |].
    vm_compute in Hm. injection Hm as <-. repeat split.
  - destruct Hbad as (e & He & _); [lia |].
    exists e. exact He.
Defined.

Lemma py_int_pos (q : Q) : (0 <= q)%Q -> (0 < py_int q <-> (1 <= q)%Q).
Proof.
  intros Hq. rewrite py_int_floor by assumption. split.
  - intros Hf. pose proof (Qfloor_le q) as Hlo.
    assert (H1 : (inject_Z 1 <= inject_Z (Qfloor q))%Q) by (rewrite <- Zle_Qle; lia).
    change (inject_Z 1) with 1%Q in H1. lra.
  - intros H1. change 1%Q with (inject_Z 1) in H1.
    apply Qfloor_resp_le in H1. rewrite Qfloor_Z in H1. lia.
Qed.

Lemma half_pad (x : Z) :
  0 <= x -> 0 <= x / 2 /\ 0 <= x - x / 2 /\ 2 * (x / 2) <= x <= 2 * (x / 2) + 1.
Proof.
  intros Hx.
  pose proof (Z.div_pos x 2 Hx ltac:(lia)) as H0.
  pose proof (Z.mul_div_le x 2 ltac:(lia)) as H1.
  pose proof (Z.mul_succ_div_gt x 2 ltac:(lia)) as H2.
  lia.
Qed.

(** The truncated content size of [preprocess_image_plate] and
    [_preprocess_image]. *)
Lemma letterbox_int_sizes (H W th tw : Z) :
  0 < H -> 0 < W -> 0 < th -> 0 < tw ->
  let s := py_min (inject_Z th / inject_Z H) (inject_Z tw / inject_Z W) in
  let nh := py_int (inject_Z H * s) in
  let nw := py_int (inject_Z W * s) in
  (0 < s)%Q /\ nh <= th /\ nw <= tw /\ (nh = th \/ nw = tw) /\
  (0 < nh /\ 0 < nw <-> W <= H * tw /\ H <= W * th).
Proof.
  intros HH HW Hth Htw s nh nw.
  pose proof (ratio_pos th H Hth HH) as Hsh.
  pose proof (ratio_pos tw W Htw HW) as Hsw.
  pose proof (scaled_side th H HH) as HHsh.
  pose proof (scaled_side tw W HW) as HWsw.
  pose proof (ratio_lt tw W th H HW HH) as Hcmp.
  assert (Hs0 : (0 < s)%Q).
  { unfold s.
    destruct (py_min_cases (inject_Z th / inject_Z H) (inject_Z tw / inject_Z W))
      as [[_ ->] | [_ ->]]; assumption. }
  assert (HH0 : (0 <= inject_Z H * s)%Q).
  { apply Qmult_le_0_compat; [| lra].
    change 0%Q with (inject_Z 0). rewrite <- Zle_Qle. lia. }
  assert (HW0 : (0 <= inject_Z W * s)%Q).
  { apply Qmult_le_0_compat; [| lra].
    change 0%Q with (inject_Z 0). rewrite <- Zle_Qle. lia. }
  split; [exact Hs0 |].
  destruct (py_min_cases (inject_Z th / inject_Z H) (inject_Z tw / inject_Z W))
    as [[Hlt Hs] | [Hle Hs]]; fold s in Hs.
  - assert (Hnw : nw = tw).
    { unfold nw. rewrite <- (py_int_inject tw). apply py_int_comp.
      rewrite Hs. exact HWsw. }
    assert (Hnh : nh <= th).
    { unfold nh. rewrite <- (py_int_inject th). apply py_int_mono.
      rewrite Hs, <- HHsh. apply scaled_mono; [exact HH | lra]. }
    assert (Hpos : 0 < nh <-> W <= H * tw).
    { unfold nh. rewrite py_int_pos by assumption. rewrite Hs.
      apply one_le_scaled. exact HW. }
    apply Hcmp in Hlt.
    split; [exact Hnh |]. split; [lia |]. split; [right; exact Hnw |].
    rewrite Hnw, Hpos. nia.
  - assert (Hnh : nh = th).
    { unfold nh. rewrite <- (py_int_inject th). apply py_int_comp.
      rewrite Hs. exact HHsh. }
    assert (Hnw : nw <= tw).
    { unfold nw. rewrite <- (py_int_inject tw). apply py_int_mono.
      rewrite Hs, <- HWsw. apply scaled_mono; [exact HW | exact Hle]. }
    assert (Hpos : 0 < nw <-> H <= W * th).
    { unfold nw. rewrite py_int_pos by assumption. rewrite Hs.
      apply one_le_scaled. exact HH. }
    assert (Hge : ~ tw * H < th * W).
    { intros Hc. apply Hcmp in Hc. lra. }
    split; [lia |]. split; [exact Hnw |]. split; [left; exact Hnh |].
    rewrite Hnh, Hpos. nia.
Qed.



(** ** Stage 1 as a selection *)

(** X6: stage 1 always completes. It keeps nothing when no row passes its
    three tests; otherwise it keeps the crop and the confidence of the first
    row of largest confidence among those that pass: every earlier passing row
    has a strictly smaller confidence, every later one a smaller or equal one. *)
Theorem stage1_keeps_first_best_candidate {Image Contour : Type}
    (im : imaging Image Contour) (m : scaling_meta) (image_bgr : Image)
    (detections : list raw_detection) :
  exists best c,
    stage1 im m image_bgr detections = Ok (best, c) /\
    ((best = None /\ c = 0%Q /\
      forall e, e ∈ detections -> stage1_candidate im m image_bgr e = None)
     \/
     (exists l1 d l2 crop,
        detections = l1 ++ d :: l2 /\
        stage1_candidate im m image_bgr d = Some crop /\
        best = Some crop /\ c = snd d /\
        (CAR_CONFIDENCE_THRESHOLD < c)%Q /\
        (forall e crop', e ∈ l1 ->
           stage1_candidate im m image_bgr e = Some crop' -> (snd e < snd d)%Q) /\
        (forall e crop', e ∈ l2 ->
           stage1_candidate im m image_bgr e = Some crop' -> (snd e <= snd d)%Q))).
Proof.
  destruct (stage1_returns im m image_bgr detections) as (best & c & Hrun).
  exists best, c. split; [exact Hrun |].
  unfold stage1 in Hrun.
  destruct (stage1_loop_first_max im m image_bgr _ _ _ _ _ Hrun)
    as [(-> & -> & Hnone) | Hsome].
  - left. repeat split.
    intros e He.
    destruct (stage1_candidate im m image_bgr e) as [crop |] eqn:Hc; [| reflexivity].
    exfalso. pose proof (Hnone e crop He Hc) as Hle.
    pose proof (stage1_candidate_above im m image_bgr e crop Hc) as Hgt.
    unfold CAR_CONFIDENCE_THRESHOLD in Hgt. lra.
  - right.
    destruct Hsome as (l1 & d & l2 & crop & Hsplit & Hcand & Hbest & Hc & _ & Hl1 & Hl2).
    exists l1, d, l2, crop. repeat split; try assumption.
    rewrite Hc. exact (stage1_candidate_above im m image_bgr d crop Hcand).
Qed.

(** ** Stage 2 as a filter *)

Lemma scale_coords_plate_total (b : box Q) (m : scaling_meta) :
  exists r, scale_coords_plate b m = Ok r.
Proof.
  destruct b as [[[b0 b1] b2] b3]. unfold scale_coords_plate.
  destruct (Qeqb (scale m) 0) eqn:E.
  - eexists. reflexivity.
  - apply Qeqb_neq in E. rewrite !py_truediv_ok by assumption.
    eexists. reflexivity.
Qed.

Lemma omap_cons_eq {A B : Type} (f : A -> option B) (x : A) (l : list A) :
  omap f (x :: l) = match f x with
                    | Some y => y :: omap f l
                    | None => omap f l
                    end.
Proof. reflexivity. Qed.

Section Stage2Filter.
Variable class_map : gmap Z string.
Variable labels : list Q.
Variable m : scaling_meta.

Lemma stage2_step_keep (rel : list detection) (avg : Q) (n : Z) (i : nat)
    (label : Q) (row : raw_detection) :
  labels !! i = Some label ->
  stage2_step class_map labels m (rel, avg, n) (i, row) =
    Ok (match stage2_keep class_map m (label, row) with
        | Some d => (rel ++ [d], (avg + snd row)%Q, n + 1)
        | None => (rel, avg, n)
        end).
Proof.
  intros Hlabel. destruct row as [coords confidence].
  unfold stage2_step, stage2_keep. rewrite Hlabel. cbn [rbind snd].
  destruct (Qleb PLATE_CONFIDENCE_THRESHOLD confidence); [| reflexivity].
  cbn [andb]. case_bool_decide; [| reflexivity].
  destruct (scale_coords_plate_total coords m) as [[[[x1 y1] x2] y2] ->].
  cbn [rbind]. destruct ((x1 <? x2) && (y1 <? y2)); reflexivity.
Qed.

Lemma stage2_keep_confidence (label : Q) (row : raw_detection) (d : detection) :
  stage2_keep class_map m (label, row) = Some d -> d_confidence d = snd row.
Proof.
  destruct row as [coords confidence]. unfold stage2_keep.
  destruct (_ && _); [| discriminate].
  destruct (scale_coords_plate coords m) as [[[[x1 y1] x2] y2] | e]; [| discriminate].
  destruct ((x1 <? x2) && (y1 <? y2)); [| discriminate].
  intros [= <-]. reflexivity.
Qed.

Lemma stage2_loop_is_filter (rows : list raw_detection) (start : nat)
    (rel0 : list detection) (avg0 : Q) (n0 : Z) :
  (start + length rows <= length labels)%nat ->
  let kept := omap (stage2_keep class_map m) (zip (drop start labels) rows) in
  exists avg,
    for_each (stage2_step class_map labels m)
      (zip (seq start (length rows)) rows) (rel0, avg0, n0)
      = Ok (rel0 ++ kept, avg, n0 + Z.of_nat (length kept)) /\
    (avg == avg0 + Qsum (map d_confidence kept))%Q.
Proof.
  revert start rel0 avg0 n0.
  induction rows as [| row rows IH]; intros start rel0 avg0 n0 Hlen kept.
  - exists avg0. unfold kept. rewrite !zip_with_nil_r.
    change (omap (stage2_keep class_map m) []) with (@nil detection).
    rewrite app_nil_r. change (Z.of_nat (length (@nil detection))) with 0.
    rewrite Z.add_0_r. split; [reflexivity | apply Qplus_0_r_sym].
  - cbn [length] in Hlen.
    destruct (lookup_lt_is_Some_2 labels start ltac:(lia)) as [label Hlabel].
    assert (Hdrop : drop start labels = label :: drop (S start) labels)
      by (now apply drop_S).
    unfold kept. rewrite Hdrop.
    change (zip (label :: drop (S start) labels) (row :: rows))
      with ((label, row) :: zip (drop (S start) labels) rows).
    change (zip (seq start (length (row :: rows))) (row :: rows))
      with ((start, row) :: zip (seq (S start) (length rows)) rows).
    rewrite for_each_cons, (stage2_step_keep _ _ _ _ label) by assumption.
    cbn [rbind].
    destruct (stage2_keep class_map m (label, row)) as [d |] eqn:Hkeep.
    + assert (Homap : omap (stage2_keep class_map m)
                        ((label, row) :: zip (drop (S start) labels) rows)
                      = d :: omap (stage2_keep class_map m)
                               (zip (drop (S start) labels) rows))
        by (rewrite omap_cons_eq, Hkeep; reflexivity).
      rewrite Homap.
      destruct (IH (S start) (rel0 ++ [d]) (avg0 + snd row)%Q (n0 + 1)
                  ltac:(lia)) as (avg & Hrun & Havg).
      exists avg. rewrite Hrun. split.
      * rewrite <- app_assoc. cbn [app length]. f_equal. f_equal. lia.
      * rewrite Havg. unfold Qsum. cbn [map foldr].
        rewrite (stage2_keep_confidence _ _ _ Hkeep). ring.
    + assert (Homap : omap (stage2_keep class_map m)
                        ((label, row) :: zip (drop (S start) labels) rows)
                      = omap (stage2_keep class_map m)
                          (zip (drop (S start) labels) rows))
        by (rewrite omap_cons_eq, Hkeep; reflexivity).
      rewrite Homap.
      destruct (IH (S start) rel0 avg0 n0 ltac:(lia)) as (avg & Hrun & Havg).
      exists avg. rewrite Hrun. split; [reflexivity | exact Havg].
Qed.

Lemma stage2_loop_index_error (rows : list raw_detection) (start : nat)
    (st : list detection * Q * Z) :
  (length labels < start + length rows)%nat -> (start <= length labels)%nat ->
  for_each (stage2_step class_map labels m)
    (zip (seq start (length rows)) rows) st
  = Raise (index_out_of_bounds (length labels) 0 (length labels)).
Proof.
  revert start st.
  induction rows as [| row rows IH]; intros start [[rel avg] n] Hshort Hstart.
  - cbn [length] in Hshort. lia.
  - change (zip (seq start (length (row :: rows))) (row :: rows))
      with ((start, row) :: zip (seq (S start) (length rows)) rows).
    rewrite for_each_cons.
    destruct (labels !! start) as [label |] eqn:Hlabel.
    + rewrite (stage2_step_keep _ _ _ _ label) by assumption. cbn [rbind].
      apply lookup_lt_Some in Hlabel. cbn [length] in Hshort.
      apply IH; lia.
    + destruct row as [coords confidence].
      pose proof Hlabel as Hend. apply lookup_ge_None in Hend.
      assert (Hat : start = length labels) by lia.
      unfold stage2_step. rewrite Hlabel, Hat. reflexivity.
Qed.

(** X7: the stage-2 loop is a filter. With a label for every row it returns,
    in input order, the detections of the rows that reach the threshold,
    resolve to 'num' or 'tun' and map to a valid box, together with their
    number and the sum of their confidences; with fewer labels than rows it
    raises the [IndexError] of the first missing label, whatever the rows
    are. *)
Theorem stage2_is_filter_or_index_error (output_dets_plate : list raw_detection) :
  let kept := omap (stage2_keep class_map m) (zip labels output_dets_plate) in
  ((length output_dets_plate <= length labels)%nat ->
   exists avg,
     stage2 class_map output_dets_plate labels m
       = Ok (kept, avg, Z.of_nat (length kept)) /\
     (avg == Qsum (map d_confidence kept))%Q) /\
  ((length labels < length output_dets_plate)%nat ->
   stage2 class_map output_dets_plate labels m
   = Raise (index_out_of_bounds (length labels) 0 (length labels))).
Proof.
  intros kept. subst kept. unfold stage2. split.
  - intros Hlen.
    destruct (stage2_loop_is_filter output_dets_plate 0 [] 0%Q 0 ltac:(lia))
      as (avg & Hrun & Havg).
    exists avg. rewrite drop_0 in *. cbn [app] in Hrun. rewrite Z.add_0_l in Hrun.
    split; [exact Hrun |]. rewrite Havg. ring.
  - intros Hshort. apply stage2_loop_index_error; lia.
Qed.

End Stage2Filter.

(** ** The order handed to the assembly *)

Lemma insert_by_x1_perm (d : detection) (l : list detection) :
  insert_by_x1 d l ≡ₚ d :: l.
Proof.
  induction l as [| e l IH]; [reflexivity |].
  cbn [insert_by_x1]. destruct (d_x1 d <=? d_x1 e); [reflexivity |].
  rewrite IH. apply Permutation_swap.
Qed.

Lemma insert_by_x1_sorted (d : detection) (l : list detection) :
  StronglySorted x1_le l -> StronglySorted x1_le (insert_by_x1 d l).
Proof.
  induction 1 as [| e l Hsorted IH Hall]; cbn [insert_by_x1].
  - repeat constructor.
  - destruct (d_x1 d <=? d_x1 e) eqn:Hcmp.
    + apply Z.leb_le in Hcmp. constructor.
      * constructor; assumption.
      * constructor; [exact Hcmp |].
        eapply Forall_impl; [exact Hall |]. unfold x1_le. intros; lia.
    + apply Z.leb_gt in Hcmp. constructor; [exact IH |].
      rewrite (insert_by_x1_perm d l). constructor; [unfold x1_le; lia | exact Hall].
Qed.

(** Detections of one horizontal position, in list order. *)
Lemma insert_by_x1_stable (k : Z) (d : detection) (l : list detection) :
  filter (fun e => d_x1 e = k) (insert_by_x1 d l)
  = filter (fun e => d_x1 e = k) (d :: l).
Proof.
  induction l as [| e l IH]; [reflexivity |].
  cbn [insert_by_x1]. destruct (d_x1 d <=? d_x1 e) eqn:Hcmp; [reflexivity |].
  apply Z.leb_gt in Hcmp.
  rewrite (filter_cons _ e), IH, !filter_cons.
  destruct (decide (d_x1 e = k)) as [He | He];
    destruct (decide (d_x1 d = k)) as [Hd | Hd]; try reflexivity.
  lia.
Qed.

(** X8: the list handed to the assembly is the list of retained detections
    rearranged in ascending [x1]; detections with the same [x1] keep the order
    the detector gave them. *)
Theorem sorted_by_x1_sorts_stably (relevant_detections : list detection) :
  sorted_by_x1 relevant_detections ≡ₚ relevant_detections /\
  StronglySorted x1_le (sorted_by_x1 relevant_detections) /\
  forall k,
    filter (fun e => d_x1 e = k) (sorted_by_x1 relevant_detections)
    = filter (fun e => d_x1 e = k) relevant_detections.
Proof.
  induction relevant_detections as [| d l (Hperm & Hsorted & Hstable)].
  - repeat split; constructor.
  - change (sorted_by_x1 (d :: l)) with (insert_by_x1 d (sorted_by_x1 l)).
    split; [| split].
    + rewrite insert_by_x1_perm, Hperm. reflexivity.
    + apply insert_by_x1_sorted, Hsorted.
    + intros k. rewrite insert_by_x1_stable, !filter_cons, Hstable. reflexivity.
Qed.

(** ** Recognised numbers and reported plates *)

Lemma string_app_assoc (a b c : string) : (a +:+ b) +:+ c = a +:+ b +:+ c.
Proof.
  induction a as [| x a IH]; [reflexivity |].
  change (String x ((a +:+ b) +:+ c) = String x (a +:+ b +:+ c)).
  f_equal. exact IH.
Qed.

Lemma string_app_empty_r (a : string) : a +:+ "" = a.
Proof.
  induction a as [| x a IH]; [reflexivity |].
  change (String x (a +:+ "") = String x a). f_equal. exact IH.
Qed.

Lemma rev_app_rev_app (s1 s2 s3 : string) :
  String.rev_app (String.rev_app s1 s2) s3 = String.rev_app s2 (s1 +:+ s3).
Proof.
  revert s2 s3. induction s1 as [| a s1 IH]; intros s2 s3; [reflexivity |].
  cbn [String.rev_app]. rewrite IH. reflexivity.
Qed.

Lemma rev_involutive (s : string) : String.rev (String.rev s) = s.
Proof.
  unfold String.rev. rewrite rev_app_rev_app. cbn [String.rev_app].
  apply string_app_empty_r.
Qed.

Lemma remove_spaces_rev_app (s1 s2 : string) :
  remove_spaces (String.rev_app s1 s2)
  = String.rev_app (remove_spaces s1) (remove_spaces s2).
Proof.
  revert s2. induction s1 as [| a s1 IH]; intros s2; [reflexivity |].
  cbn [String.rev_app]. rewrite IH. cbn [remove_spaces].
  destruct (Ascii.eqb a " "); reflexivity.
Qed.

Lemma remove_spaces_rev (s : string) :
  remove_spaces (String.rev s) = String.rev (remove_spaces s).
Proof. unfold String.rev. apply remove_spaces_rev_app. Qed.

Lemma blank_only_rev_app (s1 s2 : string) :
  blank_only (String.rev_app s1 s2) = blank_only s1 && blank_only s2.
Proof.
  revert s2. induction s1 as [| a s1 IH]; intros s2; [reflexivity |].
  cbn [String.rev_app]. rewrite IH. cbn [blank_only].
  destruct (negb (py_isspace a) || Ascii.eqb a " "); cbn [andb];
    [reflexivity | now rewrite andb_false_r].
Qed.

Lemma blank_only_lstrip (s : string) :
  blank_only s = true -> blank_only (lstrip s) = true.
Proof.
  induction s as [| c s IH]; [reflexivity |].
  intros Hs. cbn [lstrip]. destruct (py_isspace c); [| exact Hs].
  cbn [blank_only] in Hs. apply andb_true_iff in Hs as [_ Hs]. now apply IH.
Qed.

Lemma remove_spaces_lstrip (s : string) :
  blank_only s = true -> remove_spaces (lstrip s) = remove_spaces s.
Proof.
  induction s as [| c s IH]; [reflexivity |].
  intros Hs. cbn [blank_only] in Hs. apply andb_true_iff in Hs as [Hc Hs].
  cbn [lstrip]. destruct (py_isspace c); [| reflexivity].
  cbn [negb orb] in Hc. cbn [remove_spaces]. rewrite Hc. now apply IH.
Qed.

(** Where the blank is the only whitespace, stripping before removing the
    blanks changes nothing. *)
Lemma remove_spaces_strip (s : string) :
  blank_only s = true -> remove_spaces (strip s) = remove_spaces s.
Proof.
  intros Hs. unfold strip.
  assert (Hrev : blank_only (String.rev (lstrip s)) = true).
  { unfold String.rev. rewrite blank_only_rev_app, blank_only_lstrip by exact Hs.
    reflexivity. }
  rewrite remove_spaces_rev, remove_spaces_lstrip by exact Hrev.
  rewrite remove_spaces_rev, rev_involutive.
  now apply remove_spaces_lstrip.
Qed.

Lemma prefix_space (c : ascii) (s : string) :
  Ascii.eqb c " " = false -> String.prefix " " (String c s) = false.
Proof.
  intros Hc. cbn [String.prefix].
  destruct (ascii_dec " " c) as [<- | _]; [| reflexivity].
  discriminate Hc.
Qed.

Lemma remove_spaces_no_space (s : string) :
  contains " " (remove_spaces s) = false.
Proof.
  induction s as [| c s IH]; [reflexivity |].
  cbn [remove_spaces]. destruct (Ascii.eqb c " ") eqn:Hc; [exact IH |].
  cbn [contains]. rewrite prefix_space by exact Hc. exact IH.
Qed.

Section OcrFacts.
Context {Image Contour : Type} (im : imaging Image Contour).
Variable readtext : Image -> result (list string).
Variable corrected_plate_crop : Image.

(** X9: stage 3 leaves position, class and confidence of every detection
    alone, and a detection that is not a 'num' untouched.  A 'num' detection
    leaves it with a non-empty text.  That text is "[OCR_CROP_FAIL]" when the
    box, widened by two pixels and cut at the edges of the crop, is empty, and
    the reader is then not asked; it is "[OCR_ERROR]" when the reader raises;
    otherwise it is the reader's texts joined, stripped and freed of blanks,
    or "[NO_DIGITS]" when nothing is left of them.  The text read holds no
    blank, and where the blank is the only whitespace the reader returned, it
    is the joined texts without their blanks. *)
Theorem ocr_detection_outcome (det : detection) :
  let det' := ocr_detection im readtext corrected_plate_crop det in
  let b := ocr_margin_box (fst (shape im corrected_plate_crop))
             (snd (shape im corrected_plate_crop)) det in
  (d_x1 det', d_y1 det', d_x2 det', d_y2 det', d_class_name det', d_confidence det')
  = (d_x1 det, d_y1 det, d_x2 det, d_y2 det, d_class_name det, d_confidence det) /\
  (d_class_name det <> "num" -> det' = det) /\
  (d_class_name det = "num" ->
   (exists t, d_ocr_text det' = Some t /\ nonempty t = true) /\
   (box_valid b = false -> d_ocr_text det' = Some "[OCR_CROP_FAIL]") /\
   (box_valid b = true ->
    (forall e,
       readtext (slice im corrected_plate_crop b) = Raise e ->
       d_ocr_text det' = Some "[OCR_ERROR]") /\
    (forall ocr_result_list,
       readtext (slice im corrected_plate_crop b) = Ok ocr_result_list ->
       let t := remove_spaces (strip (join "" ocr_result_list)) in
       d_ocr_text det' = Some (if nonempty t then t else "[NO_DIGITS]") /\
       contains " " t = false /\
       (blank_only (join "" ocr_result_list) = true ->
        t = remove_spaces (join "" ocr_result_list))))).
Proof.
  unfold ocr_detection, ocr_margin_box. case_bool_decide as Hclass.
  2: { split; [reflexivity |]. split; [reflexivity | congruence]. }
  destruct (shape im corrected_plate_crop) as [crop_h crop_w]. cbn [fst snd].
  set (x1m := Z.max 0 (d_x1 det - 2)).
  set (y1m := Z.max 0 (d_y1 det - 2)).
  set (x2m := Z.min crop_w (d_x2 det + 2)).
  set (y2m := Z.min crop_h (d_y2 det + 2)).
  assert (Hbox : box_valid (x1m, y1m, x2m, y2m)
                 = negb ((y2m <=? y1m) || (x2m <=? x1m))).
  { unfold box_valid. rewrite negb_orb, <- !Z.ltb_antisym. apply andb_comm. }
  rewrite Hbox.
  destruct ((y2m <=? y1m) || (x2m <=? x1m)); cbn [negb].
  - split; [reflexivity |]. split; [congruence |]. intros _.
    split; [exists "[OCR_CROP_FAIL]"; split; reflexivity |].
    split; [reflexivity | discriminate].
  - destruct (readtext (slice im corrected_plate_crop (x1m, y1m, x2m, y2m)))
      as [ocr_result_list | e].
    + split; [reflexivity |]. split; [congruence |]. intros _.
      split.
      { destruct (nonempty (remove_spaces (strip (join "" ocr_result_list))))
          eqn:Hne; eexists; (split; [reflexivity |]);
          [exact Hne | reflexivity]. }
      split; [discriminate |]. intros _.
      split; [discriminate |].
      intros texts [= <-]. split; [reflexivity |].
      split; [apply remove_spaces_no_space | apply remove_spaces_strip].
    + split; [reflexivity |]. split; [congruence |]. intros _.
      split; [exists "[OCR_ERROR]"; split; reflexivity |].
      split; [discriminate |]. intros _.
      split; [reflexivity | discriminate].
Qed.

Lemma ocr_text_clean (det : detection) (t : string) :
  d_class_name det = "num" ->
  d_ocr_text (ocr_detection im readtext corrected_plate_crop det) = Some t ->
  text_ok (Some t) = true ->
  clean_number t.
Proof.
  intros Hclass Htext Hok.
  unfold text_ok in Hok. apply andb_true_iff in Hok as [Hok Hno].
  apply andb_true_iff in Hok as [Hne Hocr].
  apply negb_true_iff in Hno. apply negb_true_iff in Hocr.
  unfold ocr_detection in Htext. rewrite bool_decide_eq_true_2 in Htext by assumption.
  destruct (shape im corrected_plate_crop) as [crop_h crop_w].
  assert (Hclean : contains " " t = false).
  { destruct (_ || _).
    - injection Htext as <-. discriminate Hocr.
    - destruct (readtext _) as [ocr_result_list | e].
      + destruct (nonempty (remove_spaces (strip (join "" ocr_result_list)))).
        * injection Htext as <-. apply remove_spaces_no_space.
        * injection Htext as <-. discriminate Hno.
      + injection Htext as <-. discriminate Hocr. }
  repeat split; assumption.
Qed.

End OcrFacts.

(** The assembly reports no error only for a matched layout whose number
    texts are usable. *)
Lemma assemble_success (sorted_detections : list detection) (c c' : Q)
    (plate : string) :
  assemble sorted_detections c = Ok (plate, c', None) ->
  (exists d0 d2 t1 t2,
     d0 ∈ sorted_detections /\ d2 ∈ sorted_detections /\
     d_class_name d0 = "num" /\ d_class_name d2 = "num" /\
     d_ocr_text d0 = Some t1 /\ d_ocr_text d2 = Some t2 /\
     text_ok (Some t1) = true /\ text_ok (Some t2) = true /\
     plate = t1 +:+ " TN " +:+ t2)
  \/
  (exists dn t,
     dn ∈ sorted_detections /\ d_class_name dn = "num" /\
     d_ocr_text dn = Some t /\ text_ok (Some t) = true /\
     plate = "RS " +:+ t).
Proof.
  unfold assemble.
  case_bool_decide as Hp1; [| case_bool_decide as Hp2; [| case_bool_decide as Hp3]].
  - (* num tun num *)
    destruct sorted_detections as [| a [| b [| d [| ? ?]]]]; try discriminate Hp1.
    cbn [map] in Hp1. injection Hp1 as Ha Hb Hd.
    cbn [length Nat.eqb item lookup list_lookup rbind].
    destruct (text_ok (d_ocr_text a)) eqn:Hok1;
      destruct (text_ok (d_ocr_text d)) eqn:Hok2; cbn [andb];
      split_conditionals; intros [= <- <-]; try discriminate.
    destruct (d_ocr_text a) as [t1 |] eqn:E1; [| discriminate Hok1].
    destruct (d_ocr_text d) as [t2 |] eqn:E2; [| discriminate Hok2].
    left. exists a, d, t1, t2.
    repeat split; auto; repeat constructor.
  - (* num tun *)
    destruct sorted_detections as [| a [| b [| ? ?]]]; try discriminate Hp2.
    cbn [map] in Hp2. injection Hp2 as Ha Hb.
    cbn [length Nat.eqb item lookup list_lookup rbind].
    destruct (text_ok (d_ocr_text a)) eqn:Hok1;
      split_conditionals; intros [= <- <-]; try discriminate.
    destruct (d_ocr_text a) as [t |] eqn:E1; [| discriminate Hok1].
    right. exists a, t. repeat split; auto; repeat constructor.
  - (* tun num *)
    destruct sorted_detections as [| a [| b [| ? ?]]]; try discriminate Hp3.
    cbn [map] in Hp3. injection Hp3 as Ha Hb.
    cbn [length Nat.eqb item lookup list_lookup rbind].
    destruct (text_ok (d_ocr_text b)) eqn:Hok1;
      split_conditionals; intros [= <- <-]; try discriminate.
    destruct (d_ocr_text b) as [t |] eqn:E1; [| discriminate Hok1].
    right. exists b, t. repeat split; auto; repeat constructor.
  - intros [= <- <-].
Qed.

Lemma assemble_error_message (sorted_detections : list detection) (c c' : Q)
    (plate msg : string) :
  assemble sorted_detections c = Ok (plate, c', Some msg) -> msg <> "".
Proof.
  unfold assemble.
  repeat case_bool_decide; try shape_of_sequence;
    cbn [length Nat.eqb item lookup list_lookup rbind];
    split_conditionals; intros [= <- <- <-]; discriminate.
Qed.

Section ReportedPlates.
Context {Image Contour : Type} (im : imaging Image Contour).
Variable readtext : Image -> result (list string).
Variable car_model : Image -> result (list raw_detection + string).
Variable plate_model : Image -> result (list raw_detection * list Q).
Variable class_map : gmap Z string.
Variables plate_target_height plate_target_width : Z.

Lemma after_stage2_success (corrected_plate_crop : Image) (c1 conf : Q)
    (st : list detection * Q * Z) (plate : string) :
  after_stage2 im readtext corrected_plate_crop c1 st = Ok (plate, conf, None) ->
  plate_format plate.
Proof.
  destruct st as [[rel avg] n]. unfold after_stage2.
  destruct rel as [| d0 rel]; [discriminate |].
  intros Hasm. apply assemble_success in Hasm.
  assert (Hclean : forall d t,
            d ∈ map (ocr_detection im readtext corrected_plate_crop)
                  (sorted_by_x1 (d0 :: rel)) ->
            d_class_name d = "num" -> d_ocr_text d = Some t ->
            text_ok (Some t) = true -> clean_number t).
  { intros d t Hin Hclass Htext Hok.
    apply list_elem_of_In, in_map_iff in Hin as (det & <- & _).
    rewrite ocr_detection_class in Hclass.
    eapply ocr_text_clean; eassumption. }
  destruct Hasm as [(a & b & t1 & t2 & Ha & Hb & Hca & Hcb & Hta & Htb & Hoa & Hob & ->)
                   | (dn & t & Hn & Hcn & Htn & Hon & ->)].
  - left. exists t1, t2. split; [reflexivity |].
    split; [apply (Hclean a t1) | apply (Hclean b t2)]; assumption.
  - right. exists t. split; [reflexivity |]. apply (Hclean dn t); assumption.
Qed.

Lemma after_stage2_error_message (corrected_plate_crop : Image) (c1 conf : Q)
    (st : list detection * Q * Z) (plate msg : string) :
  after_stage2 im readtext corrected_plate_crop c1 st = Ok (plate, conf, Some msg) ->
  msg <> "".
Proof.
  destruct st as [[rel avg] n]. unfold after_stage2.
  destruct rel as [| d0 rel]; [intros [= <- <- <-]; discriminate |].
  apply assemble_error_message.
Qed.

Lemma perform_detection_outcome (decoded : option Image) :
  exists plate conf err,
    perform_detection im readtext car_model plate_model class_map
      plate_target_height plate_target_width decoded = Ok (plate, conf, err) /\
    (err = None -> plate_format plate) /\
    (forall msg, err = Some msg -> msg <> "").
Proof.
  unfold perform_detection.
  match goal with
  | |- context [try_except ?body _] => destruct body as [[[plate conf] err] | e] eqn:Hbody
  end.
  2: { eexists _, _, _. split; [reflexivity |].
       split; [discriminate | intros msg [= <-]; discriminate]. }
  exists plate, conf, err. split; [reflexivity |].
  destruct decoded as [image_bgr |];
    [| injection Hbody as <- <- <-;
       split; [discriminate | intros msg [= <-]; discriminate]].
  destruct (shape im image_bgr) as [img_h img_w].
  destruct (preprocess_image_car _ _ _ _) as [m_car | ?]; [| discriminate].
  cbn [rbind] in Hbody.
  destruct (car_model image_bgr) as [[detections | bad] | ?];
    [| injection Hbody as <- <- <-;
       split; [discriminate | intros msg [= <-]; discriminate]
     | discriminate].
  cbn [rbind] in Hbody.
  destruct (stage1 im m_car image_bgr detections) as [[[best |] c1] | ?];
    [| injection Hbody as <- <- <-;
       split; [discriminate | intros msg [= <-]; discriminate]
     | discriminate].
  cbn [rbind] in Hbody.
  destruct (detect_and_correct_rotation im (Some best)) as [corrected | ?];
    [| discriminate].
  cbn [rbind] in Hbody.
  destruct (shape im (usable_crop im best corrected)) as [crop_h crop_w].
  destruct (preprocess_image_plate _ _ _ _) as [m_plate | ?]; [| discriminate].
  cbn [rbind] in Hbody.
  destruct (plate_model _) as [[dets labels] | ?]; [| discriminate].
  cbn [rbind] in Hbody.
  destruct (stage2 class_map dets labels m_plate) as [st | ?]; [| discriminate].
  cbn [rbind] in Hbody.
  split.
  - intros ->. eapply after_stage2_success. exact Hbody.
  - intros msg ->. eapply after_stage2_error_message. exact Hbody.
Qed.

(** X11: [DetectPlate] answers every request. A response with [success] set
    carries no error message and a plate string "<n1> TN <n2>" or "RS <n>",
    where each number is a non-empty recognised text without blanks and
    without a failure mark, and the string does not contain "Error". A
    response without [success] carries an error message, unless the assembled
    plate string contains "Error": then the message is empty. *)
Theorem DetectPlate_outcome (decoded : option Image) :
  exists r,
    DetectPlate im readtext car_model plate_model class_map
      plate_target_height plate_target_width decoded = Ok r /\
    (success r = true ->
       error_message r = "" /\ plate_format (plate_number r) /\
       contains "Error" (plate_number r) = false) /\
    (success r = false ->
       error_message r <> "" \/
       (error_message r = "" /\ plate_format (plate_number r) /\
        contains "Error" (plate_number r) = true)).
Proof.
  destruct (perform_detection_outcome decoded)
    as (plate & conf & err & Hrun & Hformat & Hmsg).
  unfold DetectPlate. rewrite Hrun. cbn [rbind].
  eexists. split; [reflexivity |].
  destruct err as [msg |]; cbn.
  - split; [discriminate |]. intros _. left. apply Hmsg. reflexivity.
  - specialize (Hformat eq_refl).
    assert (Hne : nonempty plate = true).
    { destruct Hformat as [(t1 & t2 & -> & (Hn & _) & _) | (t & -> & _)];
        [destruct t1; [discriminate Hn | reflexivity] | reflexivity]. }
    rewrite Hne. cbn [andb].
    destruct (contains "Error" plate) eqn:Herr; cbn [negb]; split.
    + discriminate.
    + intros _. right. auto.
    + intros _. auto.
    + discriminate.
Qed.

End ReportedPlates.

(** ** Bounds of the reported confidence *)

Lemma Qsum_lower (lo : Q) (l : list Q) :
  Forall (fun q => (lo <= q)%Q) l ->
  (lo * inject_Z (Z.of_nat (length l)) <= Qsum l)%Q.
Proof.
  induction 1 as [| q l Hlo _ IH].
  - unfold Qsum. cbn [foldr length]. change (inject_Z (Z.of_nat 0)) with 0%Q. lra.
  - unfold Qsum in *. cbn [foldr length].
    rewrite Nat2Z.inj_succ, <- Z.add_1_r, inject_Z_plus.
    change (inject_Z 1) with 1%Q.
    generalize dependent (inject_Z (Z.of_nat (length l))). intros len.
    generalize (foldr Qplus 0%Q l). intros total IH. lra.
Qed.

Lemma Qsum_upper (hi : Q) (l : list Q) :
  Forall (fun q => (q <= hi)%Q) l ->
  (Qsum l <= hi * inject_Z (Z.of_nat (length l)))%Q.
Proof.
  induction 1 as [| q l Hhi _ IH].
  - unfold Qsum. cbn [foldr length]. change (inject_Z (Z.of_nat 0)) with 0%Q. lra.
  - unfold Qsum in *. cbn [foldr length].
    rewrite Nat2Z.inj_succ, <- Z.add_1_r, inject_Z_plus.
    change (inject_Z 1) with 1%Q.
    generalize dependent (inject_Z (Z.of_nat (length l))). intros len.
    generalize (foldr Qplus 0%Q l). intros total IH. lra.
Qed.

Lemma elem_of_map_iff {A B : Type} (f : A -> B) (l : list A) (y : B) :
  y ∈ map f l <-> exists x, f x = y /\ x ∈ l.
Proof.
  rewrite list_elem_of_In, in_map_iff.
  split; intros (x & Hx & Hin); exists x; split; auto; now apply list_elem_of_In.
Qed.

Section ConfidenceBounds.
Context {Image Contour : Type} (im : imaging Image Contour).

Lemma stage1_kept_confidence (m : scaling_meta) (image_bgr crop : Image)
    (detections : list raw_detection) (c1 : Q) :
  stage1 im m image_bgr detections = Ok (Some crop, c1) ->
  (CAR_CONFIDENCE_THRESHOLD < c1)%Q /\ exists d, d ∈ detections /\ c1 = snd d.
Proof.
  unfold stage1. intros Hstage1.
  destruct (stage1_loop_first_max im m image_bgr _ _ _ _ _ Hstage1)
    as [(Hnone & _) | (l1 & d & l2 & crop' & -> & Hcand & _ & -> & _)];
    [discriminate |].
  split; [exact (stage1_candidate_above im m image_bgr d crop' Hcand) |].
  exists d. split; [| reflexivity].
  apply elem_of_app. right. apply elem_of_cons. left. reflexivity.
Qed.

Lemma stage2_kept_rows (class_map : gmap Z string) (labels : list Q)
    (m : scaling_meta) (output_dets_plate : list raw_detection)
    (rel : list detection) (avg : Q) (n : Z) :
  stage2 class_map output_dets_plate labels m = Ok (rel, avg, n) ->
  forall d, d ∈ rel -> exists row, row ∈ output_dets_plate /\ d_confidence d = snd row.
Proof.
  intros Hstage2 d Hd.
  assert (Hlen : (length output_dets_plate <= length labels)%nat).
  { destruct (le_lt_dec (length output_dets_plate) (length labels)) as [| Hshort];
      [assumption |].
    unfold stage2 in Hstage2.
    rewrite (stage2_loop_index_error class_map labels m) in Hstage2 by lia.
    discriminate. }
  destruct (stage2_loop_is_filter class_map labels m output_dets_plate
              0 [] 0%Q 0 ltac:(lia)) as (avg' & Hrun & _).
  unfold stage2 in Hstage2. rewrite Hrun, drop_0 in Hstage2.
  cbn [app] in Hstage2. injection Hstage2 as <- _ _.
  apply list_elem_of_omap in Hd as ([label row] & Hin & Hkeep).
  exists row. split; [eapply elem_of_zip_r; exact Hin |].
  exact (stage2_keep_confidence class_map m label row d Hkeep).
Qed.

(** X10: when stage 1 keeps a plate and stage 2 retains at least one
    detection, the confidence handed to the assembly exceeds 0.535, the mean
    of the two thresholds; it is at most 1 when no detector row has a
    confidence above 1. *)
Theorem overall_confidence_bounds
    (m_car m_plate : scaling_meta) (image_bgr crop : Image)
    (detections output_dets_plate : list raw_detection)
    (class_map : gmap Z string) (labels : list Q)
    (c1 : Q) (rel : list detection) (avg : Q) (n : Z) :
  stage1 im m_car image_bgr detections = Ok (Some crop, c1) ->
  stage2 class_map output_dets_plate labels m_plate = Ok (rel, avg, n) ->
  rel <> [] ->
  ((107 # 200) < aggregate_confidence c1 avg n)%Q /\
  (Forall (fun row => (snd row <= 1)%Q) detections ->
   Forall (fun row => (snd row <= 1)%Q) output_dets_plate ->
   (aggregate_confidence c1 avg n <= 1)%Q).
Proof.
  intros Hstage1 Hstage2 Hrel.
  destruct (stage1_kept_confidence _ _ _ _ _ Hstage1) as [Hc1 (d1 & Hd1 & Hc1eq)].
  pose proof (stage2_kept_rows _ _ _ _ _ _ _ Hstage2) as Hrows.
  destruct (stage2_invariant _ _ _ _ _ _ _ Hstage2) as (_ & Havg & Hn & Hkept).
  assert (Hnpos : 0 < n).
  { rewrite Hn. destruct rel; [congruence | cbn [length]; lia]. }
  assert (Hnq : (0 < inject_Z n)%Q).
  { change 0%Q with (inject_Z 0). rewrite <- Zlt_Qlt. exact Hnpos. }
  assert (Hlen_rel : inject_Z (Z.of_nat (length (map d_confidence rel))) = inject_Z n).
  { rewrite length_map, Hn. reflexivity. }
  unfold aggregate_confidence.
  assert (Hpos : (0 <? n) = true) by (apply Z.ltb_lt; exact Hnpos).
  rewrite Hpos.
  split.
  - assert (Hlow : Forall (fun q => (PLATE_CONFIDENCE_THRESHOLD <= q)%Q)
                     (map d_confidence rel)).
    { apply Forall_forall. intros q Hq.
      apply elem_of_map_iff in Hq as (d & <- & Hd).
      rewrite Forall_forall in Hkept. exact (proj1 (Hkept d Hd)). }
    apply Qsum_lower in Hlow. rewrite Hlen_rel, <- Havg in Hlow.
    assert (Hmean : (PLATE_CONFIDENCE_THRESHOLD <= avg / inject_Z n)%Q)
      by (apply Qle_shift_div_l; assumption).
    unfold CAR_CONFIDENCE_THRESHOLD, PLATE_CONFIDENCE_THRESHOLD in *.
    revert Hmean. generalize (avg / inject_Z n)%Q. intros mean Hmean.
    apply Qlt_shift_div_l; lra.
  - intros Hup1 Hup2.
    assert (Hc1le : (c1 <= 1)%Q).
    { rewrite Forall_forall in Hup1. rewrite Hc1eq. apply Hup1, Hd1. }
    assert (Hhigh : Forall (fun q => (q <= 1)%Q) (map d_confidence rel)).
    { apply Forall_forall. intros q Hq.
      apply elem_of_map_iff in Hq as (d & <- & Hd).
      destruct (Hrows d Hd) as (row & Hrow & ->).
      rewrite Forall_forall in Hup2. apply Hup2, Hrow. }
    apply Qsum_upper in Hhigh. rewrite Hlen_rel, <- Havg in Hhigh.
    assert (Hmean : (avg / inject_Z n <= 1)%Q)
      by (apply Qle_shift_div_r; assumption).
    revert Hmean. generalize (avg / inject_Z n)%Q. intros mean Hmean.
    apply Qle_shift_div_r; lra.
Qed.

End ConfidenceBounds.

Lemma overall_confidence_bounds_witness :
  let class_map : gmap Z string := <[0 := "num"]> (<[1 := "tun"]> ∅) in
  let m_car := ScalingMeta 1280 1280 (640 # 1280) 0 0 in
  let m_plate := ScalingMeta 200 400 (640 # 400) 160 0 in
  let detections : list raw_detection := [((100, 100, 300, 200)%Q, 9 # 10)] in
  let output_dets_plate : list raw_detection :=
    [((10, 170, 200, 300)%Q, 9 # 10); ((210, 170, 300, 300)%Q, 8 # 10)] in
  ((107 # 200) < aggregate_confidence (9 # 10) (170 # 100) 2)%Q /\
  (aggregate_confidence (9 # 10) (170 # 100) 2 <= 1)%Q.
Proof.
  intros class_map m_car m_plate detections output_dets_plate.
  destruct (overall_confidence_bounds shape_only m_car m_plate (1280, 1280)
              (200, 400) detections output_dets_plate class_map [0; 1]%Q
              (9 # 10) [Detection 6 6 125 87 "num" (9 # 10) None;
                        Detection 131 6 187 87 "tun" (8 # 10) None]
              (170 # 100) 2 eq_refl eq_refl ltac:(discriminate))
    as [Hlow Hup].
  split.
  - exact Hlow.
  - apply Hup; repeat constructor; vm_compute; discriminate.
Defined.

(** ** When the rotation step rotates *)

Section RotationConverse.
Context {Image Contour : Type} (im : imaging Image Contour).

(** X5: if [detect_and_correct_rotation] returns anything but its input, then
    a contour was found, the normalised angle of the largest one is at least 2
    degrees in absolute value, and the result is the input rotated by that
    angle; the angle is at most 45 degrees in absolute value whenever the
    fitted rectangle reports an angle between -90 and 90. The method and the
    module-level function agree. *)
Theorem rotation_only_beyond_dead_zone (img : Image) (out : option Image) :
  Helpers.detect_and_correct_rotation im (Some img) = Ok out ->
  out <> Some img ->
  PlateDetectionServicer.detect_and_correct_rotation im (Some img) = Ok out /\
  exists c0 cs c angle rotated,
    find_contours im img = Ok (c0 :: cs) /\
    max_by (contourArea im) c0 cs = Ok c /\
    rect_angle im c = Ok angle /\
    (2 <= Qabs (normalize_angle angle))%Q /\
    ((-90 <= angle)%Q -> (angle <= 90)%Q ->
     (Qabs (normalize_angle angle) <= 45)%Q) /\
    warp im img (normalize_angle angle) = Ok rotated /\
    out = Some rotated.
Proof.
  intros Hrun Hchanged. split; [exact Hrun |].
  unfold Helpers.detect_and_correct_rotation, Helpers.rotation_body in Hrun.
  destruct (img_size im img =? 0); [cbn in Hrun; congruence |].
  destruct (find_contours im img) as [[| c0 cs] | e] eqn:Hfound;
    try (cbn in Hrun; congruence).
  cbn [rbind] in Hrun.
  destruct (max_by (contourArea im) c0 cs) as [c | e] eqn:Hmax;
    [| cbn in Hrun; congruence].
  cbn [rbind] in Hrun.
  destruct (rect_angle im c) as [angle | e] eqn:Hangle;
    [| cbn in Hrun; congruence].
  cbn [rbind] in Hrun.
  destruct (Qltb (Qabs (normalize_angle angle)) ANGLE_THRESHOLD) eqn:Hzone;
    [cbn in Hrun; congruence |].
  destruct (warp im img (normalize_angle angle)) as [rotated | e] eqn:Hwarp;
    [| cbn in Hrun; congruence].
  cbn in Hrun. injection Hrun as <-.
  exists c0, cs, c, angle, rotated.
  apply Qltb_ge in Hzone. unfold ANGLE_THRESHOLD in Hzone.
  split; [reflexivity |]. split; [exact Hmax |]. split; [exact Hangle |].
  split; [exact Hzone |]. split; [| split; [exact Hwarp | reflexivity]].
  intros Hlo Hhi.
  destruct (normalize_angle_range angle Hlo Hhi) as [Hn1 Hn2].
  apply Qabs_Qle_condition. split; assumption.
Qed.

End RotationConverse.

Lemma rotation_only_beyond_dead_zone_witness :
  Helpers.detect_and_correct_rotation tilted (Some (60, 200, 0%Q))
    = Ok (Some (60, 200, (0 + (80 - 90))%Q)) /\
  exists angle,
    rect_angle tilted tt = Ok angle /\ (2 <= Qabs (normalize_angle angle))%Q.
Proof.
  assert (Hrun : Helpers.detect_and_correct_rotation tilted (Some (60, 200, 0%Q))
                 = Ok (Some (60, 200, (0 + (80 - 90))%Q))) by reflexivity.
  split; [exact Hrun |].
  destruct (rotation_only_beyond_dead_zone tilted (60, 200, 0%Q) _ Hrun
              ltac:(discriminate))
    as (_ & c0 & cs & c & angle & rotated & _ & _ & Hangle & Hbig & _).
  exists angle. destruct c. split; assumption.
Defined.

(** ** Provenance of the document fields *)

Lemma cin_combine_from (parts : list (string * Q)) (text : string) (sum : Q)
    (n : Z) :
  exists sum',
    foldl (fun acc r =>
             let '(current_field_text, current_field_confidence_sum,
                   num_ocr_parts) := acc in
             let '(text_ocr, conf_ocr) := r in
             (current_field_text +:+ text_ocr +:+ " ",
              (current_field_confidence_sum + conf_ocr)%Q,
              num_ocr_parts + 1))
          (text, sum, n) parts
    = (text +:+ foldr (fun p rest => fst p +:+ " " +:+ rest) "" parts,
       sum', n + Z.of_nat (length parts)) /\
    (sum' == sum + Qsum (map snd parts))%Q.
Proof.
  revert text sum n.
  induction parts as [| [t c] parts IH]; intros text sum n.
  - exists sum. cbn. rewrite string_app_empty_r, Z.add_0_r.
    split; [reflexivity | unfold Qsum; cbn; ring].
  - cbn [foldl].
    destruct (IH (text +:+ t +:+ " ") (sum + c)%Q (n + 1)) as (sum' & -> & Hsum).
    exists sum'. split.
    + f_equal; [f_equal |].
      * cbn [foldr fst]. now rewrite !string_app_assoc.
      * cbn [length]. lia.
    + rewrite Hsum. unfold Qsum. cbn. ring.
Qed.

Lemma cin_combine_reading (p : string * Q) (parts : list (string * Q)) :
  exists text sum n,
    CinExtractionServicer.combine (p :: parts) = (text, sum, n) /\
    (0 <? n) = true /\
    reading_of (p :: parts) (strip text) (sum / inject_Z n).
Proof.
  unfold CinExtractionServicer.combine.
  destruct (cin_combine_from (p :: parts) "" 0%Q 0) as (sum & -> & Hsum).
  eexists _, _, _. split; [reflexivity |].
  split; [apply Z.ltb_lt; cbn [length]; lia |].
  split; [discriminate |]. split; [reflexivity |].
  rewrite Hsum. cbn [Z.add]. apply Qdiv_comp; [ring | reflexivity].
Qed.

Lemma zip_seq_lookup {A : Type} (pre l : list A) :
  Forall (fun p : nat * A => (pre ++ l) !! fst p = Some (snd p))
    (zip (seq (length pre) (length l)) l).
Proof.
  revert pre. induction l as [| a l IH]; intros pre; [constructor |].
  cbn [length seq zip zip_with]. constructor.
  - cbn [fst snd]. apply list_lookup_middle. reflexivity.
  - specialize (IH (pre ++ [a])).
    rewrite length_app in IH. cbn [length] in IH.
    replace (length pre + 1)%nat with (S (length pre)) in IH by lia.
    rewrite <- app_assoc in IH. exact IH.
Qed.

Lemma cin_field_names (r : CinExtractionServicer.CinResponse) (field : string)
    (p : string * Q) :
  cin_field r field = Some p ->
  field = "id" \/ field = "name" \/ field = "lastname".
Proof.
  unfold cin_field.
  destruct (String.eqb_spec field "id"); [auto |].
  destruct (String.eqb_spec field "name"); [auto |].
  destruct (String.eqb_spec field "lastname"); [auto | discriminate].
Qed.

Lemma cin_known_class (class_id_to_name : gmap Z string) (label_id : Z)
    (field : string) (p : string * Q) (r : CinExtractionServicer.CinResponse) :
  cin_field r field = Some p ->
  CinExtractionServicer.resolve_class_name class_id_to_name label_id = field ->
  class_id_to_name !! label_id = Some field.
Proof.
  intros Hfield. apply cin_field_names in Hfield.
  unfold CinExtractionServicer.resolve_class_name.
  destruct (class_id_to_name !! label_id) as [known |]; simpl.
  - intros ->. reflexivity.
  - intros <-. destruct Hfield as [H | [H | H]]; discriminate H.
Qed.

Section CinProvenance.
Context {Image Contour : Type} (im : imaging Image Contour).
Variable readtext : Image -> result (list (string * Q)).
Variable class_id_to_name : gmap Z string.

(** A detection of the list comes from a row at or above the threshold. *)
Let collected (rows : list raw_detection) (labels : list Q)
    (orig_h orig_w : Z) (s : Q) (pt pl : Z)
    (d : CinExtractionServicer.detection) : Prop :=
  exists i coords confidence label,
    rows !! i = Some (coords, confidence) /\
    labels !! i = Some label /\
    (CinExtractionServicer.CONFIDENCE_THRESHOLD <= confidence)%Q /\
    CinExtractionServicer.d_class_name d
      = CinExtractionServicer.resolve_class_name class_id_to_name (py_int label) /\
    CinExtractionServicer.box_orig coords orig_h orig_w s pt pl
      = Ok (CinExtractionServicer.d_box_orig d).

Lemma cin_collect_loop_collected (rows : list raw_detection) (labels : list Q)
    (orig_h orig_w : Z) (s : Q) (pt pl : Z)
    (todo : list (nat * raw_detection))
    (acc out : list CinExtractionServicer.detection) :
  Forall (fun p => rows !! fst p = Some (snd p)) todo ->
  Forall (collected rows labels orig_h orig_w s pt pl) acc ->
  for_each (CinExtractionServicer.collect_step class_id_to_name labels
              orig_h orig_w s pt pl) todo acc = Ok out ->
  Forall (collected rows labels orig_h orig_w s pt pl) out.
Proof.
  intros Htodo. revert acc.
  induction Htodo as [| [i [coords confidence]] todo Hrow _ IH]; intros acc Hacc.
  - intros [= <-]. exact Hacc.
  - rewrite for_each_cons. unfold CinExtractionServicer.collect_step at 1.
    destruct (Qleb CinExtractionServicer.CONFIDENCE_THRESHOLD confidence) eqn:Hpass;
      [| cbn [rbind]; apply IH; exact Hacc].
    destruct (labels !! i) as [label |] eqn:Hlabel; [| discriminate].
    cbn [rbind].
    destruct (CinExtractionServicer.box_orig coords orig_h orig_w s pt pl)
      as [b |] eqn:Hbox; [| discriminate].
    cbn [rbind]. apply IH.
    apply Forall_app. split; [exact Hacc |].
    constructor; [| constructor].
    exists i, coords, confidence, label. cbn [fst snd] in Hrow.
    repeat split; try assumption; try reflexivity.
    now apply Qleb_le.
Qed.

Lemma cin_collect_collected (output_dets : list (list raw_detection))
    (output_labels : list (list Q)) (orig_h orig_w : Z) (s : Q) (pt pl : Z)
    (detections : list CinExtractionServicer.detection) :
  CinExtractionServicer.collect class_id_to_name output_dets output_labels
    orig_h orig_w s pt pl = Ok detections ->
  detections = [] \/
  exists rows labels,
    output_dets = [rows] /\ output_labels = [labels] /\
    Forall (collected rows labels orig_h orig_w s pt pl) detections.
Proof.
  unfold CinExtractionServicer.collect.
  destruct output_dets as [| rows [| ? ?]]; try (intros [= <-]; now left).
  destruct output_labels as [| labels [| ? ?]]; try (intros [= <-]; now left).
  intros Hloop. right. exists rows, labels.
  split; [reflexivity |]. split; [reflexivity |].
  eapply cin_collect_loop_collected; [| constructor | exact Hloop].
  apply (zip_seq_lookup [] rows).
Qed.

(** What the two dicts hold under a key was stored together, from the reading
    of the crop of a detection of that class. *)
Let stored (image_cv : Image) (detections : list CinExtractionServicer.detection)
    (st : gmap string string * gmap string Q) : Prop :=
  forall k text,
    fst st !! k = Some text ->
    exists d parts conf,
      In d detections /\
      CinExtractionServicer.d_class_name d = k /\
      box_valid (CinExtractionServicer.d_box_orig d) = true /\
      readtext (slice im image_cv (CinExtractionServicer.d_box_orig d)) = Ok parts /\
      reading_of parts text conf /\
      snd st !! k = Some conf.

Lemma cin_ocr_loop_stored (image_cv : Image)
    (detections todo : list CinExtractionServicer.detection)
    (st st' : gmap string string * gmap string Q) :
  (forall d, In d todo -> In d detections) ->
  stored image_cv detections st ->
  for_each (CinExtractionServicer.ocr_step im readtext image_cv) todo st = Ok st' ->
  stored image_cv detections st'.
Proof.
  revert st. induction todo as [| det todo IH]; intros st Hsub Hst.
  - intros [= <-]. exact Hst.
  - rewrite for_each_cons.
    assert (Hrest : forall d, In d todo -> In d detections)
      by (intros d Hd; apply Hsub; now right).
    assert (Hdet : In det detections) by (apply Hsub; now left).
    unfold CinExtractionServicer.ocr_step at 1.
    destruct st as [extracted_texts ocr_confidences].
    destruct (CinExtractionServicer.d_box_orig det) as [[[x1 y1] x2] y2] eqn:Hbox.
    destruct ((x2 <=? x1) || (y2 <=? y1)) eqn:Hdegenerate;
      [cbn [rbind]; apply IH; assumption |].
    destruct (img_size im (slice im image_cv (x1, y1, x2, y2)) =? 0);
      [cbn [rbind]; apply IH; assumption |].
    destruct (readtext (slice im image_cv (x1, y1, x2, y2)))
      as [[| p parts] |] eqn:Hread; [cbn [rbind]; apply IH; assumption | | discriminate].
    cbn [rbind].
    destruct (cin_combine_reading p parts) as (text & sum & n & -> & -> & Hreading).
    apply IH; [exact Hrest |].
    intros k t. cbn [fst snd].
    destruct (decide (k = CinExtractionServicer.d_class_name det)) as [-> | Hother].
    + rewrite !lookup_insert_eq. intros [= <-].
      exists det, (p :: parts), (sum / inject_Z n)%Q.
      rewrite Hbox. apply orb_false_iff in Hdegenerate as [Hx Hy].
      apply Z.leb_gt in Hx, Hy.
      repeat split; try assumption; try reflexivity;
        try apply Hreading.
      unfold box_valid. apply andb_true_iff. split; apply Z.ltb_lt; assumption.
    + rewrite !lookup_insert_ne by congruence. apply Hst.
Qed.

Lemma cin_failure_has_no_field (msg field text : string) (conf : Q) :
  cin_field (CinExtractionServicer.failure msg) field = Some (text, conf) ->
  text = "".
Proof.
  unfold cin_field.
  repeat match goal with
         | |- context [if ?b then _ else _] => destruct b
         end; cbn; congruence.
Qed.

Lemma extract_fields_provenance (image_cv : Image)
    (output_dets : list (list raw_detection)) (output_labels : list (list Q))
    (orig_h orig_w : Z) (s : Q) (pt pl : Z)
    (r : CinExtractionServicer.CinResponse) (field text : string) (conf : Q) :
  CinExtractionServicer.extract_fields im readtext class_id_to_name image_cv
    output_dets output_labels orig_h orig_w s pt pl = Ok r ->
  cin_field r field = Some (text, conf) -> text <> "" ->
  exists rows labels,
    output_dets = [rows] /\ output_labels = [labels] /\
    exists i coords confidence label b parts,
      rows !! i = Some (coords, confidence) /\
      labels !! i = Some label /\
      (CinExtractionServicer.CONFIDENCE_THRESHOLD <= confidence)%Q /\
      class_id_to_name !! py_int label = Some field /\
      CinExtractionServicer.box_orig coords orig_h orig_w s pt pl = Ok b /\
      box_valid b = true /\
      readtext (slice im image_cv b) = Ok parts /\
      reading_of parts text conf.
Proof.
  intros Hbody Hfield Htext.
  destruct (extract_fields_is_build_response _ _ _ _ _ _ _ _ _ _ _ _ Hbody)
    as (detections & st & Hcollect & Hocr & ->).
  assert (Hstored : stored image_cv detections st).
  { eapply cin_ocr_loop_stored; [| | exact Hocr].
    - auto.
    - intros k t Hk. cbn [fst] in Hk. rewrite lookup_empty in Hk. discriminate. }
  assert (Hkey : fst st !! field = Some text /\
                 forall c, snd st !! field = Some c -> conf = c).
  { destruct st as [extracted_texts ocr_confidences].
    unfold cin_field, CinExtractionServicer.build_response in Hfield.
    cbn in Hfield. cbn [fst snd].
    repeat match type of Hfield with
           | (if String.eqb ?a ?b then _ else _) = _ =>
               destruct (String.eqb_spec a b) as [-> |]
           end; try discriminate Hfield;
      injection Hfield as <- <-;
      match goal with
      | |- ?m !! ?k = _ /\ _ =>
          destruct (m !! k) as [t |]; cbn [default] in *;
            [| congruence]
      end;
      (split; [reflexivity | intros c ->; reflexivity]). }
  destruct Hkey as [Htextkey Hconfkey].
  destruct (Hstored field text Htextkey)
    as (d & parts & c & Hd & Hclass & Hvalid & Hread & Hreading & Hconf).
  apply Hconfkey in Hconf as ->.
  destruct (cin_collect_collected _ _ _ _ _ _ _ _ Hcollect)
    as [-> | (rows & labels & -> & -> & Hall)]; [destruct Hd |].
  rewrite Forall_forall in Hall. apply list_elem_of_In, Hall in Hd.
  destruct Hd as (i & coords & confidence & label & Hrow & Hlabel & Hpass
                  & Hname & Hbox).
  exists rows, labels. split; [reflexivity |]. split; [reflexivity |].
  exists i, coords, confidence, label, (CinExtractionServicer.d_box_orig d), parts.
  repeat split; try assumption; try apply Hreading.
  eapply cin_known_class; [exact Hfield |]. congruence.
Qed.

End CinProvenance.

(** X14: [ExtractCinData] answers every request, and a field of its response
    holds text only if the reader and the model are there, the image decoded,
    the preprocessing and the detector answered with a batch of one, and some
    row of that batch has a confidence of at least 0.54, a label that the
    label map names as the field, a non-degenerate mapped box and a non-empty
    reading of the crop at that box: the field is the stripped concatenation
    of the texts read, its confidence their mean. *)
Theorem cin_field_provenance {Image Contour : Type} (im : imaging Image Contour)
    (float_repr : Q -> string)
    (ocr_reader : option (Image -> result (list (string * Q))))
    (compiled_model :
       option (Image -> result (list (list raw_detection) * list (list Q))))
    (class_id_to_name : gmap Z string) (decoded : option Image) :
  exists r,
    CinExtractionServicer.ExtractCinData im float_repr ocr_reader compiled_model
      class_id_to_name decoded = Ok r /\
    forall field text conf,
      cin_field r field = Some (text, conf) -> text <> "" ->
      exists readtext model image_cv orig_h orig_w s pt pl rows labels,
        ocr_reader = Some readtext /\ compiled_model = Some model /\
        decoded = Some image_cv /\
        CinExtractionServicer._preprocess_image float_repr
          (fst (shape im image_cv)) (snd (shape im image_cv))
          CinExtractionServicer.INPUT_HEIGHT CinExtractionServicer.INPUT_WIDTH
          = Ok (orig_h, orig_w, s, pt, pl) /\
        model image_cv = Ok ([rows], [labels]) /\
        exists i coords confidence label b parts,
          rows !! i = Some (coords, confidence) /\
          labels !! i = Some label /\
          (CinExtractionServicer.CONFIDENCE_THRESHOLD <= confidence)%Q /\
          class_id_to_name !! py_int label = Some field /\
          CinExtractionServicer.box_orig coords orig_h orig_w s pt pl = Ok b /\
          box_valid b = true /\
          readtext (slice im image_cv b) = Ok parts /\
          reading_of parts text conf.
Proof.
  assert (Hnone : forall msg,
            exists r, Ok (CinExtractionServicer.failure msg) = Ok r /\
              forall field text conf,
                cin_field r field = Some (text, conf) -> text <> "" -> False).
  { intros msg. eexists. split; [reflexivity |].
    intros field text conf Hfield Htext.
    apply Htext. eapply cin_failure_has_no_field. exact Hfield. }
  unfold CinExtractionServicer.ExtractCinData.
  destruct ocr_reader as [readtext |].
  2: { destruct (Hnone "OCR reader is not initialized.") as (r & Hr & Hno).
       exists r. split; [exact Hr |].
       intros field text conf Hfield Htext. destruct (Hno _ _ _ Hfield Htext). }
  destruct compiled_model as [model |].
  2: { destruct (Hnone "OpenVINO model is not initialized.") as (r & Hr & Hno).
       exists r. split; [exact Hr |].
       intros field text conf Hfield Htext. destruct (Hno _ _ _ Hfield Htext). }
  match goal with
  | |- context [try_except ?body _] => destruct body as [r | e] eqn:Hbody
  end.
  2: { cbn.
       destruct (Hnone (CinExtractionServicer.error_text e)) as (r & Hr & Hno).
       exists r. split; [exact Hr |].
       intros field text conf Hfield Htext. destruct (Hno _ _ _ Hfield Htext). }
  exists r. split; [reflexivity |].
  intros field text conf Hfield Htext.
  destruct decoded as [image_cv |];
    [| injection Hbody as <-; exfalso; apply Htext;
       eapply cin_failure_has_no_field; exact Hfield].
  destruct (shape im image_cv) as [h w] eqn:Hshape.
  destruct (CinExtractionServicer._preprocess_image _ _ _ _ _)
    as [[[[[orig_h orig_w] s] pt] pl] |] eqn:Hctx; [| discriminate].
  cbn [rbind] in Hbody.
  destruct (model image_cv) as [[output_dets output_labels] |] eqn:Hmodel;
    [| discriminate].
  cbn [rbind] in Hbody.
  destruct (extract_fields_provenance im readtext class_id_to_name image_cv
              output_dets output_labels orig_h orig_w s pt pl r field text conf
              Hbody Hfield Htext)
    as (rows & labels & -> & -> & Hrow).
  exists readtext, model, image_cv, orig_h, orig_w, s, pt, pl, rows, labels.
  split; [reflexivity |]. split; [reflexivity |]. split; [reflexivity |].
  rewrite Hshape. cbn [fst snd]. split; [exact Hctx |].
  split; [exact Hmodel |]. exact Hrow.
Qed.

(** ** Failure responses of the document extraction *)

Lemma py_int_zero (q : Q) : (0 <= q)%Q -> (q < 1)%Q -> py_int q = 0.
Proof.
  intros H0 H1.
  pose proof (py_int_nonneg q H0) as Hge.
  destruct (Z.eq_dec (py_int q) 0) as [| Hne]; [assumption |].
  assert (Hpos : 0 < py_int q) by lia.
  apply py_int_pos in Hpos; [| exact H0]. lra.
Qed.

Lemma cin_preprocess_image_cases (float_repr : Q -> string) (H W th tw : Z) :
  0 < H -> 0 < W -> 0 < th -> 0 < tw ->
  (W < H * tw /\ H < W * th ->
   exists s top left,
     CinExtractionServicer._preprocess_image float_repr H W th tw
       = Ok (H, W, s, top, left)) /\
  (H * tw < W ->
   CinExtractionServicer._preprocess_image float_repr H W th tw
   = Raise (ValueError
              (CinExtractionServicer.invalid_resized_dimensions float_repr
                 tw 0 W H (inject_Z tw / inject_Z W)))) /\
  (W * th < H ->
   CinExtractionServicer._preprocess_image float_repr H W th tw
   = Raise (ValueError
              (CinExtractionServicer.invalid_resized_dimensions float_repr
                 0 th W H (inject_Z th / inject_Z H)))).
Proof.
  intros HH HW Hth Htw.
  destruct (letterbox_int_sizes H W th tw HH HW Hth Htw)
    as (Hs & Hnh & Hnw & Hfill & Hpos).
  pose proof (scaled_side th H HH) as HHsh.
  pose proof (scaled_side tw W HW) as HWsw.
  unfold CinExtractionServicer._preprocess_image.
  rewrite !py_truediv_ok by (apply ratio_nonzero; assumption).
  cbn [rbind].
  split; [| split].
  - set (s := py_min (inject_Z th / inject_Z H) (inject_Z tw / inject_Z W)) in *.
    set (nh := py_int (inject_Z H * s)) in *.
    set (nw := py_int (inject_Z W * s)) in *.
    intros Hok.
    assert (Hsizes : 0 < nh /\ 0 < nw) by (apply Hpos; lia).
    destruct Hsizes as [Hh Hw].
    assert (Htest : (nh <=? 0) || (nw <=? 0) = false).
    { apply orb_false_iff. split; apply Z.leb_gt; assumption. }
    rewrite Htest.
    assert (Hborder : (((th - nh) / 2 <? 0) || (th - nh - (th - nh) / 2 <? 0)
                       || ((tw - nw) / 2 <? 0) || (tw - nw - (tw - nw) / 2 <? 0))
                      = false).
    { destruct (half_pad (th - nh)) as (? & ? & _); [lia |].
      destruct (half_pad (tw - nw)) as (? & ? & _); [lia |].
      repeat (apply orb_false_iff; split); apply Z.ltb_ge; assumption. }
    rewrite Hborder. eexists _, _, _. reflexivity.
  - intros Hlong.
    assert (Hmin : py_min (inject_Z th / inject_Z H) (inject_Z tw / inject_Z W)
                   = (inject_Z tw / inject_Z W)%Q).
    { unfold py_min.
      assert (Hlt : Qltb (inject_Z tw / inject_Z W) (inject_Z th / inject_Z H)
                    = true).
      { apply Qltb_lt, ratio_lt; [assumption | assumption | nia]. }
      now rewrite Hlt. }
    rewrite Hmin.
    assert (Hnw' : py_int (inject_Z W * (inject_Z tw / inject_Z W)) = tw).
    { rewrite (py_int_comp _ _ HWsw). apply py_int_inject. }
    assert (Hnh' : py_int (inject_Z H * (inject_Z tw / inject_Z W)) = 0).
    { apply py_int_zero.
      - apply Qmult_le_0_compat.
        + change 0%Q with (inject_Z 0). rewrite <- Zle_Qle. lia.
        + apply Qlt_le_weak, ratio_pos; assumption.
      - apply Qnot_le_lt. intros Hone.
        apply (one_le_scaled H tw W HW) in Hone. lia. }
    rewrite Hnw', Hnh'. reflexivity.
  - intros Htall.
    assert (Hmin : py_min (inject_Z th / inject_Z H) (inject_Z tw / inject_Z W)
                   = (inject_Z th / inject_Z H)%Q).
    { unfold py_min.
      assert (Hge : Qltb (inject_Z tw / inject_Z W) (inject_Z th / inject_Z H)
                    = false).
      { apply Qltb_ge, Qlt_le_weak, ratio_lt; [assumption | assumption | nia]. }
      now rewrite Hge. }
    rewrite Hmin.
    assert (Hnh' : py_int (inject_Z H * (inject_Z th / inject_Z H)) = th).
    { rewrite (py_int_comp _ _ HHsh). apply py_int_inject. }
    assert (Hnw' : py_int (inject_Z W * (inject_Z th / inject_Z H)) = 0).
    { apply py_int_zero.
      - apply Qmult_le_0_compat.
        + change 0%Q with (inject_Z 0). rewrite <- Zle_Qle. lia.
        + apply Qlt_le_weak, ratio_pos; assumption.
      - apply Qnot_le_lt. intros Hone.
        apply (one_le_scaled W th H HH) in Hone. lia. }
    rewrite Hnh', Hnw'.
    replace ((th <=? 0) || (0 <=? 0)) with true
      by (now rewrite orb_true_r).
    reflexivity.
Qed.

Section CinFailures.
Context {Image Contour : Type} (im : imaging Image Contour).
Variable float_repr : Q -> string.
Variable readtext : Image -> result (list (string * Q)).
Variable model : Image -> result (list (list raw_detection) * list (list Q)).
Variable class_id_to_name : gmap Z string.

(** X15: without a reader, or without a model, every request is answered
    with the failure that names what is missing.  With both, an image of
    positive size with a side more than 640 times the other is refused before
    the detector runs: the message is "Image processing error: " followed by
    the text of the [ValueError], which names the resized size (0 along the
    short side, 640 along the long one up to the last unit), the original
    size and the scale.  An image with each side less than 640 times the
    other reaches the detector, and when the detector raises, the response is
    the failure of the first [except] clause whose class the exception is an
    instance of. *)
Theorem ExtractCinData_failure_responses (image_cv : Image) (H W : Z) :
  shape im image_cv = (H, W) -> 0 < H -> 0 < W ->
  (forall compiled_model decoded,
     CinExtractionServicer.ExtractCinData im float_repr None compiled_model
       class_id_to_name decoded
     = Ok (CinExtractionServicer.failure "OCR reader is not initialized.")) /\
  (forall decoded,
     CinExtractionServicer.ExtractCinData im float_repr (Some readtext) None
       class_id_to_name decoded
     = Ok (CinExtractionServicer.failure "OpenVINO model is not initialized.")) /\
  (640 * H < W ->
   exists new_w,
     639 <= new_w <= 640 /\
     CinExtractionServicer.ExtractCinData im float_repr (Some readtext)
       (Some model) class_id_to_name (Some image_cv)
     = Ok (CinExtractionServicer.failure
             ("Image processing error: Invalid resized dimensions ("
              +:+ pretty new_w +:+ "x0) from original (" +:+ pretty W +:+ "x"
              +:+ pretty H +:+ ") with scale "
              +:+ float_repr (inject_Z 640 / inject_Z W)))) /\
  (640 * W < H ->
   exists new_h,
     639 <= new_h <= 640 /\
     CinExtractionServicer.ExtractCinData im float_repr (Some readtext)
       (Some model) class_id_to_name (Some image_cv)
     = Ok (CinExtractionServicer.failure
             ("Image processing error: Invalid resized dimensions (0x"
              +:+ pretty new_h +:+ ") from original (" +:+ pretty W +:+ "x"
              +:+ pretty H +:+ ") with scale "
              +:+ float_repr (inject_Z 640 / inject_Z H)))) /\
  (W < 640 * H /\ H < 640 * W ->
   forall e, model image_cv = Raise e ->
     CinExtractionServicer.ExtractCinData im float_repr (Some readtext)
       (Some model) class_id_to_name (Some image_cv)
     = Ok (CinExtractionServicer.failure
             match exn_base_of e with
             | IsValueError => "Image processing error: " +:+ exn_str e
             | IsRuntimeError => "Runtime error during inference: " +:+ exn_str e
             | IsOther => "An unexpected error occurred: " +:+ exn_name e
                          +:+ ": " +:+ exn_str e
             end)).
Proof.
  intros Hshape HH HW.
  destruct (cin_preprocess_image_cases float_repr H W
              CinExtractionServicer.INPUT_HEIGHT CinExtractionServicer.INPUT_WIDTH
              HH HW eq_refl eq_refl) as (Hok & Hwide & Htall).
  split; [reflexivity |]. split; [reflexivity |].
  unfold CinExtractionServicer.ExtractCinData. rewrite Hshape.
  split; [| split].
  - intros Hlong. exists 640. split; [lia |].
    rewrite Hwide by (unfold CinExtractionServicer.INPUT_WIDTH; lia).
    reflexivity.
  - intros Hlong. exists 640. split; [lia |].
    rewrite Htall by (unfold CinExtractionServicer.INPUT_HEIGHT; lia).
    reflexivity.
  - intros Hfit e Hmodel.
    destruct Hok as (s & top & left & ->);
      [unfold CinExtractionServicer.INPUT_HEIGHT,
         CinExtractionServicer.INPUT_WIDTH; lia |].
    cbn [rbind]. rewrite Hmodel. reflexivity.
Qed.

End CinFailures.

Lemma ExtractCinData_failure_responses_witness :
  let float_repr : Q -> string := fun _ => "0.9984399375975039" in
  let readtext : Z * Z -> result (list (string * Q)) := fun _ => Ok [] in
  let model : Z * Z -> result (list (list raw_detection) * list (list Q)) :=
    fun _ => Raise (RuntimeError "device lost") in
  (exists new_w,
     639 <= new_w <= 640 /\
     CinExtractionServicer.ExtractCinData shape_only float_repr (Some readtext)
       (Some model) ∅ (Some (1, 641))
     = Ok (CinExtractionServicer.failure
             ("Image processing error: Invalid resized dimensions ("
              +:+ pretty new_w
              +:+ "x0) from original (641x1) with scale 0.9984399375975039")))
  /\
  CinExtractionServicer.ExtractCinData shape_only float_repr (Some readtext)
    (Some model) ∅ (Some (480, 640))
  = Ok (CinExtractionServicer.failure
          "Runtime error during inference: device lost").
Proof.
  intros float_repr readtext model.
  pose proof (ExtractCinData_failure_responses shape_only float_repr readtext
                model ∅ (1, 641) 1 641 eq_refl ltac:(lia) ltac:(lia))
    as (_ & _ & Hwide & _ & _).
  pose proof (ExtractCinData_failure_responses shape_only float_repr readtext
                model ∅ (480, 640) 480 640 eq_refl ltac:(lia) ltac:(lia))
    as (_ & _ & _ & _ & Hfit).
  split.
  - destruct Hwide as (new_w & Hnew & Hrun); [lia |].
    exists new_w. split; [exact Hnew | exact Hrun].
  - apply (Hfit ltac:(lia) (RuntimeError "device lost") eq_refl).
Defined.

(** ** Requests refused before the plate is read *)

Lemma preprocess_image_car_cases (H W th tw : Z) :
  0 < H -> 0 < W -> 0 < th -> 0 < tw ->
  (W < 2 * H * tw /\ H < 2 * W * th ->
   exists m, PlateDetectionServicer.preprocess_image_car H W th tw = Ok m) /\
  (~ (W < 2 * H * tw /\ H < 2 * W * th) ->
   PlateDetectionServicer.preprocess_image_car H W th tw
     = Raise (cv2_error "resize: empty size")).
Proof.
  intros HH HW Hth Htw.
  destruct (letterbox_round_sizes H W th tw HH HW Hth Htw)
    as (_ & _ & _ & _ & Hpos).
  unfold PlateDetectionServicer.preprocess_image_car.
  rewrite !py_truediv_ok by (apply ratio_nonzero; assumption).
  cbn [rbind].
  set (s := py_min (inject_Z th / inject_Z H) (inject_Z tw / inject_Z W)) in *.
  set (nh := py_round (inject_Z H * s)) in *.
  set (nw := py_round (inject_Z W * s)) in *.
  split.
  - intros Hok. apply Hpos in Hok as [Hh Hw].
    assert (Htest : (nh <=? 0) || (nw <=? 0) = false).
    { apply orb_false_iff. split; apply Z.leb_gt; assumption. }
    rewrite Htest. eexists. reflexivity.
  - intros Hbad.
    assert (Htest : (nh <=? 0) || (nw <=? 0) = true).
    { destruct (nh <=? 0) eqn:E1; [reflexivity |].
      destruct (nw <=? 0) eqn:E2; [reflexivity |].
      exfalso. apply Hbad, Hpos. apply Z.leb_gt in E1, E2. split; assumption. }
    rewrite Htest. reflexivity.
Qed.

Lemma stage1_nothing_above_threshold {Image Contour : Type}
    (im : imaging Image Contour) (m : scaling_meta) (image_bgr : Image)
    (detections : list raw_detection) :
  Forall (fun d => (snd d <= CAR_CONFIDENCE_THRESHOLD)%Q) detections ->
  stage1 im m image_bgr detections = Ok (None, 0%Q).
Proof.
  intros Hlow.
  destruct (stage1_returns im m image_bgr detections) as (best & c & Hrun).
  rewrite Hrun. unfold stage1 in Hrun.
  destruct (stage1_loop_first_max im m image_bgr _ _ _ _ _ Hrun)
    as [(-> & -> & _) | (l1 & d & l2 & crop & -> & Hcand & _)]; [reflexivity |].
  exfalso. apply stage1_candidate_above in Hcand.
  rewrite Forall_app, Forall_cons in Hlow. destruct Hlow as (_ & Hd & _).
  apply Qle_not_lt in Hd. apply Hd, Hcand.
Qed.

Section PlateRejections.
Context {Image Contour : Type} (im : imaging Image Contour).
Variable readtext : Image -> result (list string).
Variable car_model : Image -> result (list raw_detection + string).
Variable plate_model : Image -> result (list raw_detection * list Q).
Variable class_map : gmap Z string.
Variables plate_target_height plate_target_width : Z.

(** X12: a frame with a side at least 1280 times the other is answered with
    the internal-error response naming the resize error, before the car model
    runs. For any other frame of positive size, when no row of the car model
    has a confidence above 0.53 (a row at exactly 0.53 included), the answer
    is the stage-1 failure with confidence 0, and neither the plate model nor
    the reader has any influence on it. *)
Theorem DetectPlate_rejections (image_bgr : Image) (H W : Z) :
  shape im image_bgr = (H, W) -> 0 < H -> 0 < W ->
  (~ (W < 2 * H * 640 /\ H < 2 * W * 640) ->
   DetectPlate im readtext car_model plate_model class_map
     plate_target_height plate_target_width (Some image_bgr)
   = Ok {| success := false; plate_number := ""; confidence := 0;
           error_message := "Internal server error during detection: error" |}) /\
  (W < 2 * H * 640 /\ H < 2 * W * 640 ->
   forall detections,
     car_model image_bgr = Ok (inl detections) ->
     Forall (fun d => (snd d <= 53 # 100)%Q) detections ->
     DetectPlate im readtext car_model plate_model class_map
       plate_target_height plate_target_width (Some image_bgr)
     = Ok {| success := false; plate_number := ""; confidence := 0;
             error_message :=
               "No plate detected with sufficient confidence in Stage 1." |}).
Proof.
  intros Hshape HH HW.
  destruct (preprocess_image_car_cases H W CAR_INPUT_HEIGHT CAR_INPUT_WIDTH
              HH HW eq_refl eq_refl) as [Hok Hbad].
  unfold DetectPlate, perform_detection. rewrite Hshape.
  split.
  - intros Hlong. rewrite (Hbad Hlong). reflexivity.
  - intros Hfit detections Hmodel Hlow.
    destruct (Hok Hfit) as (m & ->).
    cbn [rbind]. rewrite Hmodel. cbn [rbind].
    rewrite (stage1_nothing_above_threshold im m image_bgr detections Hlow).
    reflexivity.
Qed.

End PlateRejections.

Lemma DetectPlate_rejections_witness :
  let readtext : Z * Z -> result (list string) := fun _ => Ok ["12"] in
  let car_model : Z * Z -> result (list raw_detection + string) :=
    fun _ => Ok (inl [((100, 100, 300, 200)%Q, 53 # 100)]) in
  let plate_model : Z * Z -> result (list raw_detection * list Q) :=
    fun _ => Ok ([], []) in
  DetectPlate shape_only readtext car_model plate_model ∅ 640 640 (Some (1, 1280))
    = Ok {| success := false; plate_number := ""; confidence := 0;
            error_message := "Internal server error during detection: error" |} /\
  DetectPlate shape_only readtext car_model plate_model ∅ 640 640 (Some (720, 1280))
    = Ok {| success := false; plate_number := ""; confidence := 0;
            error_message :=
              "No plate detected with sufficient confidence in Stage 1." |}.
Proof.
  intros readtext car_model plate_model.
  pose proof (DetectPlate_rejections shape_only readtext car_model plate_model ∅
                640 640 (1, 1280) 1 1280 eq_refl ltac:(lia) ltac:(lia))
    as [Hlong _].
  pose proof (DetectPlate_rejections shape_only readtext car_model plate_model ∅
                640 640 (720, 1280) 720 1280 eq_refl ltac:(lia) ltac:(lia))
    as [_ Hfit].
  split; [apply Hlong; lia |].
  apply (Hfit ltac:(lia) [((100, 100, 300, 200)%Q, 53 # 100)] eq_refl).
  repeat constructor. cbn. apply Qle_refl.
Defined.
